(** * GhostGuard backend (src/index.js): a shallow embedding and its properties

    The Express handlers of [src/index.js] are embedded as pure functions
    over an explicit state: the in-process maps ([actionQueue], [serverLogs],
    [serverState], [livePlayersByLicense]) are finite maps keyed by the
    tenant's license key, and the Supabase collections the handlers touch are
    tables (lists of rows).  One handler invocation is one function call: the
    handlers are taken one at a time, in the order in which they complete.
    The in-process maps are plain JavaScript objects.  The command queue and
    the liveness maps are read and written under license keys, which are
    taken not to be names that an object inherits from its prototype; the
    log buffer is keyed by an unvalidated body field, and there the
    inherited names are modelled ([inherited]). *)

From Stdlib Require Import ZArith String Ascii List Lia.
From Stdlib.Strings Require Import Byte.
From stdpp Require Import gmap strings list fin_maps pretty.

Local Open Scope Z_scope.

(** ** JavaScript values

    JSON request fields whose shape the handlers test at run time
    ([Array.isArray], truthiness) are kept as [jsval], the value
    [JSON.parse] gives.  Numbers are the integers that JSON bodies of this
    API carry: [JNum n] is the number whose value is [n] (a literal beyond
    the safe integers stands for the double it is rounded to).  An object
    is the list of its own properties. *)

#[local] Unset Elimination Schemes.
Inductive jsval : Type :=
| JUndefined
| JNull
| JBool (b : bool)
| JNum (n : Z)
| JStr (s : string)
| JArr (xs : list jsval)
| JObj (fields : list (string * jsval)).
#[local] Set Elimination Schemes.

(** ToBoolean *)
Definition truthy (v : jsval) : bool :=
  match v with
  | JUndefined | JNull => false
  | JBool b => b
  | JNum n => negb (n =? 0)%Z
  | JStr s => negb (String.eqb s "")
  | JArr _ | JObj _ => true
  end.

(** [a || b] *)
Definition js_or (a b : jsval) : jsval := if truthy a then a else b.

(** [a ?? b] *)
Definition js_nullish (a b : jsval) : jsval :=
  match a with JUndefined | JNull => b | _ => a end.

Definition Array_isArray (v : jsval) : bool :=
  match v with JArr _ => true | _ => false end.

(** An optional string field ([undefined]/[null] is [None]) used where the
    code tests it with [!x] or [x || dflt]: the empty string is falsy too. *)
Definition str_truthy (o : option string) : option string :=
  match o with
  | Some s => if String.eqb s "" then None else Some s
  | None => None
  end.

(** ** Exceptions

    A handler body runs inside [try { ... } catch]: a computation either
    returns or throws, and the handler turns a throw into its 500 reply. *)

Inductive Result (A : Type) : Type :=
| Ok (a : A)
| Throw.
Arguments Ok {A} a.
Arguments Throw {A}.

Definition rbind {A B} (r : Result A) (f : A -> Result B) : Result B :=
  match r with Ok a => f a | Throw => Throw end.

Notation "x <- r ;; k" := (rbind r (fun x => k))
  (at level 100, r at next level, right associativity).

(** [xs.map(f)] for an [f] that may throw: the first throw ends the map. *)
Fixpoint map_result {A B} (f : A -> Result B) (xs : list A) : Result (list B) :=
  match xs with
  | [] => Ok []
  | x :: rest => y <- f x ;; ys <- map_result f rest ;; Ok (y :: ys)
  end.

(** ** Plain objects used as maps

    [const m = {}] inherits from [Object.prototype]: under one of the names
    below [m[k]] is a function (the prototype itself under [__proto__]) as
    long as no own property shadows it, truthy and without array methods. *)

Definition Object_prototype_names : list string :=
  [ "constructor"; "__defineGetter__"; "__defineSetter__"; "hasOwnProperty";
    "__lookupGetter__"; "__lookupSetter__"; "isPrototypeOf";
    "propertyIsEnumerable"; "toString"; "valueOf"; "__proto__";
    "toLocaleString" ].

Definition inherited (k : string) : bool :=
  bool_decide (k ∈ Object_prototype_names).

(** ** Action queue (Dashboard -> FiveM poll) *)

Record Action := mkAction {
  act_id : string;
  act_type : string;
  act_payload : jsval;
  act_created_at : Z
}.

Module Queue.

(** The array held under [license_key], [actionQueue[license_key] || []]. *)
Definition queue_of (actionQueue : gmap string (list Action)) (license_key : string)
  : list Action :=
  default [] (actionQueue !! license_key).

(** [if (q.length > 200) q.splice(0, 50)] *)
Definition trim (q : list Action) : list Action :=
  if decide (200 < length q)%nat then drop 50 q else q.

(** Whether the [splice] branch of [pushAction] is taken by this push. *)
Definition trims (actionQueue : gmap string (list Action)) (license_key : string)
  (action : Action) : bool :=
  bool_decide (200 < length (queue_of actionQueue license_key ++ [action]))%nat.

Definition pushAction (actionQueue : gmap string (list Action)) (license_key : string)
  (action : Action) : gmap string (list Action) :=
  <[license_key := trim (queue_of actionQueue license_key ++ [action])]> actionQueue.

(** GET /api/server/actions/:license: the body's [actions] and the new map. *)
Definition drain (actionQueue : gmap string (list Action)) (license_key : string)
  : list Action * gmap string (list Action) :=
  (queue_of actionQueue license_key, <[license_key := []]> actionQueue).

(** Successive pushes of [cmds] for one tenant. *)
Definition push_all (actionQueue : gmap string (list Action)) (license_key : string)
  (cmds : list Action) : gmap string (list Action) :=
  foldl (fun q a => pushAction q license_key a) actionQueue cmds.

(** For each push of [cmds], in order, whether it trimmed. *)
Fixpoint push_trace (actionQueue : gmap string (list Action)) (license_key : string)
  (cmds : list Action) : list bool :=
  match cmds with
  | [] => []
  | a :: rest =>
      trims actionQueue license_key a
      :: push_trace (pushAction actionQueue license_key a) license_key rest
  end.

End Queue.

(** ** In-memory log buffer *)

Record LogEvent := mkLogEvent {
  log_id : jsval;
  log_time : jsval;
  log_level : jsval;
  log_type : jsval;
  log_title : jsval;
  log_message : jsval;
  log_meta : jsval
}.

(** [serverLogs] only ever gets the own properties [pushServerLog] assigns.
    Under an inherited name the assignment
    [serverLogs[k] = serverLogs[k] || []] stores the inherited value again
    and [.unshift] on it is a TypeError; the map of buffers is as it was. *)

Module Logs.

(** The array held under a name that is not inherited,
    [serverLogs[license_key] || []]. *)
Definition buffer_of (serverLogs : gmap string (list LogEvent)) (license_key : string)
  : list LogEvent :=
  default [] (serverLogs !! license_key).

(** [if (b.length > 300) b.length = 300] *)
Definition truncate (b : list LogEvent) : list LogEvent :=
  if decide (300 < length b)%nat then take 300 b else b.

Definition pushServerLog (serverLogs : gmap string (list LogEvent)) (license_key : string)
  (item : LogEvent) : Result (gmap string (list LogEvent)) :=
  if inherited license_key then Throw
  else Ok (<[license_key := truncate (item :: buffer_of serverLogs license_key)]> serverLogs).

(** Successive ingestion of [items], first element first; the first throw
    ends it. *)
Definition ingest_all (serverLogs : gmap string (list LogEvent)) (license_key : string)
  (items : list LogEvent) : Result (gmap string (list LogEvent)) :=
  foldl (fun r it => m <- r ;; pushServerLog m license_key it) (Ok serverLogs) items.

End Logs.

(** Every buffer of the map holds at most 300 entries. *)
Definition logs_bounded (serverLogs : gmap string (list LogEvent)) : Prop :=
  forall k, (length (Logs.buffer_of serverLogs k) <= 300)%nat.

(** ** Strings

    A string is the UTF-8 encoding of its text, one [ascii] per byte.
    [trim] strips the white space and line terminator characters of the
    language: the ASCII ones and U+00A0, U+1680, U+2000 to U+200A, U+2028,
    U+2029, U+202F, U+205F, U+3000 and U+FEFF, here by their encodings.
    [toLowerCase] and [toUpperCase] map the ASCII letters and leave any other
    byte as it is: no character outside ASCII lower-cases to a digit or to
    one of the letters the duration syntax uses, and the only texts
    upper-cased are hexadecimal. *)

Definition is_ws (c : ascii) : bool :=
  let n := N_of_ascii c in
  ((9 <=? n) && (n <=? 13) || (n =? 32))%N.

Definition is_digit (c : ascii) : bool :=
  let n := N_of_ascii c in ((48 <=? n) && (n <=? 57))%N.

Definition to_lower (c : ascii) : ascii :=
  let n := N_of_ascii c in
  if ((65 <=? n) && (n <=? 90))%N then ascii_of_N (n + 32) else c.

Definition to_upper (c : ascii) : ascii :=
  let n := N_of_ascii c in
  if ((97 <=? n) && (n <=? 122))%N then ascii_of_N (n - 32) else c.

(** The two-byte and three-byte encodings of white space, by their bytes
    in reading order. *)
Definition is_ws2 (a b : ascii) : bool :=
  ((N_of_ascii a =? 194) && (N_of_ascii b =? 160))%N.

Definition is_ws3 (a b c : ascii) : bool :=
  let '(x, y, z) := (N_of_ascii a, N_of_ascii b, N_of_ascii c) in
  ((x =? 225) && (y =? 154) && (z =? 128)
   || (x =? 226) && (y =? 128)
      && ((128 <=? z) && (z <=? 138) || (z =? 168) || (z =? 169) || (z =? 175))
   || (x =? 226) && (y =? 129) && (z =? 159)
   || (x =? 227) && (y =? 128) && (z =? 128)
   || (x =? 239) && (y =? 187) && (z =? 191))%N.

(** White space stripped from the front. *)
Fixpoint drop_ws (cs : list ascii) : list ascii :=
  match cs with
  | a :: rest =>
      if is_ws a then drop_ws rest
      else
        match rest with
        | b :: rest2 =>
            if is_ws2 a b then drop_ws rest2
            else
              match rest2 with
              | c :: rest3 => if is_ws3 a b c then drop_ws rest3 else cs
              | [] => cs
              end
        | [] => cs
        end
  | [] => []
  end.

(** White space stripped from the end, on the bytes in reverse order. *)
Fixpoint drop_ws_rev (cs : list ascii) : list ascii :=
  match cs with
  | c :: rest =>
      if is_ws c then drop_ws_rev rest
      else
        match rest with
        | b :: rest2 =>
            if is_ws2 b c then drop_ws_rev rest2
            else
              match rest2 with
              | a :: rest3 => if is_ws3 a b c then drop_ws_rev rest3 else cs
              | [] => cs
              end
        | [] => cs
        end
  | [] => []
  end.

Definition js_trim (s : string) : string :=
  string_of_list_ascii (rev (drop_ws_rev (rev (drop_ws (list_ascii_of_string s))))).

Definition toLowerCase (s : string) : string :=
  string_of_list_ascii (map to_lower (list_ascii_of_string s)).

Definition toUpperCase (s : string) : string :=
  string_of_list_ascii (map to_upper (list_ascii_of_string s)).

(** Decimal value of a run of digits. *)
Definition digits_value (ds : list ascii) : Z :=
  fold_left (fun acc c => 10 * acc + (Z.of_N (N_of_ascii c) - 48)) ds 0.

Fixpoint join_comma (parts : list string) : string :=
  match parts with
  | [] => ""
  | [p] => p
  | p :: rest => p +:+ "," +:+ join_comma rest
  end.

(** ** Runtime services

    The digest, the keyed hash, the serializer of the signed assertion, the
    parser behind [new Date(string)], the conversions between numbers and
    texts and the time zone of the host are services of the platform; the
    handlers are embedded over any implementation of them.  [Date_parse]
    gives the time value in milliseconds, [None] for an unparsable string;
    [StringToNumber] the number a text converts to, [None] for NaN;
    [Number_toString] the text of a number beyond the safe integers;
    [LocalTZA t isUTC] the offset of local time in milliseconds, at the UTC
    time [t] when [isUTC] and at the local time [t] otherwise. *)

Record Assertion := mkAssertion {
  as_license_key : string;
  as_status : string;
  as_expires_at : option Z;
  as_issued_at : Z
}.

Class Runtime := {
  sha256 : string -> string;
  hmac_sha256_hex : string -> string -> string;
  JSON_stringify : Assertion -> string;
  Date_parse : string -> option Z;
  StringToNumber : string -> option Z;
  Number_toString : Z -> string;
  LocalTZA : Z -> bool -> Z
}.

(** [Number::toString]: the decimal digits for a safe integer. *)
Definition number_text `{Runtime} (n : Z) : string :=
  if (Z.abs n <=? 2 ^ 53)%Z then pretty n else Number_toString n.

(** Whether the object of a JSON body has an own property of this name. *)
Definition has_own (fields : list (string * jsval)) (name : string) : bool :=
  existsb (fun p => bool_decide (p.1 = name)) fields.

(** [String(v)].  An object of a JSON body holds no function: with an own
    [toString] property the conversion finds no callable [toString] and no
    primitive [valueOf], a TypeError; without one it inherits
    [Object.prototype.toString].  An array joins the texts of its elements. *)
Fixpoint js_String `{Runtime} (v : jsval) : Result string :=
  match v with
  | JUndefined => Ok "undefined"
  | JNull => Ok "null"
  | JBool true => Ok "true"
  | JBool false => Ok "false"
  | JNum n => Ok (number_text n)
  | JStr s => Ok s
  | JArr xs =>
      parts <-
        (fix elements (l : list jsval) : Result (list string) :=
           match l with
           | [] => Ok []
           | x :: rest =>
               p <- match x with
                    | JUndefined | JNull => Ok ""
                    | _ => js_String x
                    end ;;
               ps <- elements rest ;;
               Ok (p :: ps)
           end) xs ;;
      Ok (join_comma parts)
  | JObj fields => if has_own fields "toString" then Throw else Ok "[object Object]"
  end.

(** [Number(v)]; [None] is NaN.  An array or object converts through the
    text [String(v)] gives, and throws where that throws. *)
Definition js_Number `{Runtime} (v : jsval) : Result (option Z) :=
  match v with
  | JUndefined => Ok None
  | JNull => Ok (Some 0)
  | JBool b => Ok (Some (if b then 1 else 0))
  | JNum n => Ok (Some n)
  | JStr s => Ok (StringToNumber s)
  | JArr _ | JObj _ => s <- js_String v ;; Ok (StringToNumber s)
  end.

(** [bearer.startsWith("Bearer ") ? bearer.slice(7) : null], with
    [bearer = req.headers.authorization || ""]. *)
Definition bearer_token (authorization : option string) : option string :=
  let bearer := default "" authorization in
  if String.prefix "Bearer " bearer
  then Some (String.substring 7 (String.length bearer - 7) bearer)
  else None.

(** ** Dates

    A date is its time value in milliseconds since the epoch, [None] for an
    Invalid Date; an ISO timestamp string stands for the time value it
    renders.  Time values are the integers of magnitude at most 8.64e15, all
    of them exact as doubles; a sum or product that leaves the exact range
    also leaves the valid range, so integer arithmetic followed by
    [TimeClip] gives what the double arithmetic of the code gives whenever
    the clock is not negative. *)

Definition maxTime : Z := 8640000000000000.

Definition TimeClip (t : Z) : option Z :=
  if (Z.abs t <=? maxTime)%Z then Some t else None.

(** [new Date(v)] for a value of a JSON body; an array or object is parsed
    as the text [String(v)] gives, and throws where that throws. *)
Definition new_Date `{Runtime} (v : jsval) : Result (option Z) :=
  match v with
  | JUndefined => Ok None
  | JNull => Ok (Some 0)
  | JBool b => Ok (Some (if b then 1 else 0))
  | JNum n => Ok (TimeClip n)
  | JStr s => Ok (t ← Date_parse s; TimeClip t)
  | JArr _ | JObj _ => s <- js_String v ;; Ok (t ← Date_parse s; TimeClip t)
  end.

(** [d.toISOString()]: a RangeError on an Invalid Date. *)
Definition toISOString (d : option Z) : Result Z :=
  match d with Some t => Ok t | None => Throw end.

(** ** Ban durations *)

(** The match of [/^(\d+)([mhd])$/]: the digits and the unit. *)
Definition match_duration (raw : string) : option (list ascii * ascii) :=
  match rev (list_ascii_of_string raw) with
  | u :: ds_rev =>
      if (bool_decide (u = "m"%char) || bool_decide (u = "h"%char)
          || bool_decide (u = "d"%char))
         && negb (bool_decide (ds_rev = []))
         && forallb is_digit ds_rev
      then Some (rev ds_rev, u)
      else None
  | [] => None
  end.

(** [String(duration || "P").trim().toLowerCase()] *)
Definition normalize_duration `{Runtime} (duration : jsval) : Result string :=
  s <- js_String (js_or duration (JStr "P")) ;; Ok (toLowerCase (js_trim s)).

(** The duration branch of [computeExpiresAt], from the trimmed, lower-cased
    text of the duration on. *)
Definition expiry_of_text (now : Z) (raw : string) : Result (option Z) :=
  if bool_decide (raw = "p") || bool_decide (raw = "perm")
     || bool_decide (raw = "permanent")
  then Ok None
  else
    match match_duration raw with
    | None => Ok None
    | Some (digits, unit) =>
        let amount := digits_value digits in
        let ms :=
          if bool_decide (unit = "m"%char) then amount * 60000
          else if bool_decide (unit = "h"%char) then amount * 3600000
          else amount * 86400000 in
        t <- toISOString (TimeClip (now + ms)) ;; Ok (Some t)
    end.

(** [computeExpiresAt(duration, explicitExpiresAt)], with [now] the value
    [Date.now()] reads; [None] is [null]. *)
Definition computeExpiresAt `{Runtime} (now : Z) (duration explicitExpiresAt : jsval)
  : Result (option Z) :=
  if truthy explicitExpiresAt then
    d <- new_Date explicitExpiresAt ;; t <- toISOString d ;; Ok (Some t)
  else
    raw <- normalize_duration duration ;; expiry_of_text now raw.

(** The shape the duration syntax describes: one or more decimal digits
    followed by one of the units m, h, d. *)
Definition duration_shaped (raw : string) : Prop :=
  exists (ds : list ascii) (u : ascii),
    raw = string_of_list_ascii (ds ++ [u])
    /\ ds <> []
    /\ Forall (fun c => is_digit c = true) ds
    /\ (u = "m"%char \/ u = "h"%char \/ u = "d"%char).

(** [normalizeIdentifiers(value)] *)
Fixpoint dedup_first (seen : list string) (xs : list string) : list string :=
  match xs with
  | [] => []
  | x :: rest =>
      if bool_decide (x ∈ seen) then dedup_first seen rest
      else x :: dedup_first (x :: seen) rest
  end.

Definition normalizeIdentifiers `{Runtime} (value : jsval) : Result (list string) :=
  match value with
  | JArr xs =>
      texts <- map_result (fun x => s <- js_String (js_or x (JStr "")) ;; Ok (js_trim s)) xs ;;
      Ok (dedup_first [] (filter (fun s => s <> "") texts))
  | _ => Ok []
  end.

(** ** Query limits *)

(** [parseInt(s, 10)]: white space, an optional sign, then the longest run
    of decimal digits; [None] is NaN. *)
Fixpoint take_digits (cs : list ascii) : list ascii :=
  match cs with
  | c :: rest => if is_digit c then c :: take_digits rest else []
  | [] => []
  end.

Definition parseInt10 (s : string) : option Z :=
  let cs := drop_ws (list_ascii_of_string s) in
  let '(sign, body) :=
    match cs with
    | "-"%char :: rest => (-1, rest)
    | "+"%char :: rest => (1, rest)
    | _ => (1, cs)
    end in
  match take_digits body with
  | [] => None
  | ds => Some (sign * digits_value ds)
  end.

(** [Math.min(parseInt(req.query.limit || "200", 10), 500)] *)
Definition query_limit (limit : option string) : option Z :=
  n ← parseInt10 (default "200" (str_truthy limit)); Some (Z.min n 500).

(** [arr.slice(0, limit)]; a NaN end is 0, a negative end counts from the
    end of the array. *)
Definition slice0 {A} (arr : list A) (limit : option Z) : list A :=
  match limit with
  | None => []
  | Some n =>
      if (n <? 0)%Z then take (length arr - Z.to_nat (- n)) arr
      else take (Z.to_nat n) arr
  end.

(** ** The record store

    A collection is the list of its rows.  [.single()] yields a row only when
    the filters select exactly one; an update rewrites every selected row;
    an insert appends a row.  Timestamp columns hold time values. *)

Record License := mkLicense {
  lic_id : string;
  lic_license_key : string;
  lic_status : string;
  lic_expires_at : option Z;
  lic_hwid : option string;
  lic_last_seen : option Z
}.

Record Customer := mkCustomer {
  cust_id : string;
  cust_username : string;
  cust_password : string;
  cust_license_key : string
}.

Record PanelAdmin := mkPanelAdmin {
  pa_id : string;
  pa_license_key : string;
  pa_name : string;
  pa_role : string;
  pa_active : bool;
  pa_token_hash : string
}.

Record Ban := mkBan {
  ban_license_key : string;
  ban_player_id : jsval;
  ban_reason : jsval;
  ban_duration : jsval;
  ban_ban_id : string;
  ban_created_at : Z;
  ban_expires_at : option Z;
  ban_banned_by : jsval;
  ban_evidence_url : jsval;
  ban_identifiers : list string
}.

Record DB := mkDB {
  licenses : list License;
  customers : list Customer;
  panel_admins : list PanelAdmin;
  bans : list Ban
}.

Definition single {A} (rows : list A) : option A :=
  match rows with [r] => Some r | _ => None end.

Definition update_where {A} (sel : A -> bool) (f : A -> A) (rows : list A) : list A :=
  map (fun r => if sel r then f r else r) rows.

Definition set_hwid (h : string) (l : License) : License :=
  mkLicense (lic_id l) (lic_license_key l) (lic_status l) (lic_expires_at l)
    (Some h) (lic_last_seen l).

Definition set_last_seen (t : Z) (l : License) : License :=
  mkLicense (lic_id l) (lic_license_key l) (lic_status l) (lic_expires_at l)
    (lic_hwid l) (Some t).

Definition set_expires_at (t : Z) (b : Ban) : Ban :=
  mkBan (ban_license_key b) (ban_player_id b) (ban_reason b) (ban_duration b)
    (ban_ban_id b) (ban_created_at b) (Some t) (ban_banned_by b)
    (ban_evidence_url b) (ban_identifiers b).

Definition with_licenses (db : DB) (ls : list License) : DB :=
  mkDB ls (customers db) (panel_admins db) (bans db).

Definition with_bans (db : DB) (bs : list Ban) : DB :=
  mkDB (licenses db) (customers db) (panel_admins db) bs.

(** [from("licenses").select("*").eq("license_key", k).single()] *)
Definition license_by_key (db : DB) (k : string) : option License :=
  single (filter (fun l => lic_license_key l = k) (licenses db)).

(** [from("customers").select("*").eq("id", token).single()] *)
Definition customer_by_id (db : DB) (token : string) : option Customer :=
  single (filter (fun c => cust_id c = token) (customers db)).

(** [from("panel_admins").select("*").eq("token_hash", h).eq("active", true).single()] *)
Definition active_admin_by_hash (db : DB) (h : string) : option PanelAdmin :=
  single (filter (fun a => pa_token_hash a = h /\ pa_active a = true)
            (panel_admins db)).

(** [from("bans").select("*").eq("ban_id", banId).single()] *)
Definition ban_by_id (db : DB) (banId : string) : option Ban :=
  single (filter (fun b => ban_ban_id b = banId) (bans db)).

(** ** Replies *)

Record Reply := mkReply {
  status : Z;
  body : jsval
}.

Definition json (s : Z) (fields : list (string * jsval)) : Reply :=
  mkReply s (JObj fields).

(** ** Identity of a panel user *)

Inductive Identity : Type :=
| IdCustomer (license_key : string) (user : Customer)
| IdAdmin (license_key : string) (admin : PanelAdmin).

Definition identity_license_key (i : Identity) : string :=
  match i with IdCustomer k _ => k | IdAdmin k _ => k end.

(** The queries a resolution sends to the store, in order. *)
Inductive Query : Type :=
| QCustomerById (token : string)
| QActiveAdminByHash (token_hash : string).

(** [resolvePanelIdentity(token)]: the identity, and the queries issued. *)
Definition resolvePanelIdentity `{Runtime} (db : DB) (token : option string)
  : option Identity * list Query :=
  match str_truthy token with
  | None => (None, [])
  | Some t =>
      match customer_by_id db t with
      | Some user =>
          (Some (IdCustomer (cust_license_key user) user), [QCustomerById t])
      | None =>
          let token_hash := sha256 t in
          let queries := [QCustomerById t; QActiveAdminByHash token_hash] in
          match active_admin_by_hash db token_hash with
          | Some admin => (Some (IdAdmin (pa_license_key admin) admin), queries)
          | None => (None, queries)
          end
      end
  end.

(** ** POST /api/license/verify

    [t_check], [t_seen] and [t_issued] are the three clock reads of the
    handler; [LICENSE_SECRET] is the configured signing secret. *)
Definition license_verify `{Runtime} (LICENSE_SECRET : string) (db : DB)
  (t_check t_seen t_issued : Z) (license_key hwid : option string) : Reply * DB :=
  match str_truthy license_key with
  | None => (json 400 [("valid", JBool false); ("reason", JStr "MISSING_KEY")], db)
  | Some k =>
      match license_by_key db k with
      | None => (json 200 [("valid", JBool false); ("reason", JStr "NOT_FOUND")], db)
      | Some lic =>
          if decide (lic_status lic <> "ACTIVE") then
            (json 200 [("valid", JBool false); ("reason", JStr (lic_status lic))], db)
          else if match lic_expires_at lic with
                  | Some e => (e <? t_check)%Z
                  | None => false
                  end then
            (json 200 [("valid", JBool false); ("reason", JStr "EXPIRED")], db)
          else
            let by_id := fun l : License => bool_decide (lic_id l = lic_id lic) in
            let finish := fun db1 : DB =>
              let db2 :=
                with_licenses db1
                  (update_where by_id (set_last_seen t_seen) (licenses db1)) in
              let payload :=
                JSON_stringify (mkAssertion k (lic_status lic) (lic_expires_at lic)
                                  t_issued) in
              let signature := hmac_sha256_hex LICENSE_SECRET payload in
              (json 200 [("valid", JBool true); ("payload", JStr payload);
                         ("signature", JStr signature)], db2) in
            match str_truthy (lic_hwid lic), str_truthy hwid with
            | Some bound, Some h =>
                if decide (bound <> h) then
                  (json 200 [("valid", JBool false);
                             ("reason", JStr "HWID_MISMATCH")], db)
                else finish db
            | Some _, None => finish db
            | None, Some h =>
                finish (with_licenses db
                          (update_where by_id (set_hwid h) (licenses db)))
            | None, None => finish db
            end
      end
  end.

(** Whether a reply reports [valid: true]. *)
Definition reports_valid (r : Reply) : bool :=
  match body r with
  | JObj (("valid", JBool true) :: _) => true
  | _ => false
  end.

(** The license has not expired at time [t]. *)
Definition not_expired_at (t : Z) (l : License) : Prop :=
  match lic_expires_at l with Some e => (t <= e)%Z | None => True end.

(** No device is bound to the license ([null], or the empty string the
    handler treats alike). *)
Definition unbound (l : License) : Prop := str_truthy (lic_hwid l) = None.

(** ** POST /api/server/ban *)

Record BanRequest := mkBanRequest {
  br_license_key : option string;
  br_player : jsval;
  br_reason : jsval;
  br_duration : jsval;
  br_ban_id : option string;
  br_evidence_url : jsval;
  br_banned_by : jsval;
  br_identifiers : jsval;
  br_created_at : jsval;
  br_expires_at : jsval
}.

(** [t_id], [t_created] and [t_expiry] are the clock reads for the generated
    ban id, the default creation time and the duration offset. *)
Definition server_ban `{Runtime} (db : DB) (t_id t_created t_expiry : Z)
  (req : BanRequest) : Reply * DB :=
  match str_truthy (br_license_key req), truthy (br_player req) with
  | Some license_key, true =>
      let finalBanId :=
        match str_truthy (br_ban_id req) with
        | Some b => b
        | None => "GG-" +:+ pretty t_id
        end in
      let finalDuration := js_or (br_duration req) (JStr "P") in
      let attempt :=
        finalCreatedAt <-
          (if truthy (br_created_at req)
           then d <- new_Date (br_created_at req) ;; toISOString d
           else toISOString (TimeClip t_created)) ;;
        finalExpiresAt <- computeExpiresAt t_expiry finalDuration (br_expires_at req) ;;
        finalIdentifiers <- normalizeIdentifiers (br_identifiers req) ;;
        Ok (mkBan license_key (br_player req)
              (js_or (br_reason req) (JStr "No reason")) finalDuration finalBanId
              finalCreatedAt finalExpiresAt
              (js_or (br_banned_by req) (JStr "GhostGuard"))
              (js_or (br_evidence_url req) JNull)
              finalIdentifiers) in
      match attempt with
      | Ok row =>
          (json 200 [("success", JBool true); ("ban_id", JStr finalBanId)],
           with_bans db (bans db ++ [row]))
      | Throw => (json 500 [("success", JBool false)], db)
      end
  | _, _ => (json 400 [("success", JBool false)], db)
  end.

(** ** DELETE /api/server/unban/:banId

    [t_update], [t_id] and [t_created] are the clock reads for the new
    expiry, the action id and the action's creation time. *)
Definition server_unban `{Runtime} (db : DB) (actionQueue : gmap string (list Action))
  (t_update t_id t_created : Z) (authorization : option string) (banId : string)
  : Reply * DB * gmap string (list Action) :=
  let token := bearer_token authorization in
  match fst (resolvePanelIdentity db token) with
  | None =>
      (json 401 [("success", JBool false); ("error", JStr "UNAUTHORIZED")],
       db, actionQueue)
  | Some identity =>
      match ban_by_id db banId with
      | None => (json 200 [("success", JBool false)], db, actionQueue)
      | Some ban =>
          if decide (ban_license_key ban <> identity_license_key identity) then
            (json 403 [("success", JBool false); ("error", JStr "FORBIDDEN")],
             db, actionQueue)
          else
            let db' :=
              with_bans db
                (update_where (fun b => bool_decide (ban_ban_id b = banId))
                   (set_expires_at t_update) (bans db)) in
            let action :=
              mkAction ("ACT-" +:+ pretty t_id) "unban"
                (JObj [("ban_id", JStr banId)]) t_created in
            (json 200 [("success", JBool true)], db',
             Queue.pushAction actionQueue (ban_license_key ban) action)
      end
  end.

(** ** POST /api/server/heartbeat

    The [uptime] of a liveness record is a number, [None] for NaN. *)

Record Liveness := mkLiveness {
  lv_last_seen : Z;
  lv_players : nat;
  lv_uptime : option Z;
  lv_version : jsval
}.

Record LiveMemory := mkLiveMemory {
  serverState : gmap string Liveness;
  livePlayersByLicense : gmap string (list jsval)
}.

(** The outcome of a best-effort write to the store. *)
Inductive WriteOutcome : Type :=
| WriteDone
| WriteRejected
| WriteThrows.

(** The handler on a body whose [uptime] is any JSON value; [mirror] is
    what the upsert into [server_status] does.  The roster is assigned
    first; [Number(uptime || 0)] is evaluated while the liveness record is
    built, and where it throws the record is not stored and the outer
    [catch] answers 500. *)
Definition server_heartbeat_json `{Runtime} (mem : LiveMemory) (now : Z)
  (license_key : option string) (players version uptime : jsval)
  (mirror : WriteOutcome) : Reply * LiveMemory :=
  match str_truthy license_key with
  | None =>
      (json 400 [("success", JBool false); ("error", JStr "MISSING_LICENSE")], mem)
  | Some k =>
      let roster := match players with JArr xs => xs | _ => [] end in
      let rosters := <[k := roster]> (livePlayersByLicense mem) in
      match js_Number (js_or uptime (JNum 0)) with
      | Throw =>
          (json 500 [("success", JBool false)], mkLiveMemory (serverState mem) rosters)
      | Ok up =>
          let record :=
            mkLiveness now (length (default [] (rosters !! k))) up
              (js_or version JNull) in
          let mem' := mkLiveMemory (<[k := record]> (serverState mem)) rosters in
          match mirror with
          | WriteDone | WriteRejected | WriteThrows =>
              (json 200 [("success", JBool true)], mem')
          end
      end
  end.

(** The body field behind an [uptime] that is a JSON number, if any. *)
Definition uptime_json (uptime : option Z) : jsval :=
  match uptime with Some n => JNum n | None => JUndefined end.

(** The handler on a body whose [uptime] is the JSON number [uptime], if
    any; [mirror] is what the upsert into [server_status] does. *)
Definition server_heartbeat (mem : LiveMemory) (now : Z) (license_key : option string)
  (players version : jsval) (uptime : option Z) (mirror : WriteOutcome)
  : Reply * LiveMemory :=
  match str_truthy license_key with
  | None =>
      (json 400 [("success", JBool false); ("error", JStr "MISSING_LICENSE")], mem)
  | Some k =>
      let roster := match players with JArr xs => xs | _ => [] end in
      let rosters := <[k := roster]> (livePlayersByLicense mem) in
      let record :=
        mkLiveness now (length (default [] (rosters !! k)))
          (Some (default 0 uptime)) (js_or version JNull) in
      let mem' := mkLiveMemory (<[k := record]> (serverState mem)) rosters in
      match mirror with
      | WriteDone | WriteRejected | WriteThrows =>
          (json 200 [("success", JBool true)], mem')
      end
  end.

(** ** POST /api/server/log

    [t_id] and [t_time] are the clock reads for the id and the time of the
    item, [rnd] is [Math.floor(Math.random() * 9999)], and [persist] is what
    the insert into [server_logs] does. *)
Definition server_log (serverLogs : gmap string (list LogEvent)) (t_id t_time rnd : Z)
  (license_key : option string) (level type title message meta : jsval)
  (persist : WriteOutcome) : Reply * gmap string (list LogEvent) :=
  match str_truthy license_key, truthy message with
  | Some k, true =>
      let item :=
        mkLogEvent (JStr ("LOG-" +:+ pretty t_id +:+ "-" +:+ pretty rnd))
          (JNum t_time) (js_or level (JStr "info")) (js_or type (JStr "log"))
          (js_or title (JStr "Server")) message (js_or meta JNull) in
      match Logs.pushServerLog serverLogs k item with
      | Ok serverLogs' =>
          match persist with
          | WriteDone | WriteRejected | WriteThrows =>
              (json 200 [("success", JBool true)], serverLogs')
          end
      | Throw => (json 500 [("success", JBool false)], serverLogs)
      end
  | _, _ =>
      (json 400 [("success", JBool false);
                 ("error", JStr "MISSING_LICENSE_OR_MESSAGE")], serverLogs)
  end.

(** ** GET /api/server/logs/:license

    A row of [server_logs], with the columns the handler selects;
    [created_at] is a timestamp column: the text of a timestamp, or null. *)

Record LogRow := mkLogRow {
  row_id : jsval;
  row_created_at : option string;
  row_level : jsval;
  row_type : jsval;
  row_title : jsval;
  row_message : jsval;
  row_meta : jsval
}.

(** What the select on [server_logs] gives: a list of rows with no error, an
    error with no data, or a rejected promise. *)
Inductive ReadOutcome : Type :=
| ReadRows (data : list LogRow)
| ReadError
| ReadThrows.

Definition map_row (x : LogRow) : LogEvent :=
  mkLogEvent
    (js_or (row_id x) (JStr ("DB-" +:+ default "null" (row_created_at x))))
    (match row_created_at x with Some t => JStr t | None => JNull end)
    (js_or (row_level x) (JStr "info"))
    (js_or (row_type x) (JStr "log"))
    (js_or (row_title x) (JStr "Server"))
    (row_message x)
    (js_nullish (row_meta x) JNull).

(** [store license_key limit] is the answer of the store to the select for
    that tenant with that limit.  The result is the list sent as both [data]
    and [logs].  The fallback runs outside the [try]: under an inherited name
    [.slice] is a TypeError that the handler does not catch, and it sends no
    reply. *)
Definition server_logs (serverLogs : gmap string (list LogEvent))
  (store : string -> option Z -> ReadOutcome)
  (license_key : string) (limit_param : option string) : Result (list LogEvent) :=
  let limit := query_limit limit_param in
  match store license_key limit with
  | ReadRows data => Ok (map map_row data)
  | ReadError | ReadThrows =>
      if inherited license_key then Throw
      else Ok (slice0 (Logs.buffer_of serverLogs license_key) limit)
  end.

(** ** POST /admin/create-license *)

Definition hex_digit (n : N) : ascii :=
  ascii_of_N (if (n <? 10)%N then 48 + n else 87 + n).

(** [buf.toString("hex")] *)
Definition hex_of_bytes (bs : list byte) : string :=
  string_of_list_ascii
    (flat_map (fun b => [hex_digit (Byte.to_N b / 16); hex_digit (Byte.to_N b mod 16)]) bs).

(** [part()], from the two bytes [crypto.randomBytes(2)] returns. *)
Definition part (b1 b2 : byte) : string := toUpperCase (hex_of_bytes [b1; b2]).

(** [generateLicenseKey()], from the four random bytes it draws. *)
Definition generateLicenseKey (b1 b2 b3 b4 : byte) : string :=
  "GG-" +:+ part b1 b2 +:+ "-" +:+ part b3 b4.

(** [requireAdmin(req, res)] *)
Definition requireAdmin (ADMIN_SECRET : string) (authorization : option string) : bool :=
  match bearer_token authorization with
  | Some token =>
      negb (bool_decide (ADMIN_SECRET = "")) && bool_decide (token = ADMIN_SECRET)
  | None => false
  end.

Definition msPerDay : Z := 86400000.

(** Local time of a UTC time value, and back. *)
Definition LocalTime `{Runtime} (t : Z) : Z := t + LocalTZA t true.
Definition UTC `{Runtime} (t : Z) : Z := t - LocalTZA t false.

(** [d.setDate(d.getDate() + days)] on a date [t], for a whole number of
    days: the day of the month is read and set in local time, so the result
    is the same local wall-clock time [days] calendar days later, taken back
    to UTC with the offset in force then. *)
Definition add_days `{Runtime} (t days : Z) : option Z :=
  TimeClip (UTC (LocalTime t + days * msPerDay)).

(** [days_valid] is the JSON number of the body, if any, a whole number;
    [b1..b4] are the random bytes drawn; [new_id] is the id the store gives
    the new row. *)
Definition admin_create_license `{Runtime} (ADMIN_SECRET : string) (db : DB) (now : Z)
  (authorization : option string) (days_valid : option Z)
  (b1 b2 b3 b4 : byte) (new_id : string) : Reply * DB :=
  if requireAdmin ADMIN_SECRET authorization then
    let days := default 0 days_valid in
    let attempt :=
      if (0 <? days)%Z then t <- toISOString (add_days now days) ;; Ok (Some t)
      else Ok None in
    match attempt with
    | Ok expires_at =>
        let license_key := generateLicenseKey b1 b2 b3 b4 in
        (json 200 [("success", JBool true); ("license_key", JStr license_key)],
         with_licenses db
           (licenses db ++ [mkLicense new_id license_key "ACTIVE" expires_at None None]))
    | Throw => (json 500 [("success", JBool false)], db)
    end
  else (json 401 [("success", JBool false); ("error", JStr "UNAUTHORIZED")], db).

(** The values a group of a license key can take. *)
Definition is_group (g : string) : Prop := exists b1 b2, g = part b1 b2.

Definition is_upper_hex (c : ascii) : bool :=
  let n := N_of_ascii c in
  ((48 <=? n) && (n <=? 57) || (65 <=? n) && (n <=? 70))%N.

(** Every byte value, and every value of a group. *)
Definition all_bytes : list byte := omap Byte.of_N (map N.of_nat (seq 0 256)).

Definition all_groups : list string :=
  flat_map (fun b1 => map (part b1) all_bytes) all_bytes.

(** The value of an upper-case hexadecimal digit, and the byte two of them
    spell. *)
Definition hex_value (c : ascii) : N :=
  let n := N_of_ascii c in if (n <? 58)%N then (n - 48)%N else (n - 55)%N.

Definition byte_of_hex (hi lo : ascii) : option byte :=
  Byte.of_N (16 * hex_value hi + hex_value lo).

(** The two upper-case hexadecimal digits that spell a byte. *)
Definition upper_hi (b : byte) : ascii := to_upper (hex_digit (Byte.to_N b / 16)).
Definition upper_lo (b : byte) : ascii := to_upper (hex_digit (Byte.to_N b mod 16)).

(** ** Further updates of the store *)

Definition set_status (s : string) (l : License) : License :=
  mkLicense (lic_id l) (lic_license_key l) s (lic_expires_at l) (lic_hwid l)
    (lic_last_seen l).

Definition set_active (a : bool) (p : PanelAdmin) : PanelAdmin :=
  mkPanelAdmin (pa_id p) (pa_license_key p) (pa_name p) (pa_role p) a
    (pa_token_hash p).

Definition set_evidence_url (url : string) (b : Ban) : Ban :=
  mkBan (ban_license_key b) (ban_player_id b) (ban_reason b) (ban_duration b)
    (ban_ban_id b) (ban_created_at b) (ban_expires_at b) (ban_banned_by b)
    (JStr url) (ban_identifiers b).

Definition with_customers (db : DB) (cs : list Customer) : DB :=
  mkDB (licenses db) cs (panel_admins db) (bans db).

Definition with_panel_admins (db : DB) (ps : list PanelAdmin) : DB :=
  mkDB (licenses db) (customers db) ps (bans db).

Definition unauthorized : Reply :=
  json 401 [("success", JBool false); ("error", JStr "UNAUTHORIZED")].

(** ** DELETE /api/server/ban/:banId (legacy) *)
Definition server_ban_legacy_delete (db : DB) (now : Z) (banId : string) : Reply * DB :=
  (json 200 [("success", JBool true)],
   with_bans db
     (update_where (fun b => bool_decide (ban_ban_id b = banId))
        (set_expires_at now) (bans db))).

(** ** GET /api/server/players/:license and /api/server/status/:license *)

Definition server_players (mem : LiveMemory) (license : string) : list jsval :=
  default [] (livePlayersByLicense mem !! license).

Record StatusReply := mkStatusReply {
  st_online : bool;
  st_players : Z;
  st_uptime : Z;
  st_version : jsval;
  st_last_seen : option Z
}.

Definition server_status (mem : LiveMemory) (now : Z) (license : string) : StatusReply :=
  match serverState mem !! license with
  | None => mkStatusReply false 0 0 JNull None
  | Some data =>
      mkStatusReply (now - lv_last_seen data <? 30000)
        (Z.of_nat (lv_players data)) (default 0 (lv_uptime data))
        (js_or (lv_version data) JNull) (Some (lv_last_seen data))
  end.

(** ** POST /api/dashboard/action

    [t_id] and [t_created] are the clock reads, [rnd] is
    [Math.floor(Math.random() * 9999)]. *)
Definition dashboard_action `{Runtime} (db : DB) (actionQueue : gmap string (list Action))
  (t_id rnd t_created : Z) (token type : option string) (payload : jsval)
  : Reply * gmap string (list Action) :=
  match str_truthy token, str_truthy type with
  | Some t, Some ty =>
      match fst (resolvePanelIdentity db (Some t)) with
      | None => (unauthorized, actionQueue)
      | Some who =>
          let license_key := identity_license_key who in
          let id := "ACT-" +:+ pretty t_id +:+ "-" +:+ pretty rnd in
          (json 200 [("success", JBool true); ("id", JStr id)],
           Queue.pushAction actionQueue license_key
             (mkAction id ty (js_or payload (JObj [])) t_created))
      end
  | _, _ =>
      (json 400 [("success", JBool false); ("error", JStr "MISSING_FIELDS")],
       actionQueue)
  end.

(** Pushes for several tenants, in order. *)
Definition push_many (actionQueue : gmap string (list Action))
  (ops : list (string * Action)) : gmap string (list Action) :=
  foldl (fun q op => Queue.pushAction q (fst op) (snd op)) actionQueue ops.

(** The actions of [ops] that are for tenant [k], in order. *)
Definition actions_for (k : string) (ops : list (string * Action)) : list Action :=
  map snd (filter (fun op => fst op = k) ops).

(** Every queue of the map holds at most 200 entries. *)
Definition queues_bounded (actionQueue : gmap string (list Action)) : Prop :=
  forall k, (length (Queue.queue_of actionQueue k) <= 200)%nat.

(** ** POST /api/login *)
Definition api_login `{Runtime} (db : DB) (username password : option string) : Reply :=
  match str_truthy username, str_truthy password with
  | Some u, Some p =>
      let hash := sha256 p in
      match single (filter (fun c => cust_username c = u /\ cust_password c = hash)
                      (customers db)) with
      | Some user =>
          json 200 [("success", JBool true);
                    ("license_key", JStr (cust_license_key user));
                    ("token", JStr (cust_id user))]
      | None => json 200 [("success", JBool false)]
      end
  | _, _ => json 200 [("success", JBool false)]
  end.

(** ** Panel admins *)

(** [requireCustomer(req, res)]: the owner, or [None] after a 401 reply. *)
Definition requireCustomer (db : DB) (token : option string) : option Customer :=
  match str_truthy token with
  | Some t => customer_by_id db t
  | None => None
  end.

(** [randomToken(bytes)], from the bytes [crypto.randomBytes] returns. *)
Definition randomToken (random : list byte) : string := hex_of_bytes random.

(** POST /api/panel/admins/add.  [random] are the 24 random bytes, [new_id]
    and [created_at] are the columns the store fills in, and [insert] is what
    the insert does. *)
Definition panel_admins_add `{Runtime} (db : DB) (token name : option string)
  (steam discord : jsval) (role : option string) (random : list byte)
  (new_id : string) (created_at : Z) (insert : WriteOutcome) : Reply * DB :=
  match requireCustomer db token with
  | None => (unauthorized, db)
  | Some user =>
      match str_truthy name with
      | None =>
          (json 400 [("success", JBool false); ("error", JStr "MISSING_NAME")], db)
      | Some name =>
          let invite_token := randomToken random in
          let token_hash := sha256 invite_token in
          let role := default "admin" (str_truthy role) in
          match insert with
          | WriteDone =>
              (json 200
                 [("success", JBool true);
                  ("admin", JObj [("id", JStr new_id); ("name", JStr name);
                                  ("steam", js_or steam JNull);
                                  ("discord", js_or discord JNull);
                                  ("role", JStr role); ("active", JBool true);
                                  ("created_at", JNum created_at)]);
                  ("invite_token", JStr invite_token)],
               with_panel_admins db
                 (panel_admins db
                  ++ [mkPanelAdmin new_id (cust_license_key user) name role true
                        token_hash]))
          | WriteRejected =>
              (json 500 [("success", JBool false); ("error", JStr "DB_ERROR")], db)
          | WriteThrows => (json 500 [("success", JBool false)], db)
          end
      end
  end.

(** POST /api/panel/admins/remove *)
Definition panel_admins_remove (db : DB) (token id : option string)
  (delete : WriteOutcome) : Reply * DB :=
  match requireCustomer db token with
  | None => (unauthorized, db)
  | Some user =>
      match str_truthy id with
      | None =>
          (json 400 [("success", JBool false); ("error", JStr "MISSING_ID")], db)
      | Some id =>
          match delete with
          | WriteDone =>
              (json 200 [("success", JBool true)],
               with_panel_admins db
                 (filter (fun a => ~ (pa_id a = id
                                      /\ pa_license_key a = cust_license_key user))
                    (panel_admins db)))
          | WriteRejected =>
              (json 500 [("success", JBool false); ("error", JStr "DB_ERROR")], db)
          | WriteThrows => (json 500 [("success", JBool false)], db)
          end
      end
  end.

(** POST /api/panel/admins/toggle *)
Definition panel_admins_toggle (db : DB) (token id : option string) (active : jsval)
  (update : WriteOutcome) : Reply * DB :=
  match requireCustomer db token with
  | None => (unauthorized, db)
  | Some user =>
      match str_truthy id, active with
      | Some id, JBool active =>
          match update with
          | WriteDone =>
              (json 200 [("success", JBool true)],
               with_panel_admins db
                 (update_where
                    (fun a => bool_decide (pa_id a = id)
                              && bool_decide (pa_license_key a = cust_license_key user))
                    (set_active active) (panel_admins db)))
          | WriteRejected =>
              (json 500 [("success", JBool false); ("error", JStr "DB_ERROR")], db)
          | WriteThrows => (json 500 [("success", JBool false)], db)
          end
      | _, _ =>
          (json 400 [("success", JBool false); ("error", JStr "MISSING_FIELDS")], db)
      end
  end.

(** POST /api/panel/admins/login *)
Definition panel_admins_login `{Runtime} (db : DB) (token : option string) : Reply :=
  match str_truthy token with
  | None => json 400 [("success", JBool false)]
  | Some t =>
      match fst (resolvePanelIdentity db (Some t)) with
      | Some (IdAdmin license_key admin) =>
          json 200 [("success", JBool true); ("license_key", JStr license_key);
                    ("admin", JObj [("id", JStr (pa_id admin));
                                    ("name", JStr (pa_name admin));
                                    ("role", JStr (pa_role admin))]);
                    ("token", JStr t)]
      | _ => json 200 [("success", JBool false)]
      end
  end.

(** ** POST /customer/toggle and POST /admin/toggle-license *)

Definition customer_toggle (db : DB) (token status : option string) : Reply * DB :=
  match str_truthy token, str_truthy status with
  | Some t, Some s =>
      match customer_by_id db t with
      | None => (json 401 [("success", JBool false)], db)
      | Some user =>
          (json 200 [("success", JBool true)],
           with_licenses db
             (update_where
                (fun l => bool_decide (lic_license_key l = cust_license_key user))
                (set_status s) (licenses db)))
      end
  | _, _ => (json 400 [("success", JBool false)], db)
  end.

Definition admin_toggle_license (ADMIN_SECRET : string) (db : DB)
  (authorization license_key status : option string) : Reply * DB :=
  if requireAdmin ADMIN_SECRET authorization then
    match str_truthy license_key, str_truthy status with
    | Some k, Some s =>
        (json 200 [("success", JBool true)],
         with_licenses db
           (update_where (fun l => bool_decide (lic_license_key l = k))
              (set_status s) (licenses db)))
    | _, _ => (json 400 [("success", JBool false)], db)
    end
  else (unauthorized, db).

(** ** POST /admin/create-customer

    [new_id] is the id the store gives the new row and [insert] is what the
    insert does. *)
Definition admin_create_customer `{Runtime} (ADMIN_SECRET : string) (db : DB)
  (authorization username password license_key : option string)
  (new_id : string) (insert : WriteOutcome) : Reply * DB :=
  if requireAdmin ADMIN_SECRET authorization then
    match str_truthy username, str_truthy password, str_truthy license_key with
    | Some u, Some p, Some k =>
        match license_by_key db k with
        | None =>
            (json 404 [("success", JBool false);
                       ("error", JStr "LICENSE_NOT_FOUND")], db)
        | Some _ =>
            let password_hash := sha256 p in
            match insert with
            | WriteDone =>
                (json 200
                   [("success", JBool true);
                    ("customer", JObj [("id", JStr new_id); ("username", JStr u);
                                       ("password", JStr password_hash);
                                       ("license_key", JStr k)])],
                 with_customers db
                   (customers db ++ [mkCustomer new_id u password_hash k]))
            | WriteRejected =>
                (json 500 [("success", JBool false); ("error", JStr "DB_ERROR")], db)
            | WriteThrows => (json 500 [("success", JBool false)], db)
            end
        end
    | _, _, _ =>
        (json 400 [("success", JBool false); ("error", JStr "MISSING_FIELDS")], db)
    end
  else (unauthorized, db).

(** ** Evidence images *)

Definition is_mime_char (c : ascii) : bool :=
  let n := N_of_ascii c in
  ((97 <=? n) && (n <=? 122) || (65 <=? n) && (n <=? 90)
   || (48 <=? n) && (n <=? 57) || (n =? 46) || (n =? 43) || (n =? 45))%N.

(** Whether the text holds a character that [.] of a regular expression
    does not match: LF, CR, U+2028 or U+2029 (the last two by their
    three-byte encodings). *)
Fixpoint has_line_terminator (cs : list ascii) : bool :=
  match cs with
  | a :: rest =>
      let n := N_of_ascii a in
      ((n =? 10) || (n =? 13))%N
      || match rest with
         | b :: c :: _ =>
             ((n =? 226) && (N_of_ascii b =? 128)
              && ((N_of_ascii c =? 168) || (N_of_ascii c =? 169)))%N
         | _ => false
         end
      || has_line_terminator rest
  | [] => false
  end.

Fixpoint take_while (p : ascii -> bool) (cs : list ascii) : list ascii :=
  match cs with
  | c :: rest => if p c then c :: take_while p rest else []
  | [] => []
  end.

Fixpoint drop_while (p : ascii -> bool) (cs : list ascii) : list ascii :=
  match cs with
  | c :: rest => if p c then drop_while p rest else cs
  | [] => []
  end.

(** The rest of [cs] after the prefix [pre], if [cs] starts with it. *)
Fixpoint strip_prefix (pre cs : list ascii) : option (list ascii) :=
  match pre, cs with
  | [], _ => Some cs
  | p :: pre', c :: cs' => if bool_decide (p = c) then strip_prefix pre' cs' else None
  | _ :: _, [] => None
  end.

(** The match of [/^data:(image\/[a-zA-Z0-9.+-]+);base64,(.+)$/] on a text,
    as [(mime, base64)]. *)
Definition match_data_uri (text : string) : option (string * string) :=
  rest ← strip_prefix (list_ascii_of_string "data:image/") (list_ascii_of_string text);
  let subtype := take_while is_mime_char rest in
  if bool_decide (subtype = []) then None
  else
    payload ← strip_prefix (list_ascii_of_string ";base64,")
                (drop_while is_mime_char rest);
    if bool_decide (payload = []) || has_line_terminator payload then None
    else Some ("image/" +:+ string_of_list_ascii subtype,
               string_of_list_ascii payload).

(** [extractDataUriParts(imageData)]; it throws where [String] does. *)
Definition extractDataUriParts `{Runtime} (imageData : jsval)
  : Result (option (string * string)) :=
  text <- js_String (js_or imageData (JStr "")) ;; Ok (match_data_uri text).

(** [s.includes(needle)] *)
Definition includes (needle s : string) : bool :=
  match String.index 0 needle s with Some _ => true | None => false end.

(** What the upload to the blob store does. *)
Inductive UploadOutcome : Type :=
| UploadDone
| UploadFailed
| UploadThrows.

(** POST /api/server/ban/evidence.  [upload] and [public_url] are the
    answers of the blob store for an object path. *)
Definition server_ban_evidence `{Runtime} (db : DB) (now : Z)
  (upload : string -> UploadOutcome) (public_url : string -> option string)
  (license_key ban_id : option string) (image_data : jsval) : Reply * DB :=
  match str_truthy license_key, str_truthy ban_id, truthy image_data with
  | Some k, Some b, true =>
      match extractDataUriParts image_data with
      | Throw => (json 500 [("success", JBool false)], db)
      | Ok None =>
          (json 400 [("success", JBool false);
                     ("error", JStr "INVALID_IMAGE_DATA")], db)
      | Ok (Some (mime, base64)) =>
          let ext := if includes "png" mime then "png" else "jpg" in
          let objectPath := k +:+ "/" +:+ b +:+ "-" +:+ pretty now +:+ "." +:+ ext in
          match upload objectPath with
          | UploadFailed =>
              (json 500 [("success", JBool false);
                         ("error", JStr "UPLOAD_FAILED")], db)
          | UploadThrows => (json 500 [("success", JBool false)], db)
          | UploadDone =>
              match str_truthy (public_url objectPath) with
              | None =>
                  (json 500 [("success", JBool false);
                             ("error", JStr "PUBLIC_URL_FAILED")], db)
              | Some publicUrl =>
                  (json 200 [("success", JBool true);
                             ("evidence_url", JStr publicUrl)],
                   with_bans db
                     (update_where
                        (fun r => bool_decide (ban_license_key r = k)
                                  && bool_decide (ban_ban_id r = b))
                        (set_evidence_url publicUrl) (bans db)))
              end
          end
      end
  | _, _, _ =>
      (json 400 [("success", JBool false); ("error", JStr "MISSING_FIELDS")], db)
  end.

(** ** POST /api/server/ban/check *)

(** What the call of the store's [find_active_ban] gives: data with no
    error, an error, or a rejected promise. *)
Inductive RpcOutcome : Type :=
| RpcData (data : jsval)
| RpcError
| RpcThrows.

(** [rpc license_key identifiers] is the answer of the store. *)
Definition server_ban_check `{Runtime} (rpc : string -> list string -> RpcOutcome)
  (license_key : option string) (identifiers : jsval) : Reply :=
  match str_truthy license_key, Array_isArray identifiers with
  | Some k, true =>
      match normalizeIdentifiers identifiers with
      | Throw => json 500 [("success", JBool false)]
      | Ok identifierArray =>
          match rpc k identifierArray with
          | RpcError =>
              json 500 [("success", JBool false); ("error", JStr "DB_ERROR")]
          | RpcThrows => json 500 [("success", JBool false)]
          | RpcData data =>
              let ban :=
                match data with
                | JArr (first :: _) => first
                | JArr [] => JUndefined
                | _ => JNull
                end in
              json 200 [("success", JBool true); ("banned", JBool (truthy ban));
                        ("ban", js_or ban JNull)]
          end
      end
  | _, _ => json 400 [("success", JBool false); ("error", JStr "MISSING_FIELDS")]
  end.

(** The unit of a duration, in milliseconds. *)
Definition unit_ms (u : ascii) : Z :=
  if bool_decide (u = "m"%char) then 60000
  else if bool_decide (u = "h"%char) then 3600000
  else 86400000.

(** The bytes a lower-case hexadecimal text spells. *)
Definition lower_hex_value (c : ascii) : N :=
  let n := N_of_ascii c in if (n <? 58)%N then (n - 48)%N else (n - 87)%N.

Fixpoint bytes_of_hex (cs : list ascii) : option (list byte) :=
  match cs with
  | [] => Some []
  | hi :: lo :: rest =>
      b ← Byte.of_N (16 * lower_hex_value hi + lower_hex_value lo);
      bs ← bytes_of_hex rest;
      Some (b :: bs)
  | [_] => None
  end.

(** What a verify call may change of a license row. *)
Definition kept_by_verify (l l' : License) : Prop :=
  lic_id l' = lic_id l /\ lic_license_key l' = lic_license_key l
  /\ lic_status l' = lic_status l /\ lic_expires_at l' = lic_expires_at l
  /\ (~ unbound l -> lic_hwid l' = lic_hwid l).


(** The two lower-case hexadecimal digits that spell a byte. *)
Definition lower_hi (b : byte) : ascii := hex_digit (Byte.to_N b / 16).
Definition lower_lo (b : byte) : ascii := hex_digit (Byte.to_N b mod 16).
(** ** Sample data *)

Definition sample_action (n : nat) : Action :=
  mkAction ("ACT-" +:+ pretty n) "kick" (JObj []) (Z.of_nat n).

(** The text of U+00A0 (no-break space). *)
Definition no_break_space : string :=
  String (ascii_of_N 194) (String (ascii_of_N 160) EmptyString).

(** The text of U+2028 (line separator). *)
Definition line_separator : string :=
  String (ascii_of_N 226) (String (ascii_of_N 128) (String (ascii_of_N 168) EmptyString)).

Definition sample_log (n : nat) : LogEvent :=
  mkLogEvent (JStr ("LOG-" +:+ pretty n)) (JNum (Z.of_nat n)) (JStr "info")
    (JStr "log") (JStr "Server") (JStr "tick") JNull.

(** A host clock one hour ahead of UTC that moves to two hours ahead at
    2024-03-31T01:00:00Z. *)
Definition sample_offset (t : Z) (isUTC : bool) : Z :=
  let switch := if isUTC then 1711846800000 else 1711846800000 + 3600000 in
  if (t <? switch)%Z then 3600000 else 7200000.

Definition sample_runtime : Runtime :=
  {| sha256 := fun s => "sha256:" +:+ s;
     hmac_sha256_hex := fun key msg => "hmac:" +:+ key +:+ ":" +:+ msg;
     JSON_stringify := fun a => "{" +:+ as_license_key a +:+ "," +:+ as_status a +:+ "}";
     Date_parse := parseInt10;
     StringToNumber := parseInt10;
     Number_toString := pretty;
     LocalTZA := sample_offset |}.

Definition sample_license (hwid : option string) : License :=
  mkLicense "lic-1" "GG-A1B2-C3D4" "ACTIVE" (Some 2000000000000) hwid None.

Definition sample_customer : Customer :=
  mkCustomer "cust-1" "owner" "sha256:pw" "GG-A1B2-C3D4".

Definition sample_admin (active : bool) : PanelAdmin :=
  mkPanelAdmin "adm-1" "GG-A1B2-C3D4" "mod" "admin" active "sha256:invite-1".

Definition sample_ban (license_key : string) : Ban :=
  mkBan license_key (JStr "steam:110000100000001") (JStr "No reason") (JStr "P")
    "GG-1700000000000" 1700000000000 None (JStr "GhostGuard") JNull [].

Definition sample_db (hwid : option string) (admin_active : bool) (ban_key : string) : DB :=
  mkDB [sample_license hwid] [sample_customer] [sample_admin admin_active]
    [sample_ban ban_key].


Definition sample_request_ban : BanRequest :=
  mkBanRequest (Some "GG-A1B2-C3D4") (JStr "steam:110000100000002") JUndefined
    (JStr "3d") (Some "GG-BAN-7") JUndefined JUndefined
    (JArr [JStr " steam:110000100000002 "; JStr "ip:10.0.0.7"; JStr "";
           JStr "steam:110000100000002"])
    JUndefined JUndefined.
(** * Properties *)

Module QueueFacts.
Import Queue.

Lemma queue_of_push q k a :
  queue_of (pushAction q k a) k = trim (queue_of q k ++ [a]).
Proof. unfold pushAction, queue_of. by rewrite lookup_insert_eq. Qed.

Lemma queue_of_push_ne q k k' a :
  k <> k' -> queue_of (pushAction q k a) k' = queue_of q k'.
Proof. intros Hne. unfold pushAction, queue_of. by rewrite lookup_insert_ne. Qed.

Lemma push_all_app q k xs ys :
  push_all q k (xs ++ ys) = push_all (push_all q k xs) k ys.
Proof. unfold push_all. by rewrite foldl_app. Qed.

Lemma push_trace_app q k xs ys :
  push_trace q k (xs ++ ys) = push_trace q k xs ++ push_trace (push_all q k xs) k ys.
Proof.
  revert q. induction xs as [|x xs IH]; intros q; simpl; [done|].
  by rewrite IH.
Qed.

(** Below the bound, pushes only append. *)
Lemma push_all_below q k xs :
  (length (queue_of q k) + length xs <= 200)%nat ->
  queue_of (push_all q k xs) k = queue_of q k ++ xs
  /\ push_trace q k xs = replicate (length xs) false.
Proof.
  revert q. induction xs as [|x xs IH]; intros q Hlen; simpl in *.
  - by rewrite app_nil_r.
  - assert (Hq : queue_of (pushAction q k x) k = queue_of q k ++ [x]).
    { rewrite queue_of_push. unfold trim.
      case_decide as Hd; [|done]. rewrite length_app in Hd. simpl in Hd. lia. }
    destruct (IH (pushAction q k x)) as [IH1 IH2].
    { rewrite Hq, length_app. simpl. lia. }
    split.
    + unfold push_all in *. simpl. rewrite IH1, Hq. by rewrite <- app_assoc.
    + rewrite IH2. f_equal. unfold trims.
      apply bool_decide_eq_false. rewrite length_app. simpl. lia.
Qed.

(** One push onto a queue of exactly 200 entries takes the [splice] branch. *)
Lemma push_at_bound q k a :
  length (queue_of q k) = 200%nat ->
  queue_of (pushAction q k a) k = drop 50 (queue_of q k ++ [a])
  /\ trims q k a = true.
Proof.
  intros Hlen. rewrite queue_of_push. unfold trim, trims.
  assert (200 < length (queue_of q k ++ [a]))%nat
    by (rewrite length_app; simpl; lia).
  split; [by rewrite decide_True | by apply bool_decide_eq_true].
Qed.

Lemma drain_returns_all q k :
  fst (drain q k) = queue_of q k /\ queue_of (snd (drain q k)) k = [].
Proof. unfold drain, queue_of. simpl. by rewrite lookup_insert_eq. Qed.

(** The 210-push scenario, for a queue that starts empty. *)
Lemma push_210 q k cmds :
  queue_of q k = [] -> length cmds = 210%nat ->
  queue_of (push_all q k cmds) k = drop 50 cmds
  /\ push_trace q k cmds = replicate 200 false ++ [true] ++ replicate 9 false.
Proof.
  intros Hq Hlen.
  assert (Hc : cmds = take 200 cmds ++ drop 200 cmds) by (symmetry; apply take_drop).
  assert (Hl1 : length (take 200 cmds) = 200%nat) by (rewrite length_take; lia).
  assert (Hl2 : length (drop 200 cmds) = 10%nat) by (rewrite length_drop; lia).
  destruct (drop 200 cmds) as [|c0 xs2]; [done|]. simpl in Hl2.
  revert Hc Hl1. generalize (take 200 cmds). intros xs1 -> Hl1. clear Hlen.
  destruct (push_all_below q k xs1) as [A1 A2]; [rewrite Hq; simpl; lia|].
  rewrite Hq in A1. simpl in A1.
  destruct (push_at_bound (push_all q k xs1) k c0) as [B1 B2]; [by rewrite A1|].
  rewrite A1 in B1.
  destruct (push_all_below (pushAction (push_all q k xs1) k c0) k xs2) as [C1 C2].
  { rewrite B1, length_drop, length_app. simpl. lia. }
  split.
  - rewrite push_all_app. change (push_all (push_all q k xs1) k (c0 :: xs2))
      with (push_all (pushAction (push_all q k xs1) k c0) k xs2).
    rewrite C1, B1.
    change (c0 :: xs2) with ([c0] ++ xs2). rewrite app_assoc.
    rewrite (drop_app_le (xs1 ++ [c0])); [done|].
    rewrite length_app. simpl. lia.
  - rewrite push_trace_app. simpl. rewrite A2, B2, C2, Hl1.
    by replace (length xs2) with 9%nat by lia.
Qed.

End QueueFacts.

(** C2. For every tenant whose queue is empty, pushing 210 commands and then
    draining yields exactly 160 commands, namely the pushed ones without the
    50 oldest and in their original order; the 50-entry trim fires at the
    201st push and at no other; a drain returns the whole queue and leaves it
    empty; a command pushed right after a drain is what the next drain
    returns, and the drain after that returns nothing. *)
Theorem command_queue_210_then_drain
  (q : gmap string (list Action)) (k : string) (cmds : list Action) (c : Action) :
  Queue.queue_of q k = [] -> length cmds = 210%nat ->
  fst (Queue.drain (Queue.push_all q k cmds) k) = drop 50 cmds
  /\ length (fst (Queue.drain (Queue.push_all q k cmds) k)) = 160%nat
  /\ Queue.push_trace q k cmds = replicate 200 false ++ [true] ++ replicate 9 false
  /\ (forall q' k',
        fst (Queue.drain q' k') = Queue.queue_of q' k'
        /\ Queue.queue_of (snd (Queue.drain q' k')) k' = [])
  /\ (forall q' k',
        let q1 := snd (Queue.drain q' k') in
        let q2 := Queue.pushAction q1 k' c in
        fst (Queue.drain q' k') = Queue.queue_of q' k'
        /\ fst (Queue.drain q2 k') = [c]
        /\ fst (Queue.drain (snd (Queue.drain q2 k')) k') = []).
Proof.
  intros Hq Hlen.
  destruct (QueueFacts.push_210 q k cmds Hq Hlen) as [H1 H2].
  assert (Hd : fst (Queue.drain (Queue.push_all q k cmds) k) = drop 50 cmds)
    by (rewrite (proj1 (QueueFacts.drain_returns_all _ _)); exact H1).
  split; [exact Hd|]. split; [rewrite Hd, length_drop; lia|].
  split; [exact H2|]. split; [intros; apply QueueFacts.drain_returns_all|].
  intros q' k' q1 q2.
  destruct (QueueFacts.drain_returns_all q' k') as [D1 D2].
  split; [exact D1|].
  assert (Hq2 : Queue.queue_of q2 k' = [c]).
  { unfold q2. rewrite QueueFacts.queue_of_push. unfold q1. rewrite D2.
    reflexivity. }
  split.
  - by rewrite (proj1 (QueueFacts.drain_returns_all _ _)).
  - rewrite (proj1 (QueueFacts.drain_returns_all _ _)).
    apply QueueFacts.drain_returns_all.
Qed.


Lemma command_queue_210_then_drain_witness :
  Queue.queue_of (∅ : gmap string (list Action)) "GG-A1B2-C3D4" = []
  /\ length (map sample_action (seq 0 210)) = 210%nat
  /\ fst (Queue.drain
            (Queue.push_all ∅ "GG-A1B2-C3D4" (map sample_action (seq 0 210)))
            "GG-A1B2-C3D4")
     = drop 50 (map sample_action (seq 0 210)).
Proof.
  split; [reflexivity|]. split; [reflexivity|].
  refine (proj1 (command_queue_210_then_drain ∅ "GG-A1B2-C3D4"
                   (map sample_action (seq 0 210)) (sample_action 0) _ _));
    reflexivity.
Defined.

Module LogsFacts.
Import Logs.

Lemma push_ok m k e :
  inherited k = false ->
  pushServerLog m k e = Ok (<[k := truncate (e :: buffer_of m k)]> m).
Proof. intros Hk. unfold pushServerLog. by rewrite Hk. Qed.

Lemma push_throws m k e : inherited k = true -> pushServerLog m k e = Throw.
Proof. intros Hk. unfold pushServerLog. by rewrite Hk. Qed.

Lemma buffer_of_insert (m : gmap string (list LogEvent)) k b :
  buffer_of (<[k := b]> m) k = b.
Proof. unfold buffer_of. by rewrite lookup_insert_eq. Qed.

Lemma buffer_of_insert_ne (m : gmap string (list LogEvent)) k k' b :
  k <> k' -> buffer_of (<[k := b]> m) k' = buffer_of m k'.
Proof. intros Hne. unfold buffer_of. by rewrite lookup_insert_ne. Qed.

Lemma truncate_take b : truncate b = take 300 b.
Proof.
  unfold truncate. case_decide; [done|]. symmetry. apply take_ge. lia.
Qed.

Lemma truncate_length b : (length (truncate b) <= 300)%nat.
Proof. rewrite truncate_take, length_take. lia. Qed.

Lemma take_app_take {A} n (l l' : list A) :
  take n (l ++ take n l') = take n (l ++ l').
Proof. rewrite !take_app, take_take. f_equal. f_equal. lia. Qed.

Lemma ingest_all_cons m k x xs :
  ingest_all m k (x :: xs)
  = (m' <- pushServerLog m k x ;; ingest_all m' k xs).
Proof.
  unfold ingest_all. simpl. destruct (pushServerLog m k x) as [m'|]; [done|].
  simpl. induction xs as [|y ys IH]; [done|apply IH].
Qed.

(** The buffer after a run of pushes: the new items, newest first, in front
    of the old ones, cut at 300; the other buffers are as they were. *)
Lemma ingest_all_buffer m k items :
  inherited k = false ->
  exists m',
    ingest_all m k items = Ok m'
    /\ buffer_of m' k
       = match items with
         | [] => buffer_of m k
         | _ => take 300 (rev items ++ buffer_of m k)
         end
    /\ (forall k', k <> k' -> buffer_of m' k' = buffer_of m k').
Proof.
  intros Hk. revert m. induction items as [|x xs IH]; intros m.
  { exists m. by repeat split. }
  rewrite ingest_all_cons, (push_ok _ _ _ Hk). simpl.
  destruct (IH (<[k := truncate (x :: buffer_of m k)]> m)) as (m' & Hrun & Hbuf & Hother).
  exists m'. split; [exact Hrun|]. split.
  - rewrite Hbuf, buffer_of_insert, truncate_take.
    destruct xs as [|y ys]; [done|].
    rewrite take_app_take. simpl. by rewrite <- !app_assoc.
  - intros k' Hne. rewrite (Hother k' Hne). by apply buffer_of_insert_ne.
Qed.

Lemma ingest_all_throws m k x xs :
  inherited k = true -> ingest_all m k (x :: xs) = Throw.
Proof. intros Hk. by rewrite ingest_all_cons, (push_throws _ _ _ Hk). Qed.

End LogsFacts.


(** C8. Under a license key that is a name every object inherits from its
    prototype (such as [constructor]), one log event is not buffered: the
    push throws, so does any run of pushes, and the ingestion handler
    answers 500 and leaves the map of buffers as it was.  The buffer of such
    a tenant never holds the 300 newest of 310 events. *)
Theorem log_ingest_throws_under_inherited_key
  (m : gmap string (list LogEvent)) (k : string) :
  inherited k = true ->
  (forall e, Logs.pushServerLog m k e = Throw)
  /\ (forall items, items <> [] -> Logs.ingest_all m k items = Throw)
  /\ (forall t_id t_time rnd level type title message meta persist,
        truthy message = true ->
        server_log m t_id t_time rnd (Some k) level type title message meta persist
        = (json 500 [("success", JBool false)], m)).
Proof.
  intros Hk. split; [intros e; by apply LogsFacts.push_throws|]. split.
  - intros [|x xs] Hne; [done|]. by apply LogsFacts.ingest_all_throws.
  - intros t_id t_time rnd level type title message meta persist Hmsg.
    unfold server_log. simpl str_truthy.
    destruct (String.eqb_spec k "") as [->|_]; [done|].
    by rewrite Hmsg, LogsFacts.push_throws.
Qed.

Lemma log_ingest_throws_under_inherited_key_witness :
  inherited "constructor" = true
  /\ Logs.ingest_all ∅ "constructor" (map sample_log (seq 0 310)) = Throw
  /\ server_log ∅ 1700000000000 1700000000000 42 (Some "constructor")
       JUndefined JUndefined JUndefined (JStr "tick") JUndefined WriteDone
     = (json 500 [("success", JBool false)], ∅).
Proof.
  split; [reflexivity|].
  pose proof (log_ingest_throws_under_inherited_key ∅ "constructor" eq_refl)
    as (_ & Hrun & Hlog).
  split; [by apply Hrun|by apply Hlog].
Defined.

(** ** Selecting rows *)

Module StoreFacts.

Lemma single_Some {A} (rows : list A) r : single rows = Some r <-> rows = [r].
Proof.
  destruct rows as [|a [|b rest]]; simpl; split; intros E; try done.
  - by inversion E.
  - by inversion E.
Qed.

Lemma filter_none {A} (P : A -> Prop) `{!forall a, Decision (P a)} (l : list A) :
  (forall y, y ∈ l -> ~ P y) -> filter P l = [].
Proof.
  induction l as [|a l IH]; intros Hno; [done|].
  rewrite filter_cons_False by (apply Hno; apply list_elem_of_here).
  apply IH. intros y Hy. apply Hno. by apply list_elem_of_further.
Qed.

Lemma elem_of_map {A B} (f : A -> B) (l : list A) (x : A) : x ∈ l -> f x ∈ map f l.
Proof. rewrite !list_elem_of_In. apply in_map. Qed.

(** With a key that identifies rows, a selection that holds of the row [x]
    and only of rows with its key selects exactly [x]. *)
Lemma filter_unique {A B} (f : A -> B) (P : A -> Prop) `{!forall a, Decision (P a)}
  (l : list A) (x : A) :
  NoDup (map f l) -> x ∈ l -> P x ->
  (forall y, y ∈ l -> P y -> f y = f x) ->
  filter P l = [x].
Proof.
  induction l as [|a l IH]; intros Hnd Hin HP Hkey; [by apply elem_of_nil in Hin|].
  simpl in Hnd. apply NoDup_cons in Hnd as [Hfa Hnd].
  apply elem_of_cons in Hin as [->|Hin].
  - rewrite filter_cons_True by done. f_equal.
    apply filter_none. intros y Hy HPy. apply Hfa.
    rewrite <- (Hkey y); [by apply elem_of_map | by apply list_elem_of_further | done].
  - rewrite filter_cons_False.
    + apply IH; try done. intros y Hy. apply Hkey. by apply list_elem_of_further.
    + intros HPa. apply Hfa.
      rewrite (Hkey a); [by apply elem_of_map | apply list_elem_of_here | done].
Qed.

(** An update that does not change what the filter looks at commutes with
    the selection. *)
Lemma filter_update_where {A} (P : A -> Prop) `{!forall a, Decision (P a)}
  (sel : A -> bool) (g : A -> A) (l : list A) :
  (forall r, P (g r) <-> P r) ->
  filter P (update_where sel g l) = update_where sel g (filter P l).
Proof.
  intros Hg. induction l as [|a l IH]; [done|].
  unfold update_where in *. simpl.
  destruct (decide (P a)) as [Ha|Ha].
  - rewrite (filter_cons_True P a) by done. simpl.
    rewrite filter_cons_True; [by rewrite IH|].
    destruct (sel a); [by apply Hg | done].
  - rewrite (filter_cons_False P a) by done.
    rewrite filter_cons_False; [exact IH|].
    destruct (sel a); [by rewrite Hg | done].
Qed.

Lemma update_where_length {A} (sel : A -> bool) (g : A -> A) (l : list A) :
  length (update_where sel g l) = length l.
Proof. unfold update_where. by rewrite length_map. Qed.

Lemma ban_by_id_unique (db : DB) (banId : string) (b : Ban) :
  NoDup (map ban_ban_id (bans db)) -> b ∈ bans db -> ban_ban_id b = banId ->
  ban_by_id db banId = Some b.
Proof.
  intros Hnd Hin Hid. unfold ban_by_id. apply single_Some.
  apply (filter_unique ban_ban_id); try done. intros y _ Hy. congruence.
Qed.

Lemma license_by_key_unique (db : DB) (k : string) (l : License) :
  NoDup (map lic_license_key (licenses db)) -> l ∈ licenses db ->
  lic_license_key l = k -> license_by_key db k = Some l.
Proof.
  intros Hnd Hin Hid. unfold license_by_key. apply single_Some.
  apply (filter_unique lic_license_key); try done. intros y _ Hy. congruence.
Qed.

Lemma str_truthy_Some (s : string) : s <> "" -> str_truthy (Some s) = Some s.
Proof.
  intros Hs. simpl. destruct (String.eqb_spec s ""); [done | reflexivity].
Qed.

Lemma str_truthy_inv (o : option string) (s : string) :
  str_truthy o = Some s -> o = Some s /\ s <> "".
Proof.
  destruct o as [x|]; simpl; [|done].
  destruct (String.eqb_spec x ""); [done|]. intros [= ->]. done.
Qed.

End StoreFacts.

(** ** Identity resolution *)

(** C4. Resolution follows a fixed order.  A missing or empty token gives no
    identity and sends no query.  Otherwise a token that is the id of a
    stored customer (ids identify customers) gives the customer identity
    with that record's license key, after the customer query alone.
    Otherwise a token whose digest is the token hash of a stored admin
    record with [active = true] (token hashes identify admins) gives the
    admin identity with that record's license key.  A token that is no
    customer id and whose digest matches inactive admin records only gives
    no identity. *)
Theorem resolve_identity_fixed_order `{Runtime} (db : DB) :
  resolvePanelIdentity db None = (None, [])
  /\ resolvePanelIdentity db (Some "") = (None, [])
  /\ (forall (t : string) (c : Customer),
        t <> "" -> NoDup (map cust_id (customers db)) ->
        c ∈ customers db -> cust_id c = t ->
        resolvePanelIdentity db (Some t)
        = (Some (IdCustomer (cust_license_key c) c), [QCustomerById t]))
  /\ (forall (t : string) (a : PanelAdmin),
        t <> "" -> (forall c, c ∈ customers db -> cust_id c <> t) ->
        NoDup (map pa_token_hash (panel_admins db)) ->
        a ∈ panel_admins db -> pa_token_hash a = sha256 t -> pa_active a = true ->
        resolvePanelIdentity db (Some t)
        = (Some (IdAdmin (pa_license_key a) a),
           [QCustomerById t; QActiveAdminByHash (sha256 t)]))
  /\ (forall (t : string),
        t <> "" -> (forall c, c ∈ customers db -> cust_id c <> t) ->
        (forall a, a ∈ panel_admins db -> pa_token_hash a = sha256 t ->
                   pa_active a = false) ->
        fst (resolvePanelIdentity db (Some t)) = None).
Proof.
  split; [reflexivity|]. split; [reflexivity|]. split; [|split].
  - intros t c Ht Hnd Hin Hid. unfold resolvePanelIdentity.
    rewrite StoreFacts.str_truthy_Some by done.
    assert (Hc : customer_by_id db t = Some c).
    { unfold customer_by_id. apply StoreFacts.single_Some.
      apply (StoreFacts.filter_unique cust_id); try done. intros y _ Hy. congruence. }
    by rewrite Hc.
  - intros t a Ht Hno Hnd Hin Hhash Hact. unfold resolvePanelIdentity.
    rewrite StoreFacts.str_truthy_Some by done.
    assert (Hc : customer_by_id db t = None).
    { unfold customer_by_id. by rewrite StoreFacts.filter_none. }
    assert (Ha : active_admin_by_hash db (sha256 t) = Some a).
    { unfold active_admin_by_hash. apply StoreFacts.single_Some.
      apply (StoreFacts.filter_unique pa_token_hash); try done.
      intros y _ [Hy _]. congruence. }
    by rewrite Hc, Ha.
  - intros t Ht Hno Hinactive. unfold resolvePanelIdentity.
    rewrite StoreFacts.str_truthy_Some by done.
    assert (Hc : customer_by_id db t = None).
    { unfold customer_by_id. by rewrite StoreFacts.filter_none. }
    assert (Ha : active_admin_by_hash db (sha256 t) = None).
    { unfold active_admin_by_hash. rewrite StoreFacts.filter_none; [done|].
      intros y Hy [Hh Hact]. rewrite (Hinactive y Hy Hh) in Hact. done. }
    by rewrite Hc, Ha.
Qed.

Lemma resolve_identity_fixed_order_witness :
  resolvePanelIdentity (H := sample_runtime) (sample_db None true "GG-A1B2-C3D4")
    (Some "cust-1")
  = (Some (IdCustomer "GG-A1B2-C3D4" sample_customer), [QCustomerById "cust-1"])
  /\ resolvePanelIdentity (H := sample_runtime) (sample_db None true "GG-A1B2-C3D4")
       (Some "invite-1")
     = (Some (IdAdmin "GG-A1B2-C3D4" (sample_admin true)),
        [QCustomerById "invite-1"; QActiveAdminByHash "sha256:invite-1"])
  /\ fst (resolvePanelIdentity (H := sample_runtime)
            (sample_db None false "GG-A1B2-C3D4") (Some "invite-1")) = None.
Proof.
  pose proof (resolve_identity_fixed_order (H := sample_runtime)
                (sample_db None true "GG-A1B2-C3D4")) as (_ & _ & Howner & Hadmin & _).
  pose proof (resolve_identity_fixed_order (H := sample_runtime)
                (sample_db None false "GG-A1B2-C3D4")) as (_ & _ & _ & _ & Hnone).
  split; [|split].
  - apply (Howner "cust-1" sample_customer);
      [discriminate | apply NoDup_singleton | apply list_elem_of_here | reflexivity].
  - apply (Hadmin "invite-1" (sample_admin true));
      [discriminate | | apply NoDup_singleton | apply list_elem_of_here
       | reflexivity | reflexivity].
    intros c Hc. apply list_elem_of_singleton in Hc as ->. discriminate.
  - apply (Hnone "invite-1"); [discriminate | |].
    + intros c Hc. apply list_elem_of_singleton in Hc as ->. discriminate.
    + intros a Ha _. apply list_elem_of_singleton in Ha as ->. reflexivity.
Defined.

(** ** Lifting a ban *)

Module UnbanFacts.

Lemma set_expires_at_ban_id t b : ban_ban_id (set_expires_at t b) = ban_ban_id b.
Proof. reflexivity. Qed.

Lemma lifted_selected t banId rows ban :
  filter (fun b => ban_ban_id b = banId) rows = [ban] ->
  filter (fun b => ban_ban_id b = banId)
    (update_where (fun b => bool_decide (ban_ban_id b = banId)) (set_expires_at t) rows)
  = [set_expires_at t ban].
Proof.
  intros Hsel. rewrite StoreFacts.filter_update_where by done.
  rewrite Hsel. simpl.
  assert (ban ∈ filter (fun b => ban_ban_id b = banId) rows) as Hin
    by (rewrite Hsel; apply list_elem_of_here).
  apply list_elem_of_filter in Hin as [Hid _].
  by rewrite bool_decide_eq_true_2.
Qed.

Lemma lifted_others t banId rows b :
  b ∈ rows -> ban_ban_id b <> banId ->
  b ∈ update_where (fun b => bool_decide (ban_ban_id b = banId)) (set_expires_at t) rows.
Proof.
  intros Hin Hne. unfold update_where.
  pose proof (StoreFacts.elem_of_map
                (fun r => if bool_decide (ban_ban_id r = banId)
                          then set_expires_at t r else r) rows b Hin) as Hmap.
  simpl in Hmap. by rewrite bool_decide_eq_false_2 in Hmap.
Qed.

End UnbanFacts.


(** C10. On the authorized lift path, when the token resolves to an identity
    but no ban record has the given ban id, the reply is
    [{success: false}] with no error code, and the store and every queue are
    as before: no [expires_at] is updated and no command is enqueued. *)
Theorem unban_unknown_ban `{Runtime} (db : DB) (q : gmap string (list Action))
  (t_update t_id t_created : Z) (authorization : option string) (banId : string)
  (identity : Identity) :
  fst (resolvePanelIdentity db (bearer_token authorization)) = Some identity ->
  (forall b, b ∈ bans db -> ban_ban_id b <> banId) ->
  server_unban db q t_update t_id t_created authorization banId
  = (json 200 [("success", JBool false)], db, q).
Proof.
  intros Hwho Hno. unfold server_unban. rewrite Hwho.
  assert (Hb : ban_by_id db banId = None).
  { unfold ban_by_id. by rewrite StoreFacts.filter_none. }
  by rewrite Hb.
Qed.


Lemma unban_unknown_ban_witness :
  fst (resolvePanelIdentity (H := sample_runtime) (sample_db None true "GG-A1B2-C3D4")
         (bearer_token (Some "Bearer invite-1")))
  = Some (IdAdmin "GG-A1B2-C3D4" (sample_admin true))
  /\ server_unban (H := sample_runtime) (sample_db None true "GG-A1B2-C3D4") ∅
       1700000000100 1700000000101 1700000000102
       (Some "Bearer invite-1") "GG-404"
     = (json 200 [("success", JBool false)], sample_db None true "GG-A1B2-C3D4", ∅).
Proof.
  split; [reflexivity|].
  apply (unban_unknown_ban (H := sample_runtime) (sample_db None true "GG-A1B2-C3D4") ∅
           1700000000100 1700000000101 1700000000102 (Some "Bearer invite-1") "GG-404"
           (IdAdmin "GG-A1B2-C3D4" (sample_admin true)) eq_refl).
  intros b Hb. apply list_elem_of_singleton in Hb as ->. discriminate.
Defined.

(** ** License verification *)

Module VerifyFacts.

Lemma by_key_update (k : string) (sel : License -> bool) (g : License -> License)
  (rows : list License) :
  (forall r, lic_license_key (g r) = lic_license_key r) ->
  filter (fun l => lic_license_key l = k) (update_where sel g rows)
  = update_where sel g (filter (fun l => lic_license_key l = k) rows).
Proof.
  intros Hg. apply StoreFacts.filter_update_where. intros r. by rewrite Hg.
Qed.

(** Past the status and expiry checks, the handler is decided by the two
    device fingerprints. *)
Lemma verify_live `{Runtime} secret db t1 t2 t3 k hwid lic :
  k <> "" -> license_by_key db k = Some lic -> lic_status lic = "ACTIVE" ->
  not_expired_at t1 lic ->
  license_verify secret db t1 t2 t3 (Some k) hwid
  = let by_id := fun l : License => bool_decide (lic_id l = lic_id lic) in
    let finish := fun db1 : DB =>
      let payload :=
        JSON_stringify (mkAssertion k (lic_status lic) (lic_expires_at lic) t3) in
      (json 200 [("valid", JBool true); ("payload", JStr payload);
                 ("signature", JStr (hmac_sha256_hex secret payload))],
       with_licenses db1 (update_where by_id (set_last_seen t2) (licenses db1))) in
    match str_truthy (lic_hwid lic), str_truthy hwid with
    | Some bound, Some h =>
        if decide (bound <> h) then
          (json 200 [("valid", JBool false); ("reason", JStr "HWID_MISMATCH")], db)
        else finish db
    | Some _, None => finish db
    | None, Some h =>
        finish (with_licenses db (update_where by_id (set_hwid h) (licenses db)))
    | None, None => finish db
    end.
Proof.
  intros Hk Hlic Hst Hexp. unfold license_verify.
  rewrite StoreFacts.str_truthy_Some by done. rewrite Hlic.
  rewrite decide_False by (intros Hne; by apply Hne).
  assert (Hnot : match lic_expires_at lic with
                 | Some e => (e <? t1)%Z
                 | None => false
                 end = false).
  { unfold not_expired_at in Hexp. destruct (lic_expires_at lic); [|done].
    apply Z.ltb_ge. lia. }
  rewrite Hnot. reflexivity.
Qed.

End VerifyFacts.

(** C1, as the handler has it.  For a license that is ACTIVE, not expired
    and unbound, a verify call presenting a device fingerprint is reported
    valid and stores that fingerprint on the license; a later verify call on
    that license, made while it is not expired and presenting another
    fingerprint, is answered HWID_MISMATCH and changes nothing.  A call is
    reported valid only for a license that is found, ACTIVE and not expired
    and for which no fingerprint is bound, or none is presented, or the
    presented one is the bound one. *)
Theorem verify_binds_first_hwid `{Runtime} (secret : string) (db : DB)
  (t1 t2 t3 t1' t2' t3' : Z) (k h h' : string) (lic : License) :
  k <> "" -> h <> "" -> h' <> "" -> h' <> h ->
  license_by_key db k = Some lic -> lic_status lic = "ACTIVE" ->
  not_expired_at t1 lic -> not_expired_at t1' lic -> unbound lic ->
  let first := license_verify secret db t1 t2 t3 (Some k) (Some h) in
  let later := license_verify secret (snd first) t1' t2' t3' (Some k) (Some h') in
  reports_valid (fst first) = true
  /\ license_by_key (snd first) k = Some (set_last_seen t2 (set_hwid h lic))
  /\ fst later = json 200 [("valid", JBool false); ("reason", JStr "HWID_MISMATCH")]
  /\ snd later = snd first
  /\ (forall db0 ta tb tc license_key hwid,
        reports_valid (fst (license_verify secret db0 ta tb tc license_key hwid)) = true ->
        exists k0 lic0,
          str_truthy license_key = Some k0
          /\ license_by_key db0 k0 = Some lic0
          /\ lic_status lic0 = "ACTIVE"
          /\ not_expired_at ta lic0
          /\ (unbound lic0 \/ str_truthy hwid = None \/ lic_hwid lic0 = hwid)).
Proof.
  intros Hk Hh Hh' Hne Hlic Hst Hexp Hexp' Hunb first later.
  assert (Hfirst : first =
    (json 200 [("valid", JBool true);
               ("payload", JStr (JSON_stringify
                  (mkAssertion k (lic_status lic) (lic_expires_at lic) t3)));
               ("signature", JStr (hmac_sha256_hex secret (JSON_stringify
                  (mkAssertion k (lic_status lic) (lic_expires_at lic) t3))))],
     with_licenses db
       (update_where (fun l => bool_decide (lic_id l = lic_id lic)) (set_last_seen t2)
          (update_where (fun l => bool_decide (lic_id l = lic_id lic)) (set_hwid h)
             (licenses db))))).
  { unfold first. rewrite (VerifyFacts.verify_live secret db t1 t2 t3 k (Some h) lic)
      by done.
    unfold unbound in Hunb. rewrite Hunb.
    rewrite StoreFacts.str_truthy_Some by done. reflexivity. }
  assert (Hfound : license_by_key (snd first) k = Some (set_last_seen t2 (set_hwid h lic))).
  { rewrite Hfirst. unfold license_by_key in *. simpl.
    apply StoreFacts.single_Some in Hlic. apply StoreFacts.single_Some.
    rewrite !VerifyFacts.by_key_update by done. rewrite Hlic. simpl.
    rewrite (bool_decide_eq_true_2 (lic_id lic = lic_id lic)) by done. simpl.
    by rewrite bool_decide_eq_true_2. }
  assert (Hlater : later =
    (json 200 [("valid", JBool false); ("reason", JStr "HWID_MISMATCH")], snd first)).
  { unfold later.
    rewrite (VerifyFacts.verify_live secret (snd first) t1' t2' t3' k (Some h')
               (set_last_seen t2 (set_hwid h lic))); try done.
    simpl lic_hwid.
    rewrite !StoreFacts.str_truthy_Some by done.
    rewrite decide_True by congruence. reflexivity. }
  split; [by rewrite Hfirst|]. split; [exact Hfound|].
  split; [by rewrite Hlater|]. split; [by rewrite Hlater|].
  clear. intros db0 ta tb tc license_key hwid. unfold license_verify.
  destruct (str_truthy license_key) as [k0|] eqn:Hk0; [|done].
  destruct (license_by_key db0 k0) as [lic0|] eqn:Hl0; [|done].
  destruct (decide (lic_status lic0 <> "ACTIVE")) as [|Hst]; [done|].
  destruct (match lic_expires_at lic0 with
            | Some e => (e <? ta)%Z
            | None => false
            end) eqn:Hexp; [done|].
  intros Hvalid. exists k0, lic0.
  split; [done|]. split; [done|].
  split; [by destruct (decide (lic_status lic0 = "ACTIVE")); [|exfalso; auto]|].
  split.
  { unfold not_expired_at. destruct (lic_expires_at lic0); [|done].
    apply Z.ltb_ge in Hexp. lia. }
  unfold unbound.
  destruct (str_truthy (lic_hwid lic0)) as [bound|] eqn:Hb; [|by left].
  destruct (str_truthy hwid) as [hw|] eqn:Hw; [|by right; left].
  right; right.
  apply StoreFacts.str_truthy_inv in Hb as [Hb _].
  apply StoreFacts.str_truthy_inv in Hw as [Hw _].
  destruct (decide (bound <> hw)) as [Hd|Hd]; [done|].
  rewrite Hb, Hw. f_equal. by destruct (decide (bound = hw)); [|exfalso; auto].
Qed.

Lemma verify_binds_first_hwid_witness :
  license_by_key (sample_db None true "GG-A1B2-C3D4") "GG-A1B2-C3D4"
  = Some (sample_license None)
  /\ not_expired_at 1700000000000 (sample_license None)
  /\ unbound (sample_license None)
  /\ fst (license_verify (H := sample_runtime) "change_me"
            (snd (license_verify (H := sample_runtime) "change_me"
                    (sample_db None true "GG-A1B2-C3D4")
                    1700000000000 1700000000001 1700000000002
                    (Some "GG-A1B2-C3D4") (Some "PC-1")))
            1700000000500 1700000000501 1700000000502
            (Some "GG-A1B2-C3D4") (Some "PC-2"))
     = json 200 [("valid", JBool false); ("reason", JStr "HWID_MISMATCH")].
Proof.
  split; [reflexivity|]. split; [vm_compute; discriminate|]. split; [reflexivity|].
  refine (proj1 (proj2 (proj2
    (verify_binds_first_hwid (H := sample_runtime) "change_me"
       (sample_db None true "GG-A1B2-C3D4")
       1700000000000 1700000000001 1700000000002
       1700000000500 1700000000501 1700000000502
       "GG-A1B2-C3D4" "PC-1" "PC-2" (sample_license None)
       _ _ _ _ _ _ _ _ _))));
    try discriminate; try reflexivity; vm_compute; discriminate.
Defined.

(** Validity does not require the bound fingerprint to be presented: a
    license with a bound fingerprint is reported valid to a call that
    presents none. *)
Lemma verify_valid_without_presented_hwid :
  ~ (forall (RT : Runtime) (secret : string) (db : DB) (t1 t2 t3 : Z)
            (k : string) (hwid : option string) (lic : License),
        license_by_key db k = Some lic ->
        reports_valid (fst (license_verify secret db t1 t2 t3 (Some k) hwid)) = true ->
        lic_hwid lic = None \/ lic_hwid lic = hwid).
Proof.
  intros Hclaim.
  destruct (Hclaim sample_runtime "change_me" (sample_db (Some "PC-1") true "GG-A1B2-C3D4")
              1700000000000 1700000000001 1700000000002 "GG-A1B2-C3D4" None
              (sample_license (Some "PC-1")) eq_refl eq_refl) as [E|E];
    discriminate E.
Qed.

(** ** Ban durations *)

Module DurationFacts.

Lemma js_or_idem (d p : jsval) : js_or (js_or d p) p = js_or d p.
Proof.
  unfold js_or. destruct (truthy d) eqn:Hd; [by rewrite Hd|].
  by destruct (truthy p).
Qed.

Lemma normalize_duration_default `{Runtime} (d : jsval) :
  normalize_duration (js_or d (JStr "P")) = normalize_duration d.
Proof. unfold normalize_duration. by rewrite js_or_idem. Qed.

(** The matcher accepts only texts of the duration shape. *)
Lemma match_duration_shaped (raw : string) ds u :
  match_duration raw = Some (ds, u) -> duration_shaped raw.
Proof.
  unfold match_duration.
  destruct (rev (list_ascii_of_string raw)) as [|c ds_rev] eqn:E; [done|].
  destruct ((bool_decide (c = "m"%char) || bool_decide (c = "h"%char)
             || bool_decide (c = "d"%char))
            && negb (bool_decide (ds_rev = []))
            && forallb is_digit ds_rev) eqn:C; [|done].
  intros [= <- <-].
  apply andb_true_iff in C as [C Hdig]. apply andb_true_iff in C as [Hunit Hne].
  exists (rev ds_rev), c. split; [|split; [|split]].
  - rewrite <- (string_of_list_ascii_of_string raw). f_equal.
    rewrite <- (rev_involutive (list_ascii_of_string raw)), E. reflexivity.
  - intros Hnil. apply negb_true_iff, bool_decide_eq_false in Hne. apply Hne.
    rewrite <- (rev_involutive ds_rev), Hnil. reflexivity.
  - apply Forall_forall. intros x Hx.
    rewrite forallb_forall in Hdig. apply Hdig.
    apply list_elem_of_In in Hx. by apply in_rev.
  - repeat (apply orb_true_iff in Hunit as [Hunit|Hunit]);
      apply bool_decide_eq_true in Hunit; auto.
Qed.

Lemma not_explicit `{Runtime} now d e :
  truthy e = false ->
  computeExpiresAt now d e = (raw <- normalize_duration d ;; expiry_of_text now raw).
Proof. intros He. unfold computeExpiresAt. by rewrite He. Qed.

Lemma normalize_text `{Runtime} (s : string) :
  s <> "" -> normalize_duration (JStr s) = Ok (toLowerCase (js_trim s)).
Proof.
  intros Hs. unfold normalize_duration, js_or. simpl.
  by destruct (String.eqb_spec s "").
Qed.

Lemma normalize_falsy `{Runtime} (d : jsval) :
  truthy d = false -> normalize_duration d = Ok "p".
Proof. intros Hd. unfold normalize_duration, js_or. by rewrite Hd. Qed.

Lemma permanent_text `{Runtime} now d e raw :
  truthy e = false -> normalize_duration d = Ok raw ->
  raw = "p" \/ raw = "perm" \/ raw = "permanent" ->
  computeExpiresAt now d e = Ok None.
Proof.
  intros He Hd Hraw. rewrite not_explicit, Hd by done. simpl.
  destruct Hraw as [-> | [-> | ->]]; reflexivity.
Qed.

Lemma malformed_text `{Runtime} now d e raw :
  truthy e = false -> normalize_duration d = Ok raw -> ~ duration_shaped raw ->
  computeExpiresAt now d e = Ok None.
Proof.
  intros He Hd Hbad. rewrite not_explicit, Hd by done. simpl. unfold expiry_of_text.
  destruct (bool_decide _ || bool_decide _ || bool_decide _); [done|].
  destruct (match_duration raw) as [[ds u]|] eqn:Hm; [|done].
  exfalso. apply Hbad. by apply (match_duration_shaped _ ds u).
Qed.

Lemma two_hours_text `{Runtime} now d :
  0 <= now <= maxTime - 7200000 ->
  normalize_duration d = Ok "2h" ->
  computeExpiresAt now d JUndefined = Ok (Some (now + 2 * 3600000)).
Proof.
  intros Hnow Hd. rewrite not_explicit, Hd by done. simpl. unfold expiry_of_text.
  change (bool_decide ("2h" = "p") || bool_decide ("2h" = "perm")
          || bool_decide ("2h" = "permanent")) with false.
  change (match_duration "2h") with (Some (["2"%char], "h"%char)).
  cbv beta iota.
  change (digits_value ["2"%char]) with 2.
  change (bool_decide ("h"%char = "m"%char)) with false.
  change (bool_decide ("h"%char = "h"%char)) with true.
  cbv iota. unfold TimeClip.
  replace (Z.abs (now + 2 * 3600000) <=? maxTime) with true; [done|].
  symmetry. apply Z.leb_le. unfold maxTime in *. lia.
Qed.

End DurationFacts.

(** C6. When a ban is created with an [expires_at] that is absent or falsy:
    the duration "2h" gives [now] plus two hours, also with white space
    around it (the no-break space included); "P", "perm" and "permanent" in
    any letter case, an absent duration, and every text that is not digits
    followed by m, h or d, such as "garbage", give [null] and never an
    error; a duration whose conversion to text throws is an error.  A truthy
    [expires_at] decides the result whatever the duration is: a non-zero
    number or a text that parses gives that date, a text that does not parse
    is an error.  A falsy [expires_at] (such as 0 or the empty text) is as
    good as none.  The ban handler stores what [computeExpiresAt] gives for
    the request's duration and [expires_at]. *)
Theorem ban_duration_parsing `{Runtime} (now : Z) :
  0 <= now <= maxTime - 7200000 ->
  computeExpiresAt now (JStr "2h") JUndefined = Ok (Some (now + 2 * 3600000))
  /\ computeExpiresAt now (JStr (" 2H" +:+ no_break_space)) JUndefined
     = Ok (Some (now + 2 * 3600000))
  /\ Forall (fun d => computeExpiresAt now (JStr d) JUndefined = Ok None)
       ["P"; "p"; "perm"; "Perm"; "PERM"; "permanent"; "Permanent"; "PERMANENT";
        " permanent "; "garbage"; "2 h"; "h"; "2"; "2hh"; "-2h"; "2w"]
  /\ (forall s, exists raw,
        normalize_duration (JStr s) = Ok raw
        /\ raw = toLowerCase (js_trim (if String.eqb s "" then "P" else s)))
  /\ (forall d, truthy d = false -> normalize_duration d = Ok "p")
  /\ (forall d e raw, truthy e = false -> normalize_duration d = Ok raw ->
        raw = "p" \/ raw = "perm" \/ raw = "permanent" ->
        computeExpiresAt now d e = Ok None)
  /\ (forall d e raw, truthy e = false -> normalize_duration d = Ok raw ->
        ~ duration_shaped raw ->
        computeExpiresAt now d e = Ok None)
  /\ (forall d e, truthy e = false -> normalize_duration d = Throw ->
        computeExpiresAt now d e = Throw)
  /\ computeExpiresAt now (JObj [("toString", JStr "2h")]) JUndefined = Throw
  /\ computeExpiresAt now (JArr [JStr "2h"]) JUndefined = Ok (Some (now + 2 * 3600000))
  /\ (forall d e, truthy e = false ->
        computeExpiresAt now d e = computeExpiresAt now d JUndefined)
  /\ (forall d d' e, truthy e = true ->
        computeExpiresAt now d e = computeExpiresAt now d' e)
  /\ (forall d t, t <> 0 -> Z.abs t <= maxTime ->
        computeExpiresAt now d (JNum t) = Ok (Some t))
  /\ (forall d s t, s <> "" -> Date_parse s = Some t -> Z.abs t <= maxTime ->
        computeExpiresAt now d (JStr s) = Ok (Some t))
  /\ (forall d s, s <> "" -> Date_parse s = None ->
        computeExpiresAt now d (JStr s) = Throw)
  /\ (forall db t_id t_created req k,
        str_truthy (br_license_key req) = Some k -> truthy (br_player req) = true ->
        truthy (br_created_at req) = false -> Z.abs t_created <= maxTime ->
        match computeExpiresAt now (br_duration req) (br_expires_at req),
              normalizeIdentifiers (br_identifiers req) with
        | Ok expires_at, Ok ids =>
            exists row,
              snd (server_ban db t_id t_created now req)
              = with_bans db (bans db ++ [row])
              /\ ban_expires_at row = expires_at
              /\ ban_identifiers row = ids
              /\ status (fst (server_ban db t_id t_created now req)) = 200
        | _, _ =>
            server_ban db t_id t_created now req
            = (json 500 [("success", JBool false)], db)
        end).
Proof.
  intros Hnow.
  split; [by apply DurationFacts.two_hours_text|].
  split; [by apply DurationFacts.two_hours_text|].
  split; [repeat constructor|].
  split.
  { intros s. eexists. split; [|reflexivity].
    unfold normalize_duration, js_or. simpl. by destruct (String.eqb s ""). }
  split; [by apply DurationFacts.normalize_falsy|].
  split; [intros; by eapply DurationFacts.permanent_text|].
  split; [intros; by eapply DurationFacts.malformed_text|].
  split; [intros d e He Hd; by rewrite DurationFacts.not_explicit, Hd|].
  split; [reflexivity|].
  split; [by apply DurationFacts.two_hours_text|].
  split; [intros d e He; by rewrite !DurationFacts.not_explicit|].
  split; [intros d d' e He; unfold computeExpiresAt; by rewrite He|].
  split.
  { intros d t Ht Habs. unfold computeExpiresAt. simpl.
    rewrite (proj2 (Z.eqb_neq _ _) Ht). simpl. unfold TimeClip.
    by rewrite (proj2 (Z.leb_le _ _) Habs). }
  split.
  { intros d s t Hs Hp Habs. unfold computeExpiresAt. simpl.
    destruct (String.eqb_spec s ""); [done|]. simpl. rewrite Hp. simpl.
    unfold TimeClip. by rewrite (proj2 (Z.leb_le _ _) Habs). }
  split.
  { intros d s Hs Hp. unfold computeExpiresAt. simpl.
    destruct (String.eqb_spec s ""); [done|]. simpl. by rewrite Hp. }
  intros db t_id t_created req k Hk Hp Hc Ht. unfold server_ban.
  rewrite Hk, Hp, Hc.
  assert (Hclip : TimeClip t_created = Some t_created).
  { unfold TimeClip. by rewrite (proj2 (Z.leb_le _ _) Ht). }
  rewrite Hclip. cbn [toISOString rbind].
  assert (Hsame : computeExpiresAt now (js_or (br_duration req) (JStr "P"))
                    (br_expires_at req)
                  = computeExpiresAt now (br_duration req) (br_expires_at req)).
  { unfold computeExpiresAt. by rewrite DurationFacts.normalize_duration_default. }
  rewrite Hsame.
  destruct (computeExpiresAt now (br_duration req) (br_expires_at req)) as [x|];
    [|reflexivity].
  cbn [rbind].
  destruct (normalizeIdentifiers (br_identifiers req)) as [ids|]; [|reflexivity].
  cbn [rbind]. eexists. split; [reflexivity|]. by repeat split.
Qed.

(** ** Reading logs *)

Module ReadFacts.

Lemma query_limit_cap (limit_param : option string) (n : Z) :
  query_limit limit_param = Some n -> n <= 500.
Proof.
  unfold query_limit. destruct (parseInt10 _); simpl; [|done].
  intros [= <-]. lia.
Qed.

Lemma slice0_take {A} (arr : list A) (n : Z) :
  0 <= n -> slice0 arr (Some n) = take (Z.to_nat n) arr.
Proof. intros Hn. unfold slice0. by rewrite (proj2 (Z.ltb_ge n 0)) by lia. Qed.

End ReadFacts.

(** C7. When the select on the store answers with a list of rows, even an
    empty one, the reply is that list mapped to log events, whatever the
    in-memory buffer holds; a missing level, type or title is replaced by
    "info", "log" or "Server", a missing id by "DB-" and the creation time.
    When the select answers with an error or throws, the reply is the
    in-memory buffer of the tenant cut at the limit: its first [n] entries
    for a limit [n] that is not negative, all of it when it holds no more
    than [n], nothing for a limit that is no number.  The limit is 200 by
    default and at most 500.  (Under a key that is an inherited name the
    fallback sends no reply.) *)
Theorem logs_read_store_first (serverLogs : gmap string (list LogEvent))
  (store : string -> option Z -> ReadOutcome) (k : string) (limit_param : option string) :
  let limit := query_limit limit_param in
  let buffer := Logs.buffer_of serverLogs k in
  (forall data, store k limit = ReadRows data ->
     forall anyLogs, server_logs anyLogs store k limit_param = Ok (map map_row data))
  /\ (store k limit = ReadRows [] -> server_logs serverLogs store k limit_param = Ok [])
  /\ (store k limit = ReadError \/ store k limit = ReadThrows ->
      inherited k = false ->
      (forall n, limit = Some n -> 0 <= n ->
         server_logs serverLogs store k limit_param = Ok (take (Z.to_nat n) buffer))
      /\ (forall n, limit = Some n -> (Z.of_nat (length buffer) <= n) ->
            server_logs serverLogs store k limit_param = Ok buffer)
      /\ (forall n, limit = Some n -> n < 0 ->
            server_logs serverLogs store k limit_param
            = Ok (take (length buffer - Z.to_nat (- n)) buffer))
      /\ (limit = None -> server_logs serverLogs store k limit_param = Ok []))
  /\ (store k limit = ReadError \/ store k limit = ReadThrows ->
      inherited k = true -> server_logs serverLogs store k limit_param = Throw)
  /\ (forall x,
        log_id (map_row x)
        = (if truthy (row_id x) then row_id x
           else JStr ("DB-" +:+ default "null" (row_created_at x)))
        /\ log_time (map_row x)
           = match row_created_at x with Some t => JStr t | None => JNull end
        /\ log_level (map_row x)
           = (if truthy (row_level x) then row_level x else JStr "info")
        /\ log_type (map_row x)
           = (if truthy (row_type x) then row_type x else JStr "log")
        /\ log_title (map_row x)
           = (if truthy (row_title x) then row_title x else JStr "Server")
        /\ log_message (map_row x) = row_message x
        /\ log_meta (map_row x)
           = match row_meta x with JUndefined | JNull => JNull | meta => meta end)
  /\ (forall n, limit = Some n -> n <= 500)
  /\ query_limit None = Some 200
  /\ query_limit (Some "") = Some 200
  /\ query_limit (Some "50") = Some 50
  /\ query_limit (Some "9999") = Some 500
  /\ query_limit (Some "many") = None.
Proof.
  intros limit buffer. unfold server_logs. fold limit.
  split; [by intros data ->|]. split; [by intros ->|].
  split.
  { intros Hfail Hk. rewrite Hk.
    assert (Hres : match store k limit with
                   | ReadRows data => Ok (map map_row data)
                   | _ => Ok (slice0 (Logs.buffer_of serverLogs k) limit)
                   end = Ok (slice0 buffer limit))
      by (by destruct Hfail as [-> | ->]).
    rewrite Hres. clear Hres. split; [|split; [|split]].
    - intros n -> Hn. by rewrite ReadFacts.slice0_take.
    - intros n -> Hn. rewrite ReadFacts.slice0_take by lia.
      f_equal. apply take_ge. lia.
    - intros n -> Hn. unfold slice0. by rewrite (proj2 (Z.ltb_lt n 0)) by lia.
    - by intros ->. }
  split; [intros Hfail Hk; rewrite Hk; by destruct Hfail as [-> | ->]|].
  split.
  { intros x. repeat split. simpl. unfold js_nullish. by destruct (row_meta x). }
  split; [apply ReadFacts.query_limit_cap|].
  by repeat split.
Qed.

Lemma logs_read_store_first_witness :
  server_logs {["GG-A1B2-C3D4" := [sample_log 3; sample_log 2; sample_log 1]]}
    (fun _ _ => ReadRows []) "GG-A1B2-C3D4" (Some "2") = Ok []
  /\ server_logs {["GG-A1B2-C3D4" := [sample_log 3; sample_log 2; sample_log 1]]}
       (fun _ _ => ReadError) "GG-A1B2-C3D4" (Some "2")
     = Ok [sample_log 3; sample_log 2]
  /\ server_logs {["GG-A1B2-C3D4" := [sample_log 3; sample_log 2; sample_log 1]]}
       (fun _ _ => ReadThrows) "GG-A1B2-C3D4" None
     = Ok [sample_log 3; sample_log 2; sample_log 1].
Proof.
  pose proof (logs_read_store_first
                {["GG-A1B2-C3D4" := [sample_log 3; sample_log 2; sample_log 1]]}
                (fun _ _ => ReadRows []) "GG-A1B2-C3D4" (Some "2")) as (_ & Hrows & _).
  pose proof (logs_read_store_first
                {["GG-A1B2-C3D4" := [sample_log 3; sample_log 2; sample_log 1]]}
                (fun _ _ => ReadError) "GG-A1B2-C3D4" (Some "2"))
    as (_ & _ & Herr & _).
  pose proof (logs_read_store_first
                {["GG-A1B2-C3D4" := [sample_log 3; sample_log 2; sample_log 1]]}
                (fun _ _ => ReadThrows) "GG-A1B2-C3D4" None)
    as (_ & _ & Hthrows & _).
  split; [exact (Hrows eq_refl)|]. split.
  - exact (proj1 (Herr (or_introl eq_refl) eq_refl) 2 eq_refl ltac:(lia)).
  - exact (proj1 (proj2 (Hthrows (or_intror eq_refl) eq_refl)) 200 eq_refl
             ltac:(vm_compute; discriminate)).
Defined.

(** ** Heartbeats *)

Module BeatFacts.

Lemma numeric_uptime `{Runtime} (uptime : option Z) :
  js_Number (js_or (uptime_json uptime) (JNum 0)) = Ok (Some (default 0 uptime)).
Proof.
  destruct uptime as [n|]; [|done]. unfold js_or. simpl.
  by destruct (Z.eqb_spec n 0) as [->|].
Qed.

Lemma own_toString_throws `{Runtime} fields :
  has_own fields "toString" = true ->
  js_Number (js_or (JObj fields) (JNum 0)) = Throw.
Proof. intros Hown. unfold js_or. simpl. by rewrite Hown. Qed.

End BeatFacts.




Lemma ban_duration_parsing_witness :
  0 <= 1700000000000 <= maxTime - 7200000
  /\ computeExpiresAt (H := sample_runtime) 1700000000000 (JStr "2h") JUndefined
     = Ok (Some 1700007200000)
  /\ computeExpiresAt (H := sample_runtime) 1700000000000 (JStr "2h") (JNum 1800000000000)
     = Ok (Some 1800000000000)
  /\ computeExpiresAt (H := sample_runtime) 1700000000000 (JStr "2h") (JStr "1800000000000")
     = Ok (Some 1800000000000).
Proof.
  assert (Hnow : 0 <= 1700000000000 <= maxTime - 7200000)
    by (unfold maxTime; lia).
  split; [exact Hnow|].
  pose proof (ban_duration_parsing (H := sample_runtime) 1700000000000 Hnow)
    as (H2h & _ & _ & _ & _ & _ & _ & _ & _ & _ & _ & _ & Hnum & Htext & _).
  split; [exact H2h|]. split.
  - apply Hnum; [discriminate|]. unfold maxTime. simpl. lia.
  - apply (Htext _ "1800000000000" 1800000000000); [discriminate|reflexivity|].
    unfold maxTime. simpl. lia.
Defined.

(** C6 as stated, at the body [{duration: "2h", expires_at: 0}]: the explicit
    [expires_at], the epoch, does not override the duration; the ban expires
    two hours after [now]. *)
Lemma explicit_expiry_zero_does_not_override :
  ~ (forall (R : Runtime) (now : Z) (d e : jsval) (t : Z),
       e <> JUndefined -> e <> JNull -> new_Date e = Ok (Some t) ->
       computeExpiresAt now d e = Ok (Some t)).
Proof.
  intros Hall.
  pose proof (Hall sample_runtime 1700000000000 (JStr "2h") (JNum 0) 0
                ltac:(discriminate) ltac:(discriminate) eq_refl) as Hzero.
  discriminate Hzero.
Qed.

(** ** Issuing licenses *)

Module KeyFacts.

Lemma part_chars b1 b2 :
  part b1 b2 = String (upper_hi b1) (String (upper_lo b1) (String (upper_hi b2) (String (upper_lo b2) ""))).
Proof. reflexivity. Qed.

Lemma byte_of_hex_digits b : byte_of_hex (upper_hi b) (upper_lo b) = Some b.
Proof. destruct b; vm_compute; reflexivity. Qed.

Lemma digits_upper_hex b : is_upper_hex (upper_hi b) = true /\ is_upper_hex (upper_lo b) = true.
Proof. destruct b; vm_compute; split; reflexivity. Qed.

Lemma part_inj b1 b2 c1 c2 : part b1 b2 = part c1 c2 -> b1 = c1 /\ b2 = c2.
Proof.
  rewrite !part_chars. intros [= H1 H2 H3 H4].
  pose proof (byte_of_hex_digits b1) as E1. rewrite H1, H2, byte_of_hex_digits in E1.
  pose proof (byte_of_hex_digits b2) as E2. rewrite H3, H4, byte_of_hex_digits in E2.
  split; congruence.
Qed.

Lemma all_bytes_complete (b : byte) : In b all_bytes.
Proof.
  assert (Hex : existsb (Byte.eqb b) all_bytes = true)
    by (destruct b; vm_compute; reflexivity).
  apply existsb_exists in Hex as (x & Hin & Heq).
  apply Byte.byte_dec_bl in Heq. by subst.
Qed.

Lemma all_groups_complete (g : string) : is_group g -> In g all_groups.
Proof.
  intros (b1 & b2 & ->). unfold all_groups. apply in_flat_map.
  exists b1. split; [apply all_bytes_complete|].
  apply in_map. apply all_bytes_complete.
Qed.

Lemma all_groups_length : Z.of_nat (length all_groups) = 65536.
Proof. vm_compute. reflexivity. Qed.

(** A group takes at most 2^16 values. *)
Lemma groups_bound (gs : list string) :
  NoDup gs -> Forall is_group gs -> Z.of_nat (length gs) <= 65536.
Proof.
  intros Hnd Hall. rewrite <- all_groups_length.
  apply Nat2Z.inj_le. apply submseteq_length, NoDup_submseteq; [done|].
  intros g Hg. apply list_elem_of_In, all_groups_complete.
  rewrite Forall_forall in Hall. by apply Hall.
Qed.

End KeyFacts.

(** C5, as the code has it.  Whenever the create-license handler issues a
    key (its reply is a success), the key is the prefix "GG-" followed by two
    groups separated by "-"; each group is four upper-case hexadecimal digits
    spelling the two random bytes it is made from, so a group takes at most
    2^16 values and distinct byte pairs give distinct groups.  The license is
    stored ACTIVE and unbound, with [expires_at] null when [days_valid] is
    absent or not positive, and otherwise the same local wall-clock time
    that many calendar days later: [now] moved to local time, plus the days,
    moved back to UTC with the offset in force then, which is [now] plus that
    many times 24 hours when the two offsets agree.  An authorized request
    is served so unless that date is out of range, and then it is answered
    500 and nothing is stored. *)
Theorem issued_license_key `{Runtime} (ADMIN_SECRET : string) (db : DB) (now : Z)
  (authorization : option string) (days_valid : option Z) (b1 b2 b3 b4 : byte)
  (new_id : string) :
  let days := default 0 days_valid in
  let key := generateLicenseKey b1 b2 b3 b4 in
  let wall_clock := now + LocalTZA now true + days * 86400000 in
  let expiry := wall_clock - LocalTZA wall_clock false in
  let out :=
    admin_create_license ADMIN_SECRET db now authorization days_valid b1 b2 b3 b4
      new_id in
  key = "GG-" +:+ part b1 b2 +:+ "-" +:+ part b3 b4
  /\ (forall c1 c2,
        String.length (part c1 c2) = 4%nat
        /\ forallb is_upper_hex (list_ascii_of_string (part c1 c2)) = true)
  /\ (forall c1 c2 d1 d2, part c1 c2 = part d1 d2 -> c1 = d1 /\ c2 = d2)
  /\ (forall gs, NoDup gs -> Forall is_group gs -> Z.of_nat (length gs) <= 65536)
  /\ (status (fst out) = 200 ->
      fst out = json 200 [("success", JBool true); ("license_key", JStr key)]
      /\ snd out
         = with_licenses db
             (licenses db
              ++ [mkLicense new_id key "ACTIVE"
                    (if 0 <? days then Some expiry else None)
                    None None]))
  /\ (LocalTZA wall_clock false = LocalTZA now true -> expiry = now + days * 86400000)
  /\ (requireAdmin ADMIN_SECRET authorization = true ->
      (0 < days -> Z.abs expiry <= maxTime) ->
      status (fst out) = 200)
  /\ (requireAdmin ADMIN_SECRET authorization = true ->
      0 < days -> maxTime < Z.abs expiry ->
      out = (json 500 [("success", JBool false)], db)).
Proof.
  intros days key wall_clock expiry out.
  split; [reflexivity|]. split.
  { intros c1 c2. rewrite KeyFacts.part_chars. split; [reflexivity|].
    cbn [list_ascii_of_string forallb].
    destruct (KeyFacts.digits_upper_hex c1) as [-> ->].
    by destruct (KeyFacts.digits_upper_hex c2) as [-> ->]. }
  split; [apply KeyFacts.part_inj|]. split; [apply KeyFacts.groups_bound|].
  assert (Hdate : add_days now days = TimeClip expiry) by reflexivity.
  unfold out, admin_create_license. fold days. rewrite Hdate.
  split; [|split; [unfold expiry; lia|]].
  - destruct (requireAdmin ADMIN_SECRET authorization); [|done].
    destruct (0 <? days) eqn:Hdays; [|done].
    unfold TimeClip. by destruct (Z.abs expiry <=? maxTime).
  - destruct (requireAdmin ADMIN_SECRET authorization); [|split; done].
    destruct (0 <? days) eqn:Hdays.
    + apply Z.ltb_lt in Hdays. unfold TimeClip.
      destruct (Z.abs expiry <=? maxTime) eqn:Hrange.
      * split; [done|]. intros _ _ Hgt. apply Z.leb_le in Hrange. lia.
      * split; [|done]. intros _ Hle. apply Z.leb_gt in Hrange.
        specialize (Hle Hdays). lia.
    + apply Z.ltb_ge in Hdays. split; [done|]. intros _ Hpos. lia.
Qed.

Lemma issued_license_key_witness :
  status (fst (admin_create_license (H := sample_runtime) "s3cret"
                 (sample_db None true "GG-A1B2-C3D4")
                 1711800000000 (Some "Bearer s3cret") (Some 1)
                 xa1 xb2 xc3 xd4 "lic-2")) = 200
  /\ licenses (snd (admin_create_license (H := sample_runtime) "s3cret"
                      (sample_db None true "GG-A1B2-C3D4")
                      1711800000000 (Some "Bearer s3cret") (Some 1)
                      xa1 xb2 xc3 xd4 "lic-2"))
     = [sample_license None;
        mkLicense "lic-2" "GG-A1B2-C3D4" "ACTIVE" (Some 1711882800000) None None]
  /\ 1711882800000 = 1711800000000 + 23 * 3600000.
Proof.
  pose proof (issued_license_key (H := sample_runtime) "s3cret"
                (sample_db None true "GG-A1B2-C3D4")
                1711800000000 (Some "Bearer s3cret") (Some 1) xa1 xb2 xc3 xd4 "lic-2")
    as (_ & _ & _ & _ & Hissued & _ & Hserved & _).
  assert (Hok : status (fst (admin_create_license (H := sample_runtime) "s3cret"
                               (sample_db None true "GG-A1B2-C3D4")
                               1711800000000 (Some "Bearer s3cret") (Some 1)
                               xa1 xb2 xc3 xd4 "lic-2")) = 200).
  { apply Hserved; [reflexivity | intros _; vm_compute; discriminate]. }
  split; [exact Hok|].
  destruct (Hissued Hok) as [_ Hstore]. rewrite Hstore. split; reflexivity.
Defined.

(** A group does not take 2^32 distinct values, which 32 bits of entropy
    would need. *)
Lemma license_group_below_32_bits :
  ~ (exists gs : list string,
        NoDup gs /\ Forall is_group gs /\ 2 ^ 32 <= Z.of_nat (length gs)).
Proof.
  intros (gs & Hnd & Hall & Hlen).
  pose proof (KeyFacts.groups_bound gs Hnd Hall) as Hb.
  change (2 ^ 32) with 4294967296 in Hlen. lia.
Qed.

(** ** More on the in-process maps *)

Module MemFacts.
Import Queue.

Lemma trim_suffix (l : list Action) :
  trim l = l \/ ((200 < length l)%nat /\ trim l = drop 50 l).
Proof. unfold trim. case_decide; [right | left]; done. Qed.

Lemma trim_bounded (l : list Action) :
  (length l <= 201)%nat -> (length (trim l) <= 200)%nat.
Proof.
  intros Hl. unfold trim. case_decide; [|lia]. rewrite length_drop. lia.
Qed.

Lemma last_drop_snoc {A} (l : list A) (a : A) (n : nat) :
  (n <= length l)%nat -> last (drop n (l ++ [a])) = Some a.
Proof.
  intros Hn. rewrite drop_app_le by done. apply last_snoc.
Qed.

Lemma trim_last (l : list Action) (a : Action) : last (trim (l ++ [a])) = Some a.
Proof.
  unfold trim. case_decide as Hd; [|apply last_snoc].
  apply last_drop_snoc. rewrite length_app in Hd. simpl in Hd. lia.
Qed.

(** The queue of a tenant after its pushes depends on its queue alone. *)
Lemma push_all_ext q1 q2 k xs :
  queue_of q1 k = queue_of q2 k ->
  queue_of (push_all q1 k xs) k = queue_of (push_all q2 k xs) k.
Proof.
  revert q1 q2. induction xs as [|x xs IH]; intros q1 q2 Hq; [done|].
  change (push_all q1 k (x :: xs)) with (push_all (pushAction q1 k x) k xs).
  change (push_all q2 k (x :: xs)) with (push_all (pushAction q2 k x) k xs).
  apply IH. by rewrite !QueueFacts.queue_of_push, Hq.
Qed.

End MemFacts.

(** X1. A push keeps every queue within 200 entries, never drops the command
    it pushes (it is the last of the tenant's queue afterwards), and leaves
    the tenant's queue equal to the old queue followed by the command,
    without its first 50 entries when the trim fires. *)
Theorem push_keeps_bound_and_newest (q : gmap string (list Action)) (k : string)
  (a : Action) :
  queues_bounded q ->
  queues_bounded (Queue.pushAction q k a)
  /\ last (Queue.queue_of (Queue.pushAction q k a) k) = Some a
  /\ (Queue.queue_of (Queue.pushAction q k a) k = Queue.queue_of q k ++ [a]
      \/ (length (Queue.queue_of q k) = 200%nat
          /\ Queue.queue_of (Queue.pushAction q k a) k
             = drop 50 (Queue.queue_of q k) ++ [a])).
Proof.
  intros Hb. split; [|split].
  - intros k'. destruct (decide (k = k')) as [<-|Hne].
    + rewrite QueueFacts.queue_of_push. apply MemFacts.trim_bounded.
      rewrite length_app. simpl. specialize (Hb k). lia.
    + rewrite QueueFacts.queue_of_push_ne by done. apply Hb.
  - rewrite QueueFacts.queue_of_push. apply MemFacts.trim_last.
  - rewrite QueueFacts.queue_of_push.
    destruct (MemFacts.trim_suffix (Queue.queue_of q k ++ [a])) as [->|[Hlen ->]];
      [by left|right].
    rewrite length_app in Hlen. simpl in Hlen. specialize (Hb k).
    split; [lia|]. rewrite drop_app_le by lia. done.
Qed.

Lemma push_keeps_bound_and_newest_witness :
  queues_bounded (Queue.push_all ∅ "GG-A1B2-C3D4" (map sample_action (seq 0 200)))
  /\ last (Queue.queue_of
             (Queue.pushAction
                (Queue.push_all ∅ "GG-A1B2-C3D4" (map sample_action (seq 0 200)))
                "GG-A1B2-C3D4" (sample_action 200)) "GG-A1B2-C3D4")
     = Some (sample_action 200).
Proof.
  assert (Hb : queues_bounded
                 (Queue.push_all ∅ "GG-A1B2-C3D4" (map sample_action (seq 0 200)))).
  { intros k. destruct (decide (k = "GG-A1B2-C3D4")) as [->|Hne].
    - vm_compute. lia.
    - replace (Queue.queue_of _ k) with (@nil Action); [simpl; lia|].
      unfold Queue.queue_of.
      assert (Hgen : forall xs (q : gmap string (list Action)),
                 q !! k = None ->
                 Queue.push_all q "GG-A1B2-C3D4" xs !! k = None).
      { induction xs as [|x xs IH]; intros q Hq; [done|].
        apply IH. unfold Queue.pushAction. by rewrite lookup_insert_ne. }
      by rewrite Hgen. }
  split; [exact Hb|].
  exact (proj1 (proj2 (push_keeps_bound_and_newest _ "GG-A1B2-C3D4"
                         (sample_action 200) Hb))).
Defined.

(** X2. Pushes for other tenants do not show in a tenant's queue: after any
    interleaving of pushes, the queue of a tenant is what its own pushes, in
    their order, make of its old queue; a drain returns exactly that. *)
Theorem interleaved_pushes_are_isolated (q : gmap string (list Action))
  (ops : list (string * Action)) (k : string) :
  Queue.queue_of (push_many q ops) k
  = Queue.queue_of (Queue.push_all q k (actions_for k ops)) k
  /\ fst (Queue.drain (push_many q ops) k)
     = Queue.queue_of (Queue.push_all q k (actions_for k ops)) k.
Proof.
  assert (H1 : Queue.queue_of (push_many q ops) k
               = Queue.queue_of (Queue.push_all q k (actions_for k ops)) k).
  { revert q. induction ops as [|[k' a] ops IH]; intros q; [done|].
    change (push_many q ((k', a) :: ops))
      with (push_many (Queue.pushAction q k' a) ops).
    rewrite IH. unfold actions_for.
    destruct (decide (k' = k)) as [->|Hne].
    - by rewrite filter_cons_True by done.
    - rewrite filter_cons_False by done.
      apply MemFacts.push_all_ext. by apply QueueFacts.queue_of_push_ne. }
  split; [exact H1|].
  by rewrite (proj1 (QueueFacts.drain_returns_all _ _)).
Qed.

(** X3. A heartbeat of a tenant at time [t0] whose uptime converts to a
    number is answered with success, and the status of that tenant read at
    time [t] is then online exactly when [t - t0 < 30000], reports the
    length of the roster the heartbeat carried as the player count, [t0] as
    last seen, the converted uptime (0 for NaN) and the version.  When the
    conversion of the uptime throws, the heartbeat is answered 500, the
    status of the tenant is what it was, and the roster is already the one
    the heartbeat carried. *)
Theorem heartbeat_then_status `{Runtime} (mem : LiveMemory) (t0 t : Z) (k : string)
  (players version uptime : jsval) (mirror : WriteOutcome) :
  k <> "" ->
  let out := server_heartbeat_json mem t0 (Some k) players version uptime mirror in
  let roster := match players with JArr xs => xs | _ => [] end in
  (forall up, js_Number (js_or uptime (JNum 0)) = Ok up ->
     fst out = json 200 [("success", JBool true)]
     /\ server_status (snd out) t k
        = mkStatusReply (bool_decide (t - t0 < 30000)) (Z.of_nat (length roster))
            (default 0 up) (if truthy version then version else JNull) (Some t0)
     /\ server_players (snd out) k = roster)
  /\ (js_Number (js_or uptime (JNum 0)) = Throw ->
      fst out = json 500 [("success", JBool false)]
      /\ server_status (snd out) t k = server_status mem t k
      /\ server_players (snd out) k = roster).
Proof.
  intros Hk out roster. unfold out, server_heartbeat_json.
  rewrite StoreFacts.str_truthy_Some by done. fold roster.
  rewrite lookup_insert_eq. split.
  - intros up ->. unfold server_status, server_players.
    destruct mirror; simpl; rewrite !lookup_insert_eq; simpl;
      (split; [done|]); (split; [|done]); f_equal;
      try (unfold js_or; by destruct (truthy version) eqn:E; rewrite ?E);
      (destruct (Z.ltb_spec (t - t0) 30000);
       [by rewrite bool_decide_eq_true_2 | by rewrite bool_decide_eq_false_2; [|lia]]).
  - intros ->. unfold server_status, server_players. simpl.
    by rewrite lookup_insert_eq.
Qed.

Lemma heartbeat_then_status_witness :
  st_online
    (server_status
       (snd (server_heartbeat_json (H := sample_runtime) (mkLiveMemory ∅ ∅)
               1700000000000 (Some "GG-A1B2-C3D4")
               (JArr [JObj [("id", JNum 1)]]) (JStr "3.1.0") (JStr "42") WriteDone))
       1700000029999 "GG-A1B2-C3D4")
  = true
  /\ server_status
       (snd (server_heartbeat_json (H := sample_runtime) (mkLiveMemory ∅ ∅)
               1700000000000 (Some "GG-A1B2-C3D4")
               (JArr [JObj [("id", JNum 1)]]) (JStr "3.1.0") (JStr "42") WriteDone))
       1700000030000 "GG-A1B2-C3D4"
     = mkStatusReply false 1 42 (JStr "3.1.0") (Some 1700000000000).
Proof.
  assert (Hk : "GG-A1B2-C3D4" <> "") by discriminate.
  split.
  - pose proof (proj1 (heartbeat_then_status (H := sample_runtime) (mkLiveMemory ∅ ∅)
                    1700000000000 1700000029999
                    "GG-A1B2-C3D4" (JArr [JObj [("id", JNum 1)]]) (JStr "3.1.0")
                    (JStr "42") WriteDone Hk) (Some 42) eq_refl) as (_ & Hst & _).
    by rewrite Hst.
  - exact (proj1 (proj2 (proj1 (heartbeat_then_status (H := sample_runtime)
                    (mkLiveMemory ∅ ∅) 1700000000000 1700000030000
                    "GG-A1B2-C3D4" (JArr [JObj [("id", JNum 1)]]) (JStr "3.1.0")
                    (JStr "42") WriteDone Hk) (Some 42) eq_refl))).
Defined.

(** X4. A heartbeat replaces the roster: the players read back are the array
    the heartbeat carried, whatever roster was stored before; a heartbeat
    without a license key (absent or empty) is answered 400 MISSING_LICENSE
    and changes nothing; a tenant that never sent a heartbeat has an empty
    roster and the offline status with zero players. *)
Theorem heartbeat_replaces_roster (mem : LiveMemory) (t0 t : Z) (k : string)
  (roster : list jsval) (version : jsval) (uptime : option Z) (mirror : WriteOutcome) :
  k <> "" ->
  server_players
    (snd (server_heartbeat mem t0 (Some k) (JArr roster) version uptime mirror)) k
  = roster
  /\ (forall license_key players,
        str_truthy license_key = None ->
        server_heartbeat mem t0 license_key players version uptime mirror
        = (json 400 [("success", JBool false); ("error", JStr "MISSING_LICENSE")], mem))
  /\ (serverState mem !! k = None -> livePlayersByLicense mem !! k = None ->
      server_players mem k = []
      /\ server_status mem t k = mkStatusReply false 0 0 JNull None).
Proof.
  intros Hk. split; [|split].
  - unfold server_heartbeat. rewrite StoreFacts.str_truthy_Some by done.
    unfold server_players. destruct mirror; simpl; by rewrite lookup_insert_eq.
  - intros license_key players Hnone. unfold server_heartbeat. by rewrite Hnone.
  - intros Hs Hp. unfold server_players, server_status. by rewrite Hs, Hp.
Qed.

Lemma heartbeat_replaces_roster_witness :
  server_players
    (snd (server_heartbeat
            (mkLiveMemory ∅ {["GG-A1B2-C3D4" := [JStr "old-1"; JStr "old-2"]]})
            1700000000000 (Some "GG-A1B2-C3D4") (JArr [JStr "new-1"]) JNull None
            WriteRejected)) "GG-A1B2-C3D4"
  = [JStr "new-1"].
Proof.
  refine (proj1 (heartbeat_replaces_roster
                   (mkLiveMemory ∅ {["GG-A1B2-C3D4" := [JStr "old-1"; JStr "old-2"]]})
                   1700000000000 0 "GG-A1B2-C3D4" [JStr "new-1"] JNull None
                   WriteRejected _)).
  discriminate.
Defined.

(** X5. With the store unavailable, a read of the logs after a run of
    ingests under a key that is not an inherited name returns the newest
    entries first: the reverse of the ingested items followed by what the
    buffer held, cut at the smaller of the limit and 300. *)
Theorem logs_fallback_returns_newest (m : gmap string (list LogEvent))
  (store : string -> option Z -> ReadOutcome) (k : string) (items : list LogEvent)
  (limit_param : option string) (n : Z) :
  inherited k = false -> items <> [] ->
  query_limit limit_param = Some n -> 0 <= n ->
  store k (Some n) = ReadError \/ store k (Some n) = ReadThrows ->
  exists m',
    Logs.ingest_all m k items = Ok m'
    /\ server_logs m' store k limit_param
       = Ok (take (Nat.min (Z.to_nat n) 300) (rev items ++ Logs.buffer_of m k)).
Proof.
  intros Hk Hne Hl Hn Hfail.
  destruct (LogsFacts.ingest_all_buffer m k items Hk) as (m' & Hrun & Hbuf & _).
  exists m'. split; [exact Hrun|].
  unfold server_logs. rewrite Hl, Hk, Hbuf.
  destruct items as [|x xs]; [done|].
  assert (Hs : slice0 (take 300 (rev (x :: xs) ++ Logs.buffer_of m k)) (Some n)
               = take (Nat.min (Z.to_nat n) 300) (rev (x :: xs) ++ Logs.buffer_of m k)).
  { unfold slice0. rewrite (proj2 (Z.ltb_ge n 0)) by lia. apply take_take. }
  destruct Hfail as [-> | ->]; by rewrite Hs.
Qed.

Lemma logs_fallback_returns_newest_witness :
  exists m',
    Logs.ingest_all {["GG-A1B2-C3D4" := [sample_log 0]]} "GG-A1B2-C3D4"
      (map sample_log (seq 1 2)) = Ok m'
    /\ server_logs m' (fun _ _ => ReadThrows) "GG-A1B2-C3D4" (Some "5")
       = Ok [sample_log 2; sample_log 1; sample_log 0].
Proof.
  exact (logs_fallback_returns_newest {["GG-A1B2-C3D4" := [sample_log 0]]}
           (fun _ _ => ReadThrows) "GG-A1B2-C3D4"
           (map sample_log (seq 1 2)) (Some "5") 5 eq_refl ltac:(discriminate) eq_refl
           ltac:(lia) (or_intror eq_refl)).
Defined.

(** ** Administrator gate *)

Module GateFacts.

Lemma substring_all (s : string) : String.substring 0 (String.length s) s = s.
Proof. induction s as [|c s IH]; simpl; [done | by rewrite IH]. Qed.

Lemma prefix_app (s t : string) : String.prefix s (s +:+ t) = true.
Proof.
  induction s as [|a s IH]; [by destruct t|].
  change (String.prefix (String a s) (String a s +:+ t))
    with (if ascii_dec a a then String.prefix s (s +:+ t) else false).
  destruct (ascii_dec a a); [exact IH | done].
Qed.

Lemma prefix_cons (a c : ascii) (s1 s2 : string) :
  String.prefix (String a s1) (String c s2) = true ->
  a = c /\ String.prefix s1 s2 = true.
Proof.
  change (String.prefix (String a s1) (String c s2))
    with (if ascii_dec a c then String.prefix s1 s2 else false).
  destruct (ascii_dec a c); [auto | discriminate].
Qed.

Ltac peel E c s :=
  destruct s as [|c s]; [discriminate E|];
  apply prefix_cons in E as [<- E].

Lemma prefix_Bearer (b : string) :
  String.prefix "Bearer " b = true ->
  exists rest, b = "Bearer " +:+ rest
               /\ String.substring 7 (String.length b - 7) b = rest.
Proof.
  intros E.
  peel E c1 b. peel E c2 b. peel E c3 b. peel E c4 b. peel E c5 b. peel E c6 b.
  peel E c7 b.
  exists b. split; [reflexivity|].
  match goal with |- String.substring _ ?n _ = _ =>
    assert (Hn : n = String.length b) by (cbn [String.length]; lia); rewrite Hn end.
  cbn [String.substring]. apply substring_all.
Qed.

Lemma bearer_token_Some (authorization : option string) (t : string) :
  bearer_token authorization = Some t <-> authorization = Some ("Bearer " +:+ t).
Proof.
  unfold bearer_token. split.
  - destruct authorization as [b|]; simpl; [|discriminate].
    destruct (String.prefix "Bearer " b) eqn:E; [|discriminate].
    destruct (prefix_Bearer b E) as (rest & -> & Hsub). rewrite Hsub. by intros [= ->].
  - intros ->. change (default "" (Some ("Bearer " +:+ t))) with ("Bearer " +:+ t).
    rewrite prefix_app.
    change ("Bearer " +:+ t)
      with (String "B" (String "e" (String "a" (String "r" (String "e"
              (String "r" (String " " t))))))).
    match goal with |- Some (String.substring _ ?n _) = _ =>
      assert (Hn : n = String.length t) by (cbn [String.length]; lia);
      rewrite Hn end.
    cbn [String.substring]. by rewrite substring_all.
Qed.

Lemma requireAdmin_true (ADMIN_SECRET : string) (authorization : option string) :
  requireAdmin ADMIN_SECRET authorization = true
  <-> ADMIN_SECRET <> "" /\ authorization = Some ("Bearer " +:+ ADMIN_SECRET).
Proof.
  unfold requireAdmin. split.
  - destruct (bearer_token authorization) as [t|] eqn:Ht; [|discriminate].
    intros H. apply andb_true_iff in H as [Hne Heq].
    apply negb_true_iff, bool_decide_eq_false in Hne.
    apply bool_decide_eq_true in Heq. subst t.
    split; [done|]. by apply bearer_token_Some.
  - intros [Hne ->]. rewrite (proj2 (bearer_token_Some _ ADMIN_SECRET) eq_refl).
    by rewrite bool_decide_eq_false_2, bool_decide_eq_true_2.
Qed.

End GateFacts.

(** X6. The administrator gate accepts a request exactly when a secret is
    configured and the Authorization header is "Bearer " followed by that
    secret; with no secret configured, no request passes. *)
Theorem admin_gate_exact (ADMIN_SECRET : string) (authorization : option string) :
  (requireAdmin ADMIN_SECRET authorization = true
   <-> ADMIN_SECRET <> "" /\ authorization = Some ("Bearer " +:+ ADMIN_SECRET))
  /\ requireAdmin "" authorization = false.
Proof.
  split; [apply GateFacts.requireAdmin_true|].
  destruct (requireAdmin "" authorization) eqn:E; [|done].
  apply GateFacts.requireAdmin_true in E as [E _]. done.
Qed.

Lemma admin_gate_exact_witness :
  requireAdmin "s3cret" (Some "Bearer s3cret") = true
  /\ requireAdmin "s3cret" (Some "Bearer s3cret ") = false
  /\ requireAdmin "s3cret" (Some "bearer s3cret") = false.
Proof.
  split; [|split; reflexivity].
  apply (proj1 (admin_gate_exact "s3cret" (Some "Bearer s3cret"))).
  split; [discriminate | reflexivity].
Defined.

(** X7. Without the exact administrator header, the three administrator
    handlers that write to the store (create-license, toggle-license,
    create-customer) answer 401 UNAUTHORIZED and leave the store as it is. *)
Theorem admin_handlers_fail_closed `{Runtime} (ADMIN_SECRET : string) (db : DB)
  (authorization : option string) :
  ADMIN_SECRET = "" \/ authorization <> Some ("Bearer " +:+ ADMIN_SECRET) ->
  (forall now days b1 b2 b3 b4 new_id,
     admin_create_license ADMIN_SECRET db now authorization days b1 b2 b3 b4 new_id
     = (unauthorized, db))
  /\ (forall license_key status,
        admin_toggle_license ADMIN_SECRET db authorization license_key status
        = (unauthorized, db))
  /\ (forall username password license_key new_id insert,
        admin_create_customer ADMIN_SECRET db authorization username password
          license_key new_id insert
        = (unauthorized, db)).
Proof.
  intros Hbad.
  assert (Hgate : requireAdmin ADMIN_SECRET authorization = false).
  { destruct (requireAdmin ADMIN_SECRET authorization) eqn:E; [|done].
    apply GateFacts.requireAdmin_true in E as [E1 E2]. by destruct Hbad. }
  unfold admin_create_license, admin_toggle_license, admin_create_customer.
  rewrite Hgate. done.
Qed.

Lemma admin_handlers_fail_closed_witness :
  admin_toggle_license "s3cret" (sample_db None true "GG-A1B2-C3D4")
    (Some "Bearer guess") (Some "GG-A1B2-C3D4") (Some "SUSPENDED")
  = (unauthorized, sample_db None true "GG-A1B2-C3D4").
Proof.
  refine (proj1 (proj2 (admin_handlers_fail_closed (H := sample_runtime) "s3cret"
                          (sample_db None true "GG-A1B2-C3D4") (Some "Bearer guess") _))
            _ _).
  right. discriminate.
Defined.

(** ** What verification leaves alone *)

Module KeepFacts.

Lemma single_filter_elem {A} (P : A -> Prop) `{!forall a, Decision (P a)}
  (l : list A) (x : A) :
  single (filter P l) = Some x -> x ∈ l /\ P x.
Proof.
  intros Hs. apply StoreFacts.single_Some in Hs.
  assert (Hin : x ∈ filter P l) by (rewrite Hs; apply list_elem_of_here).
  by apply list_elem_of_filter in Hin as [HP Hin].
Qed.

Lemma key_identifies {A B} (f : A -> B) (l : list A) (x y : A) :
  NoDup (map f l) -> x ∈ l -> y ∈ l -> f x = f y -> x = y.
Proof.
  induction l as [|a l IH]; intros Hnd Hx Hy Hf; [by apply elem_of_nil in Hx|].
  simpl in Hnd. apply NoDup_cons in Hnd as [Ha Hnd].
  apply elem_of_cons in Hx as [->|Hx]; apply elem_of_cons in Hy as [->|Hy].
  - done.
  - exfalso. apply Ha. rewrite Hf. by apply StoreFacts.elem_of_map.
  - exfalso. apply Ha. rewrite <- Hf. by apply StoreFacts.elem_of_map.
  - by apply IH.
Qed.

Lemma Forall2_map_same {A} (R : A -> A -> Prop) (h : A -> A) (l : list A) :
  (forall x, x ∈ l -> R x (h x)) -> Forall2 R l (map h l).
Proof.
  induction l as [|a l IH]; intros Hall; simpl; constructor.
  - apply Hall, list_elem_of_here.
  - apply IH. intros x Hx. apply Hall. by apply list_elem_of_further.
Qed.

Lemma update_twice {A} (sel : A -> bool) (f g : A -> A) (l : list A) :
  update_where sel g (update_where sel f l)
  = map (fun r => if sel (if sel r then f r else r)
                  then g (if sel r then f r else r)
                  else if sel r then f r else r) l.
Proof. unfold update_where. by rewrite map_map. Qed.

Lemma kept_refl l : kept_by_verify l l.
Proof. by repeat split. Qed.

End KeepFacts.

(** X8. A verify call that is not reported valid leaves the store exactly
    as it was; and no verify call changes the customers, the panel admins or
    the bans, nor the number of licenses. *)
Theorem verify_invalid_changes_nothing `{Runtime} (secret : string) (db : DB)
  (t1 t2 t3 : Z) (license_key hwid : option string) :
  let out := license_verify secret db t1 t2 t3 license_key hwid in
  (reports_valid (fst out) = false -> snd out = db)
  /\ customers (snd out) = customers db
  /\ panel_admins (snd out) = panel_admins db
  /\ bans (snd out) = bans db
  /\ length (licenses (snd out)) = length (licenses db).
Proof.
  intros out. unfold out, license_verify.
  destruct (str_truthy license_key) as [k|]; [|done].
  destruct (license_by_key db k) as [lic|]; [|done].
  destruct (decide (lic_status lic <> "ACTIVE")); [done|].
  destruct (match lic_expires_at lic with Some e => e <? t1 | None => false end);
    [done|].
  destruct (str_truthy (lic_hwid lic)) as [bound|], (str_truthy hwid) as [h|];
    try destruct (decide (bound <> h)); simpl;
    rewrite ?StoreFacts.update_where_length; done.
Qed.

(** X9. When license ids identify licenses, a verify call keeps, for every
    license row, its id, license key, status and expiry, and never replaces
    a device fingerprint that is already bound: only [last_seen], and the
    fingerprint of an unbound license, can change. *)
Theorem verify_never_rebinds `{Runtime} (secret : string) (db : DB)
  (t1 t2 t3 : Z) (license_key hwid : option string) :
  NoDup (map lic_id (licenses db)) ->
  Forall2 kept_by_verify (licenses db)
    (licenses (snd (license_verify secret db t1 t2 t3 license_key hwid))).
Proof.
  intros Hnd.
  assert (Hrefl : Forall2 kept_by_verify (licenses db) (licenses db)).
  { rewrite <- (map_id (licenses db)) at 2.
    apply KeepFacts.Forall2_map_same. intros; apply KeepFacts.kept_refl. }
  unfold license_verify.
  destruct (str_truthy license_key) as [k|]; [|done].
  destruct (license_by_key db k) as [lic|] eqn:Hlic; [|done].
  destruct (decide (lic_status lic <> "ACTIVE")); [done|].
  destruct (match lic_expires_at lic with Some e => e <? t1 | None => false end);
    [done|].
  apply KeepFacts.single_filter_elem in Hlic as [Hin _].
  assert (Hseen : Forall2 kept_by_verify (licenses db)
            (update_where (fun l => bool_decide (lic_id l = lic_id lic))
               (set_last_seen t2) (licenses db))).
  { apply KeepFacts.Forall2_map_same. intros x _.
    destruct (bool_decide (lic_id x = lic_id lic)); by repeat split. }
  destruct (str_truthy (lic_hwid lic)) as [bound|] eqn:Hb,
           (str_truthy hwid) as [h|];
    try destruct (decide (bound <> h)); simpl; try done.
  rewrite KeepFacts.update_twice. apply KeepFacts.Forall2_map_same.
  intros x Hx. destruct (bool_decide (lic_id x = lic_id lic)) eqn:Hid.
  - apply bool_decide_eq_true in Hid.
    assert (x = lic) as -> by (by apply (KeepFacts.key_identifies lic_id (licenses db))).
    simpl. rewrite bool_decide_eq_true_2 by done.
    repeat split. intros Hbound. by destruct Hbound.
  - rewrite Hid. by repeat split.
Qed.

Lemma verify_never_rebinds_witness :
  NoDup (map lic_id (licenses (sample_db (Some "PC-1") true "GG-A1B2-C3D4")))
  /\ Forall2 kept_by_verify
       (licenses (sample_db (Some "PC-1") true "GG-A1B2-C3D4"))
       (licenses (snd (license_verify (H := sample_runtime) "change_me"
                         (sample_db (Some "PC-1") true "GG-A1B2-C3D4")
                         1700000000000 1700000000001 1700000000002
                         (Some "GG-A1B2-C3D4") (Some "PC-1")))).
Proof.
  assert (Hnd : NoDup (map lic_id
                         (licenses (sample_db (Some "PC-1") true "GG-A1B2-C3D4"))))
    by apply NoDup_singleton.
  split; [exact Hnd|].
  exact (verify_never_rebinds (H := sample_runtime) "change_me"
           (sample_db (Some "PC-1") true "GG-A1B2-C3D4")
           1700000000000 1700000000001 1700000000002
           (Some "GG-A1B2-C3D4") (Some "PC-1") Hnd).
Defined.

(** ** Status toggles *)

Module ToggleFacts.

Lemma status_set (db : DB) (k s : string) (lic : License) :
  license_by_key db k = Some lic ->
  license_by_key
    (with_licenses db
       (update_where (fun l => bool_decide (lic_license_key l = k)) (set_status s)
          (licenses db))) k
  = Some (set_status s lic).
Proof.
  intros Hlic. pose proof (KeepFacts.single_filter_elem _ _ _ Hlic) as [_ Hk].
  unfold license_by_key in *. simpl.
  apply StoreFacts.single_Some in Hlic. apply StoreFacts.single_Some.
  rewrite VerifyFacts.by_key_update by done. rewrite Hlic. simpl.
  by rewrite bool_decide_eq_true_2.
Qed.

Lemma verify_reason `{Runtime} secret db t1 t2 t3 k hwid lic :
  k <> "" -> license_by_key db k = Some lic -> lic_status lic <> "ACTIVE" ->
  license_verify secret db t1 t2 t3 (Some k) hwid
  = (json 200 [("valid", JBool false); ("reason", JStr (lic_status lic))], db).
Proof.
  intros Hk Hlic Hst. unfold license_verify.
  rewrite StoreFacts.str_truthy_Some by done. rewrite Hlic.
  by rewrite decide_True.
Qed.

End ToggleFacts.

(** X10. After the owner of a license (customer toggle) or an administrator
    (toggle-license) sets a status other than ACTIVE, every verify call on
    that license is answered invalid with that status as the reason and
    changes nothing; after the status is set to ACTIVE, a call that presents
    no device fingerprint to the unexpired license is reported valid. *)
Theorem toggled_status_drives_verify `{Runtime} (secret ADMIN_SECRET : string)
  (db : DB) (token : string) (authorization : option string) (s : string)
  (c : Customer) (lic : License) (t1 t2 t3 : Z) (hwid : option string) :
  token <> "" -> s <> "" -> cust_license_key c <> "" ->
  customer_by_id db token = Some c ->
  license_by_key db (cust_license_key c) = Some lic ->
  requireAdmin ADMIN_SECRET authorization = true ->
  let k := cust_license_key c in
  let by_owner := snd (customer_toggle db (Some token) (Some s)) in
  let by_admin :=
    snd (admin_toggle_license ADMIN_SECRET db authorization (Some k) (Some s)) in
  by_owner = by_admin
  /\ license_by_key by_owner k = Some (set_status s lic)
  /\ (s <> "ACTIVE" ->
      license_verify secret by_owner t1 t2 t3 (Some k) hwid
      = (json 200 [("valid", JBool false); ("reason", JStr s)], by_owner))
  /\ (s = "ACTIVE" -> not_expired_at t1 lic ->
      reports_valid (fst (license_verify secret by_owner t1 t2 t3 (Some k) None))
      = true).
Proof.
  intros Ht Hs Hk Hc Hlic Hadmin k by_owner by_admin.
  assert (Ho : by_owner =
    with_licenses db
      (update_where (fun l => bool_decide (lic_license_key l = k)) (set_status s)
         (licenses db))).
  { unfold by_owner, customer_toggle.
    rewrite !StoreFacts.str_truthy_Some by done. by rewrite Hc. }
  assert (Ha : by_admin = by_owner).
  { rewrite Ho. unfold by_admin, admin_toggle_license. rewrite Hadmin.
    by rewrite !StoreFacts.str_truthy_Some. }
  assert (Hfound : license_by_key by_owner k = Some (set_status s lic))
    by (rewrite Ho; by apply ToggleFacts.status_set).
  split; [done|]. split; [done|]. split.
  - intros Hne.
    by rewrite (ToggleFacts.verify_reason secret by_owner t1 t2 t3 k hwid
                  (set_status s lic)).
  - intros -> Hexp.
    rewrite (VerifyFacts.verify_live secret by_owner t1 t2 t3 k None
               (set_status "ACTIVE" lic)); try done.
    cbv zeta. simpl str_truthy at 2.
    by destruct (str_truthy (lic_hwid (set_status "ACTIVE" lic))).
Qed.

Lemma toggled_status_drives_verify_witness :
  customer_by_id (sample_db None true "GG-A1B2-C3D4") "cust-1" = Some sample_customer
  /\ license_by_key (sample_db None true "GG-A1B2-C3D4") "GG-A1B2-C3D4"
     = Some (sample_license None)
  /\ requireAdmin "s3cret" (Some "Bearer s3cret") = true
  /\ fst (license_verify (H := sample_runtime) "change_me"
            (snd (customer_toggle (sample_db None true "GG-A1B2-C3D4")
                    (Some "cust-1") (Some "SUSPENDED")))
            1700000000000 1700000000001 1700000000002 (Some "GG-A1B2-C3D4")
            (Some "PC-1"))
     = json 200 [("valid", JBool false); ("reason", JStr "SUSPENDED")].
Proof.
  split; [reflexivity|]. split; [reflexivity|]. split; [reflexivity|].
  pose proof (toggled_status_drives_verify (H := sample_runtime) "change_me" "s3cret"
                (sample_db None true "GG-A1B2-C3D4") "cust-1" (Some "Bearer s3cret")
                "SUSPENDED" sample_customer (sample_license None)
                1700000000000 1700000000001 1700000000002 (Some "PC-1"))
    as Hthm.
  destruct Hthm as (_ & _ & Hreason & _);
    [discriminate | discriminate | discriminate | reflexivity | reflexivity
     | reflexivity |].
  exact (f_equal fst (Hreason ltac:(discriminate))).
Defined.

Lemma verify_invalid_changes_nothing_witness :
  reports_valid
    (fst (license_verify (H := sample_runtime) "change_me"
            (sample_db (Some "PC-1") true "GG-A1B2-C3D4")
            1700000000000 1700000000001 1700000000002
            (Some "GG-A1B2-C3D4") (Some "PC-2"))) = false
  /\ snd (license_verify (H := sample_runtime) "change_me"
            (sample_db (Some "PC-1") true "GG-A1B2-C3D4")
            1700000000000 1700000000001 1700000000002
            (Some "GG-A1B2-C3D4") (Some "PC-2"))
     = sample_db (Some "PC-1") true "GG-A1B2-C3D4".
Proof.
  split; [reflexivity|].
  exact (proj1 (verify_invalid_changes_nothing (H := sample_runtime) "change_me"
                  (sample_db (Some "PC-1") true "GG-A1B2-C3D4")
                  1700000000000 1700000000001 1700000000002
                  (Some "GG-A1B2-C3D4") (Some "PC-2")) eq_refl).
Defined.

(** ** Identities and sessions *)

Module IdentityFacts.

Lemma resolve_sound `{Runtime} (db : DB) (token : option string) (who : Identity) :
  fst (resolvePanelIdentity db token) = Some who ->
  exists t, token = Some t /\ t <> ""
    /\ match who with
       | IdCustomer k c => c ∈ customers db /\ cust_id c = t /\ k = cust_license_key c
       | IdAdmin k a =>
           a ∈ panel_admins db /\ pa_token_hash a = sha256 t /\ pa_active a = true
           /\ k = pa_license_key a /\ customer_by_id db t = None
       end.
Proof.
  unfold resolvePanelIdentity.
  destruct (str_truthy token) as [t|] eqn:Ht; [|done].
  apply StoreFacts.str_truthy_inv in Ht as [-> Hne].
  destruct (customer_by_id db t) as [c|] eqn:Hc.
  - intros [= <-]. exists t. split; [done|]. split; [done|].
    apply KeepFacts.single_filter_elem in Hc as [Hin Hid]. done.
  - destruct (active_admin_by_hash db (sha256 t)) as [a|] eqn:Ha; [|done].
    intros [= <-]. exists t. split; [done|]. split; [done|].
    apply KeepFacts.single_filter_elem in Ha as [Hin [Hh Hact]]. done.
Qed.

Lemma resolve_owner `{Runtime} (db : DB) (t : string) (c : Customer) :
  t <> "" -> customer_by_id db t = Some c ->
  resolvePanelIdentity db (Some t)
  = (Some (IdCustomer (cust_license_key c) c), [QCustomerById t]).
Proof.
  intros Ht Hc. unfold resolvePanelIdentity.
  rewrite StoreFacts.str_truthy_Some by done. by rewrite Hc.
Qed.

Lemma customer_by_id_unique (db : DB) (c : Customer) :
  NoDup (map cust_id (customers db)) -> c ∈ customers db ->
  customer_by_id db (cust_id c) = Some c.
Proof.
  intros Hnd Hin. unfold customer_by_id. apply StoreFacts.single_Some.
  by apply (StoreFacts.filter_unique cust_id).
Qed.

End IdentityFacts.

(** X11. Resolution is sound: an identity is only ever built from a stored
    record.  A customer identity carries the license key of a stored customer
    whose id is the token; an admin identity carries the license key of a
    stored admin record that is active and whose token hash is the digest of
    the token, and is given only when the token is not a customer id found by
    the store. *)
Theorem resolved_identity_is_stored `{Runtime} (db : DB) (token : option string)
  (who : Identity) :
  fst (resolvePanelIdentity db token) = Some who ->
  exists t, token = Some t /\ t <> ""
    /\ match who with
       | IdCustomer k c => c ∈ customers db /\ cust_id c = t /\ k = cust_license_key c
       | IdAdmin k a =>
           a ∈ panel_admins db /\ pa_token_hash a = sha256 t /\ pa_active a = true
           /\ k = pa_license_key a /\ customer_by_id db t = None
       end.
Proof. apply IdentityFacts.resolve_sound. Qed.

Lemma resolved_identity_is_stored_witness :
  exists t, Some "invite-1" = Some t /\ t <> ""
    /\ sample_admin true ∈ panel_admins (sample_db None true "GG-A1B2-C3D4")
    /\ pa_token_hash (sample_admin true) = sha256 (Runtime := sample_runtime) t
    /\ pa_active (sample_admin true) = true
    /\ "GG-A1B2-C3D4" = pa_license_key (sample_admin true)
    /\ customer_by_id (sample_db None true "GG-A1B2-C3D4") t = None.
Proof.
  exact (resolved_identity_is_stored (H := sample_runtime)
           (sample_db None true "GG-A1B2-C3D4") (Some "invite-1")
           (IdAdmin "GG-A1B2-C3D4" (sample_admin true)) eq_refl).
Defined.

(** X12. The panel-admin login admits admins only: a non-empty token that
    the store finds as a customer id is refused, a missing token is answered 400, and
    a success reply always carries the license key, id, name and role of a
    stored, active admin record whose token hash is the digest of the
    token. *)
Theorem admin_login_admits_admins_only `{Runtime} (db : DB) :
  (forall t c, t <> "" -> customer_by_id db t = Some c ->
     panel_admins_login db (Some t) = json 200 [("success", JBool false)])
  /\ (forall token, str_truthy token = None ->
        panel_admins_login db token = json 400 [("success", JBool false)])
  /\ (forall token rest,
        body (panel_admins_login db token) = JObj (("success", JBool true) :: rest) ->
        exists t a,
          token = Some t /\ a ∈ panel_admins db /\ pa_active a = true
          /\ pa_token_hash a = sha256 t
          /\ rest = [("license_key", JStr (pa_license_key a));
                     ("admin", JObj [("id", JStr (pa_id a));
                                     ("name", JStr (pa_name a));
                                     ("role", JStr (pa_role a))]);
                     ("token", JStr t)]).
Proof.
  split; [|split].
  - intros t c Ht Hc. unfold panel_admins_login.
    rewrite StoreFacts.str_truthy_Some by done.
    by rewrite (IdentityFacts.resolve_owner db t c).
  - intros token Hnone. unfold panel_admins_login. by rewrite Hnone.
  - intros token rest. unfold panel_admins_login.
    destruct (str_truthy token) as [t|] eqn:Ht; [|done].
    apply StoreFacts.str_truthy_inv in Ht as [-> Hne].
    destruct (fst (resolvePanelIdentity db (Some t))) as [[k c|k a]|] eqn:Hwho;
      try done.
    apply IdentityFacts.resolve_sound in Hwho as (t' & [= <-] & _ & Hin & Hh & Hact & -> & _).
    intros [= <-]. by exists t, a.
Qed.

Lemma admin_login_admits_admins_only_witness :
  customer_by_id (sample_db None true "GG-A1B2-C3D4") "cust-1" = Some sample_customer
  /\ panel_admins_login (H := sample_runtime) (sample_db None true "GG-A1B2-C3D4")
       (Some "cust-1")
     = json 200 [("success", JBool false)].
Proof.
  split; [reflexivity|].
  exact (proj1 (admin_login_admits_admins_only (H := sample_runtime)
                  (sample_db None true "GG-A1B2-C3D4"))
           "cust-1" sample_customer ltac:(discriminate) eq_refl).
Defined.

(** X13. The token a successful login returns is a session of the same
    tenant: when customer ids identify customers and the token is not
    empty, it resolves to the customer identity with the license key the
    login reply carries.  A login whose user name and password digest match
    no stored customer, or that lacks either field, is refused. *)
Theorem login_token_resolves `{Runtime} (db : DB) (username password : option string) :
  (forall k tk,
     NoDup (map cust_id (customers db)) -> tk <> "" ->
     api_login db username password
     = json 200 [("success", JBool true); ("license_key", JStr k); ("token", JStr tk)] ->
     exists c, c ∈ customers db
       /\ resolvePanelIdentity db (Some tk)
          = (Some (IdCustomer k c), [QCustomerById tk]))
  /\ (forall u p,
        username = Some u -> password = Some p ->
        (forall c, c ∈ customers db ->
                   ~ (cust_username c = u /\ cust_password c = sha256 p)) ->
        api_login db username password = json 200 [("success", JBool false)])
  /\ (str_truthy username = None \/ str_truthy password = None ->
      api_login db username password = json 200 [("success", JBool false)]).
Proof.
  split; [|split].
  - intros k tk Hnd Htk. unfold api_login.
    destruct (str_truthy username) as [u|]; [|done].
    destruct (str_truthy password) as [p|]; [|done].
    destruct (single _) as [user|] eqn:Hu; [|done].
    intros [= <- <-]. apply KeepFacts.single_filter_elem in Hu as [Hin _].
    exists user. split; [done|].
    apply IdentityFacts.resolve_owner; [done|].
    by apply IdentityFacts.customer_by_id_unique.
  - intros u p -> -> Hno. unfold api_login.
    destruct (str_truthy (Some u)) as [u'|] eqn:Hu; [|done].
    destruct (str_truthy (Some p)) as [p'|] eqn:Hp; [|done].
    apply StoreFacts.str_truthy_inv in Hu as [[= <-] _].
    apply StoreFacts.str_truthy_inv in Hp as [[= <-] _].
    by rewrite StoreFacts.filter_none.
  - intros [Hn|Hn]; unfold api_login; rewrite Hn; [done|].
    by destruct (str_truthy username).
Qed.

Lemma login_token_resolves_witness :
  api_login (H := sample_runtime) (sample_db None true "GG-A1B2-C3D4")
    (Some "owner") (Some "pw")
  = json 200 [("success", JBool true); ("license_key", JStr "GG-A1B2-C3D4");
              ("token", JStr "cust-1")]
  /\ exists c, c ∈ customers (sample_db None true "GG-A1B2-C3D4")
       /\ resolvePanelIdentity (H := sample_runtime)
            (sample_db None true "GG-A1B2-C3D4") (Some "cust-1")
          = (Some (IdCustomer "GG-A1B2-C3D4" c), [QCustomerById "cust-1"]).
Proof.
  split; [reflexivity|].
  apply (proj1 (login_token_resolves (H := sample_runtime)
                  (sample_db None true "GG-A1B2-C3D4") (Some "owner") (Some "pw")));
    [apply NoDup_singleton | discriminate | reflexivity].
Defined.

(** X14. A customer created by an administrator can log in: when the
    create-customer handler succeeds and no earlier customer has the same
    user name and password digest, a login with that user name and password
    succeeds and returns the new row's id as token and the license key the
    customer was created for.  The handler answers 404 LICENSE_NOT_FOUND and
    stores nothing when the store does not find the license. *)
Theorem created_customer_can_login `{Runtime} (ADMIN_SECRET : string) (db : DB)
  (authorization : option string) (u p k new_id : string) :
  requireAdmin ADMIN_SECRET authorization = true ->
  u <> "" -> p <> "" -> k <> "" ->
  let out :=
    admin_create_customer ADMIN_SECRET db authorization (Some u) (Some p) (Some k)
      new_id WriteDone in
  (license_by_key db k = None ->
   out = (json 404 [("success", JBool false); ("error", JStr "LICENSE_NOT_FOUND")], db))
  /\ (forall lic,
        license_by_key db k = Some lic ->
        (forall c, c ∈ customers db ->
                   ~ (cust_username c = u /\ cust_password c = sha256 p)) ->
        status (fst out) = 200
        /\ customers (snd out) = customers db ++ [mkCustomer new_id u (sha256 p) k]
        /\ api_login (snd out) (Some u) (Some p)
           = json 200 [("success", JBool true); ("license_key", JStr k);
                       ("token", JStr new_id)]).
Proof.
  intros Hadmin Hu Hp Hk out. unfold out, admin_create_customer.
  rewrite Hadmin, !StoreFacts.str_truthy_Some by done.
  split; [by intros ->|].
  intros lic -> Hfresh. split; [done|]. split; [done|].
  unfold api_login. rewrite !StoreFacts.str_truthy_Some by done. simpl.
  rewrite filter_app, StoreFacts.filter_none by done.
  by rewrite filter_cons_True.
Qed.

Lemma created_customer_can_login_witness :
  requireAdmin "s3cret" (Some "Bearer s3cret") = true
  /\ license_by_key (sample_db None true "GG-A1B2-C3D4") "GG-A1B2-C3D4"
     = Some (sample_license None)
  /\ api_login (H := sample_runtime)
       (snd (admin_create_customer (H := sample_runtime) "s3cret"
               (sample_db None true "GG-A1B2-C3D4") (Some "Bearer s3cret")
               (Some "second") (Some "hunter2") (Some "GG-A1B2-C3D4") "cust-2"
               WriteDone))
       (Some "second") (Some "hunter2")
     = json 200 [("success", JBool true); ("license_key", JStr "GG-A1B2-C3D4");
                 ("token", JStr "cust-2")].
Proof.
  split; [reflexivity|]. split; [reflexivity|].
  refine (proj2 (proj2 (proj2
    (created_customer_can_login (H := sample_runtime) "s3cret"
       (sample_db None true "GG-A1B2-C3D4") (Some "Bearer s3cret")
       "second" "hunter2" "GG-A1B2-C3D4" "cust-2" eq_refl _ _ _)
    (sample_license None) eq_refl _))); try discriminate.
  intros c Hc [Hname _]. apply list_elem_of_singleton in Hc as ->. discriminate.
Defined.

(** ** Panel admins *)

Module AdminFacts.

Lemma hex_of_bytes_nonempty (b : byte) (bs : list byte) : hex_of_bytes (b :: bs) <> "".
Proof. done. Qed.

Lemma requireCustomer_Some (db : DB) (token : option string) (user : Customer) :
  requireCustomer db token = Some user ->
  exists t, token = Some t /\ t <> "" /\ customer_by_id db t = Some user.
Proof.
  unfold requireCustomer. destruct (str_truthy token) as [t|] eqn:Ht; [|done].
  apply StoreFacts.str_truthy_inv in Ht as [-> Hne]. intros Hc. by exists t.
Qed.

Lemma elem_of_update_where {A} (sel : A -> bool) (g : A -> A) (l : list A) (y : A) :
  y ∈ update_where sel g l ->
  exists x, x ∈ l /\ y = (if sel x then g x else x).
Proof.
  unfold update_where. rewrite list_elem_of_In, in_map_iff.
  intros (x & <- & Hx). exists x. by rewrite list_elem_of_In.
Qed.

(** An update of rows outside a selection does not change the selection. *)
Lemma filter_update_outside {A} (P : A -> Prop) `{!forall a, Decision (P a)}
  (sel : A -> bool) (g : A -> A) (l : list A) :
  (forall x, sel x = true -> ~ P x /\ ~ P (g x)) ->
  filter P (update_where sel g l) = filter P l.
Proof.
  intros Hout. induction l as [|a l IH]; [done|].
  unfold update_where in *. simpl. destruct (sel a) eqn:Ha.
  - destruct (Hout a Ha) as [H1 H2].
    by rewrite !filter_cons_False.
  - destruct (decide (P a)).
    + rewrite !filter_cons_True by done. by rewrite IH.
    + by rewrite !filter_cons_False.
Qed.

Lemma filter_filter_outside {A} (P Q : A -> Prop) `{!forall a, Decision (P a)}
  `{!forall a, Decision (Q a)} (l : list A) :
  (forall x, P x -> Q x) -> filter P (filter Q l) = filter P l.
Proof.
  intros HPQ. induction l as [|a l IH]; [done|].
  destruct (decide (Q a)) as [Hq|Hq].
  - rewrite (filter_cons_True Q) by done. destruct (decide (P a)).
    + rewrite !filter_cons_True by done. by rewrite IH.
    + by rewrite !filter_cons_False.
  - rewrite (filter_cons_False Q) by done.
    rewrite (filter_cons_False P); [done|]. intros Hp. by apply Hq, HPQ.
Qed.

End AdminFacts.

(** X15. An invite works: when an owner adds a panel admin and the store
    accepts the insert, the invite token of the reply (the hexadecimal text
    of the random bytes) resolves, in the new store, to the admin identity of
    the owner's license, and the panel-admin login with it succeeds for that
    license, provided the token is no customer id and no earlier admin record
    has its digest. *)
Theorem added_admin_can_login `{Runtime} (db : DB) (token name : option string)
  (steam discord : jsval) (role : option string) (b : byte) (random : list byte)
  (new_id : string) (created_at : Z) (user : Customer) (n : string) :
  requireCustomer db token = Some user -> str_truthy name = Some n ->
  let invite := randomToken (b :: random) in
  (forall c, c ∈ customers db -> cust_id c <> invite) ->
  (forall a, a ∈ panel_admins db -> pa_token_hash a <> sha256 invite) ->
  let out :=
    panel_admins_add db token name steam discord role (b :: random) new_id created_at
      WriteDone in
  let row :=
    mkPanelAdmin new_id (cust_license_key user) n (default "admin" (str_truthy role))
      true (sha256 invite) in
  status (fst out) = 200
  /\ panel_admins (snd out) = panel_admins db ++ [row]
  /\ fst (resolvePanelIdentity (snd out) (Some invite))
     = Some (IdAdmin (cust_license_key user) row)
  /\ panel_admins_login (snd out) (Some invite)
     = json 200 [("success", JBool true);
                 ("license_key", JStr (cust_license_key user));
                 ("admin", JObj [("id", JStr new_id); ("name", JStr n);
                                 ("role", JStr (default "admin" (str_truthy role)))]);
                 ("token", JStr invite)].
Proof.
  intros Huser Hname invite Hnocust Hfresh out row.
  assert (Hout : out =
    (json 200
       [("success", JBool true);
        ("admin", JObj [("id", JStr new_id); ("name", JStr n);
                        ("steam", js_or steam JNull); ("discord", js_or discord JNull);
                        ("role", JStr (default "admin" (str_truthy role)));
                        ("active", JBool true); ("created_at", JNum created_at)]);
        ("invite_token", JStr invite)],
     with_panel_admins db (panel_admins db ++ [row]))).
  { unfold out, panel_admins_add. by rewrite Huser, Hname. }
  assert (Hinv : invite <> "") by apply AdminFacts.hex_of_bytes_nonempty.
  assert (Hres : resolvePanelIdentity (snd out) (Some invite)
                 = (Some (IdAdmin (cust_license_key user) row),
                    [QCustomerById invite; QActiveAdminByHash (sha256 invite)])).
  { rewrite Hout. unfold resolvePanelIdentity.
    rewrite StoreFacts.str_truthy_Some by done.
    assert (Hc : customer_by_id (with_panel_admins db (panel_admins db ++ [row])) invite
                 = None).
    { unfold customer_by_id. simpl. by rewrite StoreFacts.filter_none. }
    assert (Ha : active_admin_by_hash (with_panel_admins db (panel_admins db ++ [row]))
                   (sha256 invite) = Some row).
    { unfold active_admin_by_hash. simpl. rewrite filter_app.
      rewrite StoreFacts.filter_none by (intros y Hy [Hh _]; by apply (Hfresh y)).
      by rewrite filter_cons_True. }
    simpl snd. by rewrite Hc, Ha. }
  split; [by rewrite Hout|]. split; [by rewrite Hout|]. split; [by rewrite Hres|].
  unfold panel_admins_login. rewrite StoreFacts.str_truthy_Some by done.
  by rewrite Hres.
Qed.

Lemma added_admin_can_login_witness :
  requireCustomer (sample_db None true "GG-A1B2-C3D4") (Some "cust-1")
  = Some sample_customer
  /\ status (panel_admins_login (H := sample_runtime)
               (snd (panel_admins_add (H := sample_runtime)
                       (sample_db None true "GG-A1B2-C3D4") (Some "cust-1")
                       (Some "helper") JUndefined JUndefined None
                       [x0a; xff; x10] "adm-2" 1700000000000 WriteDone))
               (Some "0aff10")) = 200.
Proof.
  split; [reflexivity|].
  pose proof (added_admin_can_login (H := sample_runtime)
                (sample_db None true "GG-A1B2-C3D4") (Some "cust-1") (Some "helper")
                JUndefined JUndefined None x0a [xff; x10] "adm-2" 1700000000000
                sample_customer "helper" eq_refl eq_refl) as Hthm.
  destruct Hthm as (_ & _ & _ & Hlogin).
  - intros c Hc. apply list_elem_of_singleton in Hc as ->. discriminate.
  - intros a Ha. apply list_elem_of_singleton in Ha as ->. discriminate.
  - exact (f_equal status Hlogin).
Defined.

(** X16. Revocation works: when token hashes identify admin records, after
    the owner of an admin's license switches that admin off (toggle with
    [active = false]) or removes it, and the store accepts the write, a token
    whose digest is that admin's token hash and that is no customer id no
    longer resolves to any identity. *)
Theorem revoked_admin_cannot_resolve `{Runtime} (db : DB) (token : option string)
  (user : Customer) (a : PanelAdmin) (id t : string) :
  requireCustomer db token = Some user ->
  NoDup (map pa_token_hash (panel_admins db)) ->
  a ∈ panel_admins db -> pa_id a = id -> id <> "" ->
  pa_license_key a = cust_license_key user ->
  pa_token_hash a = sha256 t ->
  (forall c, c ∈ customers db -> cust_id c <> t) ->
  fst (resolvePanelIdentity
         (snd (panel_admins_toggle db token (Some id) (JBool false) WriteDone))
         (Some t)) = None
  /\ fst (resolvePanelIdentity
            (snd (panel_admins_remove db token (Some id) WriteDone)) (Some t)) = None.
Proof.
  intros Huser Hnd Hin Hid Hne Hlic Hhash Hnocust.
  split.
  - unfold panel_admins_toggle. rewrite Huser.
    rewrite StoreFacts.str_truthy_Some by done. simpl snd.
    unfold resolvePanelIdentity.
    destruct (str_truthy (Some t)) as [t'|] eqn:Ht; [|done].
    apply StoreFacts.str_truthy_inv in Ht as [[= <-] _].
    assert (Hc : customer_by_id
                   (with_panel_admins db
                      (update_where
                         (fun a0 => bool_decide (pa_id a0 = id)
                                    && bool_decide (pa_license_key a0 = cust_license_key user))
                         (set_active false) (panel_admins db))) t = None).
    { unfold customer_by_id. simpl. by rewrite StoreFacts.filter_none. }
    rewrite Hc. unfold active_admin_by_hash. simpl panel_admins.
    rewrite StoreFacts.filter_none; [done|].
    intros y Hy [Hh Hact].
    apply AdminFacts.elem_of_update_where in Hy as (x & Hx & ->).
    destruct (bool_decide (pa_id x = id) && bool_decide (pa_license_key x = cust_license_key user)) eqn:Hsel;
      [done|].
    assert (x = a) as -> by
      (apply (KeepFacts.key_identifies pa_token_hash (panel_admins db)); congruence).
    rewrite !bool_decide_eq_true_2 in Hsel by done. done.
  - unfold panel_admins_remove. rewrite Huser.
    rewrite StoreFacts.str_truthy_Some by done. simpl snd.
    unfold resolvePanelIdentity.
    destruct (str_truthy (Some t)) as [t'|] eqn:Ht; [|done].
    apply StoreFacts.str_truthy_inv in Ht as [[= <-] _].
    assert (Hc : customer_by_id
                   (with_panel_admins db
                      (filter (fun a0 => ~ (pa_id a0 = id
                                            /\ pa_license_key a0 = cust_license_key user))
                         (panel_admins db))) t = None).
    { unfold customer_by_id. simpl. by rewrite StoreFacts.filter_none. }
    rewrite Hc. unfold active_admin_by_hash. simpl panel_admins.
    rewrite StoreFacts.filter_none; [done|].
    intros y Hy [Hh Hact]. apply list_elem_of_filter in Hy as [Hkeep Hy].
    assert (y = a) as -> by
      (apply (KeepFacts.key_identifies pa_token_hash (panel_admins db)); congruence).
    by apply Hkeep.
Qed.

Lemma revoked_admin_cannot_resolve_witness :
  fst (resolvePanelIdentity (H := sample_runtime)
         (sample_db None true "GG-A1B2-C3D4") (Some "invite-1"))
  = Some (IdAdmin "GG-A1B2-C3D4" (sample_admin true))
  /\ fst (resolvePanelIdentity (H := sample_runtime)
            (snd (panel_admins_toggle (sample_db None true "GG-A1B2-C3D4")
                    (Some "cust-1") (Some "adm-1") (JBool false) WriteDone))
            (Some "invite-1")) = None.
Proof.
  split; [reflexivity|].
  refine (proj1 (revoked_admin_cannot_resolve (H := sample_runtime)
                   (sample_db None true "GG-A1B2-C3D4") (Some "cust-1")
                   sample_customer (sample_admin true) "adm-1" "invite-1"
                   eq_refl _ _ eq_refl _ eq_refl eq_refl _)).
  - apply NoDup_singleton.
  - apply list_elem_of_here.
  - discriminate.
  - intros c Hc. apply list_elem_of_singleton in Hc as ->. discriminate.
Defined.

(** X17. An owner can only touch the panel admins of the owner's own
    license: whatever the request and whatever the store does, the admin
    records of any other license are the same, in the same order, after
    add, remove and toggle as before. *)
Theorem admin_management_is_tenant_scoped `{Runtime} (db : DB) (token : option string)
  (other : string) :
  (forall user, requireCustomer db token = Some user -> cust_license_key user <> other) ->
  (forall name steam discord role random new_id created_at insert,
     filter (fun a => pa_license_key a = other)
       (panel_admins (snd (panel_admins_add db token name steam discord role random
                             new_id created_at insert)))
     = filter (fun a => pa_license_key a = other) (panel_admins db))
  /\ (forall id delete,
        filter (fun a => pa_license_key a = other)
          (panel_admins (snd (panel_admins_remove db token id delete)))
        = filter (fun a => pa_license_key a = other) (panel_admins db))
  /\ (forall id active update,
        filter (fun a => pa_license_key a = other)
          (panel_admins (snd (panel_admins_toggle db token id active update)))
        = filter (fun a => pa_license_key a = other) (panel_admins db)).
Proof.
  intros Hother. split; [|split].
  - intros name steam discord role random new_id created_at insert.
    unfold panel_admins_add.
    destruct (requireCustomer db token) as [user|] eqn:Hu; [|done].
    specialize (Hother user eq_refl).
    destruct (str_truthy name); [|done]. destruct insert; try done.
    simpl. rewrite filter_app, filter_cons_False by done.
    by rewrite filter_nil, app_nil_r.
  - intros id delete. unfold panel_admins_remove.
    destruct (requireCustomer db token) as [user|] eqn:Hu; [|done].
    specialize (Hother user eq_refl).
    destruct (str_truthy id); [|done]. destruct delete; try done.
    simpl. apply AdminFacts.filter_filter_outside.
    intros x Hx [_ Hk]. congruence.
  - intros id active update. unfold panel_admins_toggle.
    destruct (requireCustomer db token) as [user|] eqn:Hu; [|done].
    specialize (Hother user eq_refl).
    destruct (str_truthy id); [|done]. destruct active; try done.
    destruct update; try done.
    simpl. apply AdminFacts.filter_update_outside.
    intros x Hsel. apply andb_true_iff in Hsel as [_ Hk].
    apply bool_decide_eq_true in Hk. simpl. split; congruence.
Qed.

Lemma admin_management_is_tenant_scoped_witness :
  filter (fun a => pa_license_key a = "GG-FFFF-0000")
    (panel_admins
       (snd (panel_admins_toggle
               (mkDB [] [sample_customer]
                  [mkPanelAdmin "adm-9" "GG-FFFF-0000" "theirs" "admin" true "sha256:x"]
                  [])
               (Some "cust-1") (Some "adm-9") (JBool false) WriteDone)))
  = [mkPanelAdmin "adm-9" "GG-FFFF-0000" "theirs" "admin" true "sha256:x"].
Proof.
  refine (proj2 (proj2 (admin_management_is_tenant_scoped (H := sample_runtime)
            (mkDB [] [sample_customer]
               [mkPanelAdmin "adm-9" "GG-FFFF-0000" "theirs" "admin" true "sha256:x"] [])
            (Some "cust-1") "GG-FFFF-0000" _)) (Some "adm-9") (JBool false) WriteDone).
  intros user [= <-]. discriminate.
Defined.



(** X19. The legacy lift needs no token: for every ban id it answers
    success, sets [expires_at] to the time of the call on every ban with that
    id, whatever its tenant, keeping its other columns, and leaves every
    other ban as it is; it never enqueues a command.  On a ban that the authorized lift would lift, it
    leaves the store exactly as the authorized lift does. *)
Theorem legacy_lift_is_unconditional `{Runtime} (db : DB) (now : Z) (banId : string) :
  let out := server_ban_legacy_delete db now banId in
  let lifted := fun b =>
    mkBan (ban_license_key b) (ban_player_id b) (ban_reason b) (ban_duration b)
      banId (ban_created_at b) (Some now) (ban_banned_by b) (ban_evidence_url b)
      (ban_identifiers b) in
  fst out = json 200 [("success", JBool true)]
  /\ bans (snd out)
     = map (fun b => if bool_decide (ban_ban_id b = banId) then lifted b else b)
         (bans db)
  /\ (forall b, b ∈ bans db -> ban_ban_id b = banId ->
        lifted b ∈ bans (snd out) /\ ban_expires_at (lifted b) = Some now)
  /\ (forall b, b ∈ bans db -> ban_ban_id b <> banId -> b ∈ bans (snd out))
  /\ licenses (snd out) = licenses db /\ customers (snd out) = customers db
  /\ panel_admins (snd out) = panel_admins db
  /\ (forall q t_id t_created authorization who ban,
        fst (resolvePanelIdentity db (bearer_token authorization)) = Some who ->
        ban_by_id db banId = Some ban ->
        ban_license_key ban = identity_license_key who ->
        snd (fst (server_unban db q now t_id t_created authorization banId)) = snd out).
Proof.
  intros out lifted.
  assert (Hbans : bans (snd out)
                  = map (fun b => if bool_decide (ban_ban_id b = banId)
                                  then lifted b else b) (bans db)).
  { simpl. unfold update_where. apply map_ext. intros b.
    case_bool_decide as Hid; [|done]. unfold set_expires_at, lifted. by rewrite Hid. }
  split; [done|]. split; [exact Hbans|]. split; [|split].
  - intros b Hin Hid. split; [|done]. rewrite Hbans.
    pose proof (StoreFacts.elem_of_map
                  (fun r => if bool_decide (ban_ban_id r = banId)
                            then lifted r else r) (bans db) b Hin) as Hm.
    simpl in Hm. by rewrite bool_decide_eq_true_2 in Hm.
  - intros b Hin Hid. by apply UnbanFacts.lifted_others.
  - do 3 (split; [done|]).
    intros q t_id t_created authorization who ban Hwho Hban Hkey.
    unfold server_unban. rewrite Hwho, Hban.
    by rewrite decide_False by (intros Hne; by apply Hne).
Qed.

Lemma legacy_lift_is_unconditional_witness :
  ban_expires_at (sample_ban "GG-FFFF-0000") = None
  /\ ban_expires_at
       <$> bans (snd (server_ban_legacy_delete (sample_db None true "GG-FFFF-0000")
                        1700000000100 "GG-1700000000000"))
     = [Some 1700000000100].
Proof.
  split; [reflexivity|].
  pose proof (legacy_lift_is_unconditional (H := sample_runtime)
                (sample_db None true "GG-FFFF-0000") 1700000000100 "GG-1700000000000")
    as (_ & Hbans & _).
  by rewrite Hbans.
Defined.

(** ** Identifier lists *)

Module NormFacts.

Lemma dedup_first_elem (seen xs : list string) (x : string) :
  x ∈ dedup_first seen xs <-> x ∈ xs /\ x ∉ seen.
Proof.
  revert seen. induction xs as [|a xs IH]; intros seen; simpl.
  - split; [by intros ?%elem_of_nil | by intros [?%elem_of_nil _]].
  - destruct (bool_decide (a ∈ seen)) eqn:Ha.
    + apply bool_decide_eq_true in Ha. rewrite IH, elem_of_cons.
      split; [intros [? ?]; auto | intros [[->|?] ?]; [done | auto]].
    + apply bool_decide_eq_false in Ha. rewrite !elem_of_cons, IH, elem_of_cons.
      split.
      * intros [-> | [? ?]]; [auto | split; [auto | tauto]].
      * intros [[-> | Hin] Hns]; [auto|].
        destruct (decide (x = a)) as [->|Hne]; [auto|]. right. split; [done|].
        intros [? | ?]; done.
Qed.

Lemma dedup_first_NoDup (seen xs : list string) : NoDup (dedup_first seen xs).
Proof.
  revert seen. induction xs as [|a xs IH]; intros seen; simpl; [constructor|].
  destruct (bool_decide (a ∈ seen)); [apply IH|].
  apply NoDup_cons. split; [|apply IH].
  rewrite dedup_first_elem. intros [_ Hn]. apply Hn, list_elem_of_here.
Qed.

Lemma map_result_ok {A B} (f : A -> Result B) (xs : list A) (ys : list B) :
  map_result f xs = Ok ys <-> Forall2 (fun x y => f x = Ok y) xs ys.
Proof.
  revert ys. induction xs as [|x xs IH]; intros ys; simpl.
  - split; [intros [= <-]; constructor | by intros ->%Forall2_nil_inv_l].
  - destruct (f x) as [y|] eqn:Hx; simpl.
    + destruct (map_result f xs) as [ys'|]; simpl.
      * split.
        -- intros [= <-]. constructor; [done|]. by apply IH.
        -- intros (y' & ys'' & Hy & Hys & ->)%Forall2_cons_inv_l.
           apply IH in Hys. congruence.
      * split; [done|].
        intros (y' & ys'' & Hy & Hys & ->)%Forall2_cons_inv_l.
        by apply IH in Hys.
    + split; [done|].
      intros (y' & ys'' & Hy & Hys & ->)%Forall2_cons_inv_l. congruence.
Qed.

Lemma map_result_throw {A B} (f : A -> Result B) (xs : list A) :
  map_result f xs = Throw <-> exists x, x ∈ xs /\ f x = Throw.
Proof.
  induction xs as [|x xs IH]; simpl.
  - split; [done | by intros (? & ?%elem_of_nil & _)].
  - destruct (f x) as [y|] eqn:Hx; simpl.
    + destruct (map_result f xs) as [ys'|]; simpl.
      * split; [done|]. intros (z & [->|Hz]%elem_of_cons & Hthrow); [congruence|].
        assert (Ok ys' = @Throw (list B)) as Hno; [|done].
        apply (proj2 IH). by exists z.
      * split; [|done]. intros _. destruct (proj1 IH eq_refl) as (z & Hz & Hthrow).
        exists z. split; [by apply list_elem_of_further|done].
    + split; [|done]. intros _. exists x. split; [apply list_elem_of_here|done].
Qed.

Lemma Forall2_elem_r {A B} (R : A -> B -> Prop) xs ys y :
  Forall2 R xs ys -> y ∈ ys -> exists x, x ∈ xs /\ R x y.
Proof.
  induction 1 as [|x y' xs ys Hxy _ IH]; [by intros ?%elem_of_nil|].
  intros [->|Hin]%elem_of_cons.
  - exists x. split; [apply list_elem_of_here|done].
  - destruct (IH Hin) as (x' & Hx' & HR). exists x'.
    split; [by apply list_elem_of_further|done].
Qed.

Lemma Forall2_elem_l {A B} (R : A -> B -> Prop) xs ys x :
  Forall2 R xs ys -> x ∈ xs -> exists y, y ∈ ys /\ R x y.
Proof.
  induction 1 as [|x' y xs ys Hxy _ IH]; [by intros ?%elem_of_nil|].
  intros [->|Hin]%elem_of_cons.
  - exists y. split; [apply list_elem_of_here|done].
  - destruct (IH Hin) as (y' & Hy' & HR). exists y'.
    split; [by apply list_elem_of_further|done].
Qed.

(** The text of one entry: [String(v || "").trim()]. *)
Lemma entry_text `{Runtime} (x : jsval) (s : string) :
  (t <- js_String (js_or x (JStr "")) ;; Ok (js_trim t)) = Ok s
  <-> exists t, js_String (js_or x (JStr "")) = Ok t /\ s = js_trim t.
Proof.
  destruct (js_String (js_or x (JStr ""))) as [t|]; simpl.
  - split; [intros [= <-]; by exists t | by intros (t' & [= <-] & ->)].
  - split; [done | by intros (? & ? & _)].
Qed.

Lemma normalize_elem `{Runtime} (v : jsval) (l : list string) (s : string) :
  normalizeIdentifiers v = Ok l ->
  s ∈ l
  <-> s <> ""
      /\ exists xs x t, v = JArr xs /\ x ∈ xs
                        /\ js_String (js_or x (JStr "")) = Ok t /\ s = js_trim t.
Proof.
  unfold normalizeIdentifiers. destruct v as [| | | | |xs|];
    try (intros [= <-];
         split; [by intros ?%elem_of_nil | by intros (_ & ? & ? & ? & ? & _)]).
  destruct (map_result _ xs) as [texts|] eqn:Hmap; [|done]. simpl. intros [= <-].
  apply map_result_ok in Hmap.
  rewrite dedup_first_elem, list_elem_of_filter. split.
  - intros [[Hne Hin] _]. split; [done|].
    destruct (Forall2_elem_r _ _ _ _ Hmap Hin) as (x & Hx & Hf).
    apply entry_text in Hf as (t & Ht & ->). by exists xs, x, t.
  - intros (Hne & xs' & x & t & [= <-] & Hx & Ht & ->).
    split; [|apply not_elem_of_nil]. split; [done|].
    destruct (Forall2_elem_l _ _ _ _ Hmap Hx) as (y & Hy & Hf).
    apply entry_text in Hf as (t' & Ht' & ->). congruence.
Qed.

Lemma normalize_NoDup `{Runtime} (v : jsval) (l : list string) :
  normalizeIdentifiers v = Ok l -> NoDup l.
Proof.
  unfold normalizeIdentifiers. destruct v; try (intros [= <-]; constructor).
  destruct (map_result _ _); [|done]. simpl. intros [= <-]. apply dedup_first_NoDup.
Qed.

Lemma normalize_texts `{Runtime} (ss : list string) :
  normalizeIdentifiers (JArr (map JStr ss))
  = Ok (dedup_first [] (filter (fun s => s <> "") (map js_trim ss))).
Proof.
  unfold normalizeIdentifiers.
  assert (Hmap : map_result (fun x => s <- js_String (js_or x (JStr "")) ;; Ok (js_trim s))
                   (map JStr ss) = Ok (map js_trim ss)).
  { induction ss as [|s ss IH]; [done|]. simpl. rewrite IH. simpl.
    unfold js_or. simpl. by destruct (String.eqb_spec s "") as [->|]. }
  by rewrite Hmap.
Qed.

End NormFacts.

(** X20. The identifiers stored with a ban are clean: when the
    normalization returns, the list has no duplicates and no empty entry,
    and holds exactly the non-empty trimmed texts of the entries of the
    array it is given, each at its first occurrence; what is not an array
    gives the empty list.  An array of texts always normalizes; the
    normalization throws exactly when the text of some entry cannot be
    taken (an object with an own [toString] property). *)
Theorem normalized_identifiers_are_clean `{Runtime} (v : jsval) :
  (forall l, normalizeIdentifiers v = Ok l ->
     NoDup l /\ ("" ∉ l)
     /\ (forall s, s ∈ l
                   <-> s <> ""
                       /\ exists xs x t, v = JArr xs /\ x ∈ xs
                                         /\ js_String (js_or x (JStr "")) = Ok t
                                         /\ s = js_trim t))
  /\ (Array_isArray v = false -> normalizeIdentifiers v = Ok [])
  /\ (forall xs, v = JArr xs ->
        (normalizeIdentifiers v = Throw
         <-> exists x, x ∈ xs /\ js_String (js_or x (JStr "")) = Throw))
  /\ (forall ss, v = JArr (map JStr ss) ->
        normalizeIdentifiers v
        = Ok (dedup_first [] (filter (fun s => s <> "") (map js_trim ss))))
  /\ normalizeIdentifiers
       (JArr [JStr " steam:1 "; JNull; JStr "ip:10.0.0.7"; JStr "steam:1";
              JStr ("  " +:+ no_break_space); JNum 7; JObj []; JArr [JNum 1; JNull; JStr "a"]])
     = Ok ["steam:1"; "ip:10.0.0.7"; "7"; "[object Object]"; "1,,a"]
  /\ normalizeIdentifiers (JArr [JStr "steam:1"; JObj [("toString", JNum 1)]]) = Throw.
Proof.
  split; [|split; [|split; [|split; [|split]]]].
  - intros l Hl. split; [by apply (NormFacts.normalize_NoDup v)|]. split.
    + intros Hin. by apply (NormFacts.normalize_elem v l "" Hl) in Hin as [Hne _].
    + intros s. by apply NormFacts.normalize_elem.
  - by destruct v.
  - intros xs ->. unfold normalizeIdentifiers.
    destruct (map_result _ xs) as [texts|] eqn:Hmap; simpl.
    + split; [done|]. intros (x & Hx & Hthrow).
      assert (map_result (fun x => s <- js_String (js_or x (JStr "")) ;; Ok (js_trim s)) xs
              = Throw) as Hno; [|congruence].
      apply NormFacts.map_result_throw. exists x. split; [done|]. by rewrite Hthrow.
    + split; [|done]. intros _.
      apply NormFacts.map_result_throw in Hmap as (x & Hx & Hthrow).
      exists x. split; [done|].
      by destruct (js_String (js_or x (JStr ""))).
  - intros ss ->. apply NormFacts.normalize_texts.
  - reflexivity.
  - reflexivity.
Qed.

Lemma normalized_identifiers_are_clean_witness :
  Array_isArray (JStr "steam:1") = false
  /\ normalizeIdentifiers (H := sample_runtime) (JStr "steam:1") = Ok []
  /\ normalizeIdentifiers (H := sample_runtime)
       (JArr (map JStr [" steam:1 "; "ip:10.0.0.7"; "steam:1"; "  "]))
     = Ok ["steam:1"; "ip:10.0.0.7"].
Proof.
  pose proof (normalized_identifiers_are_clean (H := sample_runtime) (JStr "steam:1"))
    as (_ & Hother & _).
  pose proof (normalized_identifiers_are_clean (H := sample_runtime)
                (JArr (map JStr [" steam:1 "; "ip:10.0.0.7"; "steam:1"; "  "])))
    as (_ & _ & _ & Htexts & _).
  split; [reflexivity|]. split; [exact (Hother eq_refl)|].
  exact (Htexts _ eq_refl).
Defined.

(** X21. Creating a ban stores exactly one row or none: a reply other than
    200 leaves the store as it is (400 when the license key or the player is
    missing); a 200 reply appends one ban, for the request's license key,
    whose ban id is the one in the reply (the request's, or "GG-" and the
    clock when the request has none) and whose identifiers are clean; when
    no earlier ban has that id, the store then finds the new ban under it. *)
Theorem ban_creation_stores_one_row `{Runtime} (db : DB) (t_id t_created t_expiry : Z)
  (req : BanRequest) :
  let out := server_ban db t_id t_created t_expiry req in
  (status (fst out) <> 200 -> snd out = db)
  /\ (str_truthy (br_license_key req) = None \/ truthy (br_player req) = false ->
      out = (json 400 [("success", JBool false)], db))
  /\ (status (fst out) = 200 ->
      exists row,
        fst out = json 200 [("success", JBool true); ("ban_id", JStr (ban_ban_id row))]
        /\ snd out = with_bans db (bans db ++ [row])
        /\ str_truthy (br_license_key req) = Some (ban_license_key row)
        /\ ban_ban_id row
           = default ("GG-" +:+ pretty t_id) (str_truthy (br_ban_id req))
        /\ ban_player_id row = br_player req
        /\ NoDup (ban_identifiers row) /\ ("" ∉ ban_identifiers row)
        /\ ((forall b, b ∈ bans db -> ban_ban_id b <> ban_ban_id row) ->
            ban_by_id (snd out) (ban_ban_id row) = Some row)).
Proof.
  intros out. unfold out, server_ban.
  destruct (str_truthy (br_license_key req)) as [k|] eqn:Hk.
  2: { split; [done|]. split; [done|]. done. }
  destruct (truthy (br_player req)) eqn:Hp.
  2: { split; [done|]. split; [done|]. done. }
  split; [|split; [by intros [?|?]|]].
  - destruct (if truthy (br_created_at req) then _ else _) as [c|]; [|done].
    cbn [rbind]. destruct (computeExpiresAt _ _ _); [|done].
    cbn [rbind]. by destruct (normalizeIdentifiers _).
  - destruct (if truthy (br_created_at req) then _ else _) as [c|]; [|done].
    cbn [rbind]. destruct (computeExpiresAt _ _ _) as [e|]; [|done].
    cbn [rbind].
    destruct (normalizeIdentifiers (br_identifiers req)) as [ids|] eqn:Hids; [|done].
    cbn [rbind]. intros _.
    match goal with |- context [bans db ++ [?r]] => exists r end.
    split; [reflexivity|]. split; [reflexivity|].
    split; [reflexivity|]. split.
    { simpl. by destruct (str_truthy (br_ban_id req)). }
    split; [reflexivity|]. simpl ban_identifiers.
    split; [by apply (NormFacts.normalize_NoDup _ _ Hids)|].
    split; [intros Hin; by apply (NormFacts.normalize_elem _ _ _ Hids) in Hin as [? _]|].
    intros Hfresh. unfold ban_by_id. simpl bans. apply StoreFacts.single_Some.
    rewrite filter_app, StoreFacts.filter_none by done.
    by rewrite filter_cons_True.
Qed.

Lemma ban_creation_stores_one_row_witness :
  status (fst (server_ban (H := sample_runtime) (sample_db None true "GG-A1B2-C3D4")
                 1700000000000 1700000000001 1700000000002 sample_request_ban)) = 200
  /\ exists row,
       snd (server_ban (H := sample_runtime) (sample_db None true "GG-A1B2-C3D4")
              1700000000000 1700000000001 1700000000002 sample_request_ban)
       = with_bans (sample_db None true "GG-A1B2-C3D4")
           (bans (sample_db None true "GG-A1B2-C3D4") ++ [row])
       /\ ban_ban_id row = "GG-BAN-7".
Proof.
  split; [reflexivity|].
  destruct (proj2 (proj2 (ban_creation_stores_one_row (H := sample_runtime)
              (sample_db None true "GG-A1B2-C3D4")
              1700000000000 1700000000001 1700000000002 sample_request_ban)) eq_refl)
    as (row & _ & Hstore & _ & Hid & _).
  exists row. split; [exact Hstore | exact Hid].
Defined.

(** ** Well-formed durations *)

Module ShapeFacts.

Lemma digit_plain (c : ascii) :
  is_digit c = true -> is_ws c = false /\ to_lower c = c /\ c <> "p"%char.
Proof.
  destruct c as [[] [] [] [] [] [] [] []]; vm_compute; intros E;
    try discriminate E; repeat split; discriminate.
Qed.

Lemma unit_plain (u : ascii) :
  u = "m"%char \/ u = "h"%char \/ u = "d"%char ->
  is_ws u = false /\ to_lower u = u.
Proof. intros [-> | [-> | ->]]; by vm_compute. Qed.

(** A byte below 128 that is no white space starts no white space, and a
    text that ends with it ends with none. *)
Lemma drop_ws_head (c : ascii) (l : list ascii) :
  is_ws c = false -> (N_of_ascii c < 128)%N -> drop_ws (c :: l) = c :: l.
Proof.
  intros Hc Hlt. simpl. rewrite Hc.
  assert (H2 : forall b, is_ws2 c b = false).
  { intros b. unfold is_ws2. destruct (N.eqb_spec (N_of_ascii c) 194); [lia|done]. }
  assert (H3 : forall b z, is_ws3 c b z = false).
  { intros b z. unfold is_ws3.
    repeat match goal with
           | |- context [(N_of_ascii c =? ?n)%N] =>
               destruct (N.eqb_spec (N_of_ascii c) n); [lia|]
           end.
    reflexivity. }
  destruct l as [|b [|z l]]; [done| |]; rewrite H2; [done|]. by rewrite H3.
Qed.

Lemma drop_ws_rev_head (c : ascii) (l : list ascii) :
  is_ws c = false -> (N_of_ascii c < 128)%N -> drop_ws_rev (c :: l) = c :: l.
Proof.
  intros Hc Hlt. simpl. rewrite Hc.
  assert (H2 : forall b, is_ws2 b c = false).
  { intros b. unfold is_ws2. destruct (N.eqb_spec (N_of_ascii c) 160); [lia|].
    apply andb_false_r. }
  assert (H3 : forall a b, is_ws3 a b c = false).
  { intros a b. unfold is_ws3.
    repeat match goal with
           | |- context [(N_of_ascii c =? ?n)%N] =>
               destruct (N.eqb_spec (N_of_ascii c) n); [lia|]
           end.
    destruct (N.leb_spec 128 (N_of_ascii c)); [lia|].
    cbn [andb orb]. by rewrite !andb_false_r. }
  destruct l as [|b [|a l]]; [done| |]; rewrite H2; [done|]. by rewrite H3.
Qed.

Lemma digit_ascii (c : ascii) : is_digit c = true -> (N_of_ascii c < 128)%N.
Proof.
  unfold is_digit. intros [_ Hle%N.leb_le]%andb_true_iff. lia.
Qed.

Lemma unit_ascii (u : ascii) :
  u = "m"%char \/ u = "h"%char \/ u = "d"%char -> (N_of_ascii u < 128)%N.
Proof. intros [-> | [-> | ->]]; by vm_compute. Qed.

Lemma map_to_lower_digits (ds : list ascii) :
  Forall (fun c => is_digit c = true) ds -> map to_lower ds = ds.
Proof.
  induction 1 as [|c ds Hc _ IH]; [done|]. simpl.
  destruct (digit_plain c Hc) as (_ & -> & _). by rewrite IH.
Qed.

Lemma forallb_digits (ds : list ascii) :
  Forall (fun c => is_digit c = true) ds -> forallb is_digit (rev ds) = true.
Proof.
  intros Hall. apply forallb_forall. intros x Hx. apply in_rev in Hx.
  rewrite Forall_forall in Hall. apply Hall. by apply list_elem_of_In.
Qed.

(** A text of the duration shape is its own normal form and is matched as
    its digits and its unit. *)
Lemma shaped_normal `{Runtime} (ds : list ascii) (u : ascii) :
  ds <> [] -> Forall (fun c => is_digit c = true) ds ->
  u = "m"%char \/ u = "h"%char \/ u = "d"%char ->
  let s := string_of_list_ascii (ds ++ [u]) in
  normalize_duration (JStr s) = Ok s
  /\ match_duration s = Some (ds, u)
  /\ s <> "p" /\ s <> "perm" /\ s <> "permanent".
Proof.
  intros Hne Hds Hu s.
  destruct ds as [|d ds']; [done|]. clear Hne.
  pose proof (Forall_inv Hds) as Hd.
  destruct (digit_plain d Hd) as (Hdws & Hdlow & Hdp).
  destruct (unit_plain u Hu) as (Huws & Hulow).
  assert (Hs : s = String d (string_of_list_ascii (ds' ++ [u]))) by reflexivity.
  assert (Htrim : js_trim s = s).
  { unfold js_trim, s. rewrite list_ascii_of_string_of_list_ascii.
    change ((d :: ds') ++ [u]) with (d :: (ds' ++ [u])).
    rewrite drop_ws_head by (done || by apply digit_ascii).
    change (d :: (ds' ++ [u])) with ((d :: ds') ++ [u]).
    rewrite rev_app_distr.
    change (rev [u] ++ rev (d :: ds')) with (u :: rev (d :: ds')).
    rewrite drop_ws_rev_head by (done || by apply unit_ascii).
    change (rev (u :: rev (d :: ds'))) with (rev (rev (d :: ds')) ++ [u]).
    by rewrite rev_involutive. }
  assert (Hlow : toLowerCase s = s).
  { unfold toLowerCase, s. rewrite list_ascii_of_string_of_list_ascii.
    rewrite map_app, map_to_lower_digits by done. simpl. by rewrite Hulow. }
  assert (Htruthy : js_or (JStr s) (JStr "P") = JStr s) by (by rewrite Hs).
  split.
  { unfold normalize_duration. rewrite Htruthy. cbn [js_String rbind].
    by rewrite Htrim, Hlow. }
  split.
  { unfold match_duration, s. rewrite list_ascii_of_string_of_list_ascii.
    rewrite rev_app_distr.
    change (rev [u] ++ rev (d :: ds')) with (u :: rev (d :: ds')). cbv iota.
    rewrite (forallb_digits (d :: ds')) by done.
    assert (Hunit : bool_decide (u = "m"%char) || bool_decide (u = "h"%char)
                    || bool_decide (u = "d"%char) = true).
    { destruct Hu as [-> | [-> | ->]]; reflexivity. }
    rewrite Hunit.
    assert (Hnn : bool_decide (rev (d :: ds') = []) = false).
    { apply bool_decide_eq_false. intros Hnil.
      apply (f_equal (@rev ascii)) in Hnil. rewrite rev_involutive in Hnil. done. }
    rewrite Hnn. cbn [negb andb]. by rewrite rev_involutive. }
  rewrite Hs. repeat split; intros [= E _]; by apply Hdp.
Qed.

Lemma shaped_compute `{Runtime} (now : Z) (ds : list ascii) (u : ascii) (e : jsval) :
  truthy e = false -> ds <> [] -> Forall (fun c => is_digit c = true) ds ->
  u = "m"%char \/ u = "h"%char \/ u = "d"%char ->
  computeExpiresAt now (JStr (string_of_list_ascii (ds ++ [u]))) e
  = (t <- toISOString (TimeClip (now + digits_value ds * unit_ms u)) ;; Ok (Some t)).
Proof.
  intros He Hne Hds Hu.
  destruct (shaped_normal ds u Hne Hds Hu) as (Hn & Hm & H1 & H2 & H3).
  rewrite DurationFacts.not_explicit by done. rewrite Hn. cbn [rbind].
  unfold expiry_of_text. rewrite Hm.
  rewrite !bool_decide_eq_false_2 by done. cbn [orb]. unfold unit_ms.
  by repeat case_bool_decide.
Qed.

End ShapeFacts.

(** X22. Every well-formed duration (decimal digits followed by m, h or d),
    given with no explicit expiry, yields [now] plus the digits' value times
    the unit (60000, 3600000 or 86400000 ms) when that time is
    representable, and throws when it is not; in the latter case the ban
    handler answers 500 and stores nothing. *)
Theorem shaped_duration_gives_offset `{Runtime} (now : Z) (ds : list ascii) (u : ascii)
  (e : jsval) :
  truthy e = false -> ds <> [] -> Forall (fun c => is_digit c = true) ds ->
  u = "m"%char \/ u = "h"%char \/ u = "d"%char ->
  let d := JStr (string_of_list_ascii (ds ++ [u])) in
  let t := now + digits_value ds * unit_ms u in
  (Z.abs t <= maxTime -> computeExpiresAt now d e = Ok (Some t))
  /\ (maxTime < Z.abs t -> computeExpiresAt now d e = Throw)
  /\ (maxTime < Z.abs t ->
      forall db t_id t_created req k,
        br_duration req = d -> br_expires_at req = e ->
        str_truthy (br_license_key req) = Some k -> truthy (br_player req) = true ->
        server_ban db t_id t_created now req = (json 500 [("success", JBool false)], db)).
Proof.
  intros He Hne Hds Hu d t.
  pose proof (ShapeFacts.shaped_compute now ds u e He Hne Hds Hu) as Hc.
  fold d t in Hc.
  assert (Hin : Z.abs t <= maxTime -> computeExpiresAt now d e = Ok (Some t)).
  { intros Hle. rewrite Hc. unfold TimeClip. by rewrite (proj2 (Z.leb_le _ _) Hle). }
  assert (Hout : maxTime < Z.abs t -> computeExpiresAt now d e = Throw).
  { intros Hlt. rewrite Hc. unfold TimeClip. by rewrite (proj2 (Z.leb_gt _ _) Hlt). }
  split; [exact Hin|]. split; [exact Hout|].
  intros Hlt db t_id t_created req k Hd Hexp Hk Hp. unfold server_ban.
  rewrite Hk, Hp, Hd, Hexp.
  assert (Hor : js_or d (JStr "P") = d).
  { unfold d. destruct ds; [done | reflexivity]. }
  rewrite Hor, (Hout Hlt).
  by destruct (if truthy (br_created_at req) then _ else _).
Qed.

Lemma shaped_duration_gives_offset_witness :
  computeExpiresAt (H := sample_runtime) 1700000000000 (JStr "90m") JNull
  = Ok (Some 1700005400000)
  /\ computeExpiresAt (H := sample_runtime) 1700000000000 (JStr "999999999999d") JNull
     = Throw.
Proof.
  assert (Hds : forall l, forallb is_digit l = true ->
                          Forall (fun c => is_digit c = true) l).
  { intros l Hl. apply Forall_forall. intros x Hx.
    rewrite forallb_forall in Hl. apply Hl. by apply list_elem_of_In. }
  split.
  - refine (proj1 (shaped_duration_gives_offset (H := sample_runtime) 1700000000000
                     ["9"; "0"]%char "m"%char JNull eq_refl _
                     (Hds ["9"; "0"]%char eq_refl) _) _).
    + discriminate.
    + by left.
    + vm_compute. discriminate.
  - refine (proj1 (proj2 (shaped_duration_gives_offset (H := sample_runtime)
                     1700000000000
                     (list_ascii_of_string "999999999999") "d"%char JNull eq_refl _
                     (Hds (list_ascii_of_string "999999999999") eq_refl) _)) _).
    + discriminate.
    + by right; right.
    + vm_compute. reflexivity.
Defined.

(** ** Evidence images *)

Module UriFacts.

Lemma loa_app (a b : string) :
  list_ascii_of_string (a +:+ b) = list_ascii_of_string a ++ list_ascii_of_string b.
Proof.
  induction a as [|c a IH]; [done|].
  change (String c a +:+ b) with (String c (a +:+ b)). simpl. by rewrite IH.
Qed.

Lemma sol_app (a b : list ascii) :
  string_of_list_ascii (a ++ b) = string_of_list_ascii a +:+ string_of_list_ascii b.
Proof.
  induction a as [|c a IH]; [done|]. simpl. rewrite IH. reflexivity.
Qed.

Lemma loa_nil (s : string) : list_ascii_of_string s = [] <-> s = "".
Proof. destruct s; split; done. Qed.

Lemma strip_prefix_app (pre r : list ascii) : strip_prefix pre (pre ++ r) = Some r.
Proof.
  induction pre as [|p pre IH]; [done|]. simpl. by rewrite bool_decide_eq_true_2.
Qed.

Lemma strip_prefix_Some (pre cs r : list ascii) :
  strip_prefix pre cs = Some r -> cs = pre ++ r.
Proof.
  revert cs. induction pre as [|p pre IH]; intros cs; simpl; [by intros [= ->]|].
  destruct cs as [|c cs]; [done|]. case_bool_decide as Hpc; [|done].
  intros Hs. subst c. by rewrite (IH cs Hs).
Qed.

Lemma take_drop_while (p : ascii -> bool) (l : list ascii) :
  take_while p l ++ drop_while p l = l.
Proof.
  induction l as [|c l IH]; [done|]. simpl. destruct (p c); [|done].
  simpl. by rewrite IH.
Qed.

Lemma take_while_forallb (p : ascii -> bool) (l : list ascii) :
  forallb p (take_while p l) = true.
Proof.
  induction l as [|c l IH]; [done|]. simpl. destruct (p c) eqn:E; [|done].
  simpl. by rewrite E.
Qed.

Lemma while_split (p : ascii -> bool) (xs : list ascii) (c : ascii) (r : list ascii) :
  forallb p xs = true -> p c = false ->
  take_while p (xs ++ c :: r) = xs /\ drop_while p (xs ++ c :: r) = c :: r.
Proof.
  intros Hxs Hc. induction xs as [|x xs IH]; simpl; [by rewrite Hc|].
  simpl in Hxs. apply andb_true_iff in Hxs as [Hx Hxs]. rewrite Hx.
  destruct (IH Hxs) as [-> ->]. done.
Qed.

Lemma drop_while_head (p : ascii -> bool) (l r : list ascii) (c : ascii) :
  drop_while p l = c :: r -> p c = false.
Proof.
  induction l as [|x l IH]; simpl; [done|]. destruct (p x) eqn:E; [done|].
  by intros [= -> _].
Qed.

Lemma match_unfold (text : string) :
  match_data_uri text
  = match strip_prefix (list_ascii_of_string "data:image/")
            (list_ascii_of_string text) with
    | None => None
    | Some rest =>
        if bool_decide (take_while is_mime_char rest = []) then None
        else
          match strip_prefix (list_ascii_of_string ";base64,")
                  (drop_while is_mime_char rest) with
          | None => None
          | Some payload =>
              if bool_decide (payload = []) || has_line_terminator payload
              then None
              else Some ("image/" +:+ string_of_list_ascii
                                        (take_while is_mime_char rest),
                         string_of_list_ascii payload)
          end
    end.
Proof. reflexivity. Qed.

(** The match of the pattern on a text. *)
Lemma match_exact (s mime base64 : string) :
  match_data_uri s = Some (mime, base64)
  <-> exists subtype,
        mime = "image/" +:+ subtype /\ subtype <> ""
        /\ forallb is_mime_char (list_ascii_of_string subtype) = true
        /\ base64 <> ""
        /\ has_line_terminator (list_ascii_of_string base64) = false
        /\ s = "data:" +:+ mime +:+ ";base64," +:+ base64.
Proof.
  rewrite match_unfold.
  set (P := list_ascii_of_string "data:image/").
  set (B := list_ascii_of_string ";base64,").
  split.
  - destruct (strip_prefix P (list_ascii_of_string s)) as [rest|] eqn:Hpre; [|done].
    case_bool_decide as Hsub; [done|].
    destruct (strip_prefix B (drop_while is_mime_char rest)) as [payload|] eqn:Hb64;
      [|done].
    destruct (bool_decide (payload = []) || has_line_terminator payload)
      eqn:Hpay; [done|].
    apply orb_false_iff in Hpay as [Hne Hlt]. apply bool_decide_eq_false in Hne.
    intros [= <- <-]. exists (string_of_list_ascii (take_while is_mime_char rest)).
    rewrite !list_ascii_of_string_of_list_ascii.
    split; [done|]. split.
    { intros E. apply Hsub. apply (f_equal list_ascii_of_string) in E.
      by rewrite list_ascii_of_string_of_list_ascii in E. }
    split; [apply take_while_forallb|]. split.
    { intros E. apply Hne. apply (f_equal list_ascii_of_string) in E.
      by rewrite list_ascii_of_string_of_list_ascii in E. }
    split; [done|].
    apply strip_prefix_Some in Hpre. apply strip_prefix_Some in Hb64.
    rewrite <- (string_of_list_ascii_of_string s), Hpre.
    rewrite <- (take_drop_while is_mime_char rest) at 1. rewrite Hb64.
    rewrite !sol_app. reflexivity.
  - intros (subtype & -> & Hsub & Hmime & Hne & Hlt & ->).
    assert (Htext : list_ascii_of_string
                      ("data:" +:+ ("image/" +:+ subtype) +:+ ";base64," +:+ base64)
                    = P ++ list_ascii_of_string subtype
                        ++ ";"%char :: (list_ascii_of_string "base64,"
                                        ++ list_ascii_of_string base64)).
    { rewrite !loa_app. reflexivity. }
    rewrite Htext, strip_prefix_app.
    destruct (while_split is_mime_char (list_ascii_of_string subtype) ";"%char
                (list_ascii_of_string "base64," ++ list_ascii_of_string base64)
                Hmime eq_refl) as [-> ->].
    rewrite bool_decide_eq_false_2 by (by rewrite loa_nil).
    change (";"%char :: (list_ascii_of_string "base64," ++ list_ascii_of_string base64))
      with (B ++ list_ascii_of_string base64).
    rewrite strip_prefix_app.
    rewrite bool_decide_eq_false_2 by (by rewrite loa_nil). rewrite Hlt.
    cbn [orb]. by rewrite !string_of_list_ascii_of_string.
Qed.

End UriFacts.

(** X23. The data-URI parser accepts exactly the values whose text is
    "data:image/<subtype>;base64,<payload>" with a non-empty subtype of
    letters, digits, '.', '+' and '-' and a non-empty payload without line
    terminators (LF, CR, U+2028, U+2029), and returns "image/<subtype>" and
    the payload: putting the parts back together gives the text that was
    parsed.  It throws exactly when the text of the value cannot be
    taken. *)
Theorem data_uri_parts_are_exact `{Runtime} (v : jsval) (mime base64 : string) :
  (extractDataUriParts v = Ok (Some (mime, base64))
   <-> exists subtype,
         mime = "image/" +:+ subtype /\ subtype <> ""
         /\ forallb is_mime_char (list_ascii_of_string subtype) = true
         /\ base64 <> ""
         /\ has_line_terminator (list_ascii_of_string base64) = false
         /\ js_String (js_or v (JStr ""))
            = Ok ("data:" +:+ mime +:+ ";base64," +:+ base64))
  /\ (extractDataUriParts v = Throw <-> js_String (js_or v (JStr "")) = Throw)
  /\ extractDataUriParts (JStr "data:image/svg+xml;base64,PHN2Zz4=")
     = Ok (Some ("image/svg+xml", "PHN2Zz4="))
  /\ Forall (fun text => extractDataUriParts (JStr text) = Ok None)
       [ "data:image/png;base64,"; "data:image/;base64,AAAA";
         "data:image/png;base64,AA" +:+ line_separator +:+ "AA";
         "data:image/png;base64,AA" +:+ String (ascii_of_N 10) "AA";
         "data:image/png;base64,AA" +:+ String (ascii_of_N 13) "";
         "data:image/p_g;base64,AAAA"; "data:text/plain;base64,AAAA";
         " data:image/png;base64,AAAA" ]
  /\ extractDataUriParts (JStr ("data:image/png;base64,AA" +:+ no_break_space))
     = Ok (Some ("image/png", "AA" +:+ no_break_space))
  /\ extractDataUriParts (JObj [("toString", JStr "data:image/png;base64,AAAA")])
     = Throw.
Proof.
  split; [|split; [|split; [|split; [|split]]]];
    try reflexivity; [| |repeat constructor].
  - unfold extractDataUriParts.
    destruct (js_String (js_or v (JStr ""))) as [text|]; simpl.
    + split.
      * intros [= Hm]. apply UriFacts.match_exact in Hm
          as (subtype & ? & ? & ? & ? & ? & ->). by exists subtype.
      * intros (subtype & ? & ? & ? & ? & ? & [= ->]). f_equal.
        apply UriFacts.match_exact. by exists subtype.
    + split; [done | by intros (? & _ & _ & _ & _ & _ & ?)].
  - unfold extractDataUriParts.
    by destruct (js_String (js_or v (JStr ""))).
Qed.

Lemma data_uri_parts_are_exact_witness :
  extractDataUriParts (H := sample_runtime) (JStr "data:image/jpeg;base64,/9j/4AAQ")
  = Ok (Some ("image/jpeg", "/9j/4AAQ")).
Proof.
  apply (proj2 (proj1 (data_uri_parts_are_exact (H := sample_runtime)
                         (JStr "data:image/jpeg;base64,/9j/4AAQ")
                         "image/jpeg" "/9j/4AAQ"))).
  exists "jpeg". repeat split; discriminate.
Defined.

(** X24. Attaching evidence changes the store only on success, and then only
    the [evidence_url] of the bans that have both the request's license key
    and its ban id, which becomes the public URL of the uploaded object:
    every other column and every other ban, of this or another tenant, is
    as before.  Missing fields, image data that is no data URI, image data
    whose text cannot be taken, a failed upload and a missing public URL
    are answered with their own error and change nothing. *)
Theorem evidence_update_is_scoped `{Runtime} (db : DB) (now : Z)
  (upload : string -> UploadOutcome) (public_url : string -> option string)
  (license_key ban_id : option string) (image_data : jsval) :
  let out := server_ban_evidence db now upload public_url license_key ban_id image_data in
  (status (fst out) <> 200 -> snd out = db)
  /\ (str_truthy license_key = None \/ str_truthy ban_id = None
      \/ truthy image_data = false ->
      out = (json 400 [("success", JBool false); ("error", JStr "MISSING_FIELDS")], db))
  /\ (forall k b, str_truthy license_key = Some k -> str_truthy ban_id = Some b ->
        truthy image_data = true ->
        (extractDataUriParts image_data = Ok None ->
         out = (json 400 [("success", JBool false);
                          ("error", JStr "INVALID_IMAGE_DATA")], db))
        /\ (extractDataUriParts image_data = Throw ->
            out = (json 500 [("success", JBool false)], db)))
  /\ (status (fst out) = 200 ->
      exists k b mime base64 url,
        let path :=
          k +:+ "/" +:+ b +:+ "-" +:+ pretty now +:+ "."
          +:+ (if includes "png" mime then "png" else "jpg") in
        str_truthy license_key = Some k /\ str_truthy ban_id = Some b
        /\ extractDataUriParts image_data = Ok (Some (mime, base64))
        /\ upload path = UploadDone
        /\ public_url path = Some url /\ url <> ""
        /\ fst out = json 200 [("success", JBool true); ("evidence_url", JStr url)]
        /\ Forall2 (fun r r' =>
                      if bool_decide (ban_license_key r = k /\ ban_ban_id r = b)
                      then r' = mkBan k (ban_player_id r) (ban_reason r)
                                  (ban_duration r) b (ban_created_at r)
                                  (ban_expires_at r) (ban_banned_by r) (JStr url)
                                  (ban_identifiers r)
                      else r' = r)
             (bans db) (bans (snd out))
        /\ licenses (snd out) = licenses db /\ customers (snd out) = customers db
        /\ panel_admins (snd out) = panel_admins db).
Proof.
  intros out. unfold out, server_ban_evidence.
  destruct (str_truthy license_key) as [k|] eqn:Hk.
  2: { repeat split; try done. }
  destruct (str_truthy ban_id) as [b|] eqn:Hb.
  2: { repeat split; try done. }
  destruct (truthy image_data) eqn:Hi.
  2: { repeat split; try done. }
  destruct (extractDataUriParts image_data) as [[[mime base64]|]|] eqn:He.
  2, 3: repeat split; try done; by intros [?|[?|?]].
  destruct (upload _) eqn:Hu.
  2, 3: repeat split; try done; by intros [?|[?|?]].
  destruct (public_url _) as [url0|] eqn:Hpub.
  2: { repeat split; try done; by intros [?|[?|?]]. }
  destruct (str_truthy (Some url0)) as [url|] eqn:Hurl.
  2: { repeat split; try done; by intros [?|[?|?]]. }
  apply StoreFacts.str_truthy_inv in Hurl as [[= ->] Hne].
  split; [done|]. split; [by intros [?|[?|?]]|]. split; [done|].
  intros _. exists k, b, mime, base64, url. cbv zeta.
  do 3 (split; [done|]). split; [exact Hu|]. split; [exact Hpub|].
  split; [exact Hne|]. split; [done|].
  split; [|done]. simpl. apply KeepFacts.Forall2_map_same. intros r _.
  destruct (bool_decide (ban_license_key r = k)) eqn:E1,
           (bool_decide (ban_ban_id r = b)) eqn:E2; simpl;
    try apply bool_decide_eq_true in E1; try apply bool_decide_eq_true in E2;
    try apply bool_decide_eq_false in E1; try apply bool_decide_eq_false in E2.
  - rewrite bool_decide_eq_true_2 by done. unfold set_evidence_url. by rewrite E1, E2.
  - rewrite bool_decide_eq_false_2; [done | tauto].
  - rewrite bool_decide_eq_false_2; [done | tauto].
  - rewrite bool_decide_eq_false_2; [done | tauto].
Qed.

Lemma evidence_update_is_scoped_witness :
  status (fst (server_ban_evidence (H := sample_runtime)
                 (sample_db None true "GG-A1B2-C3D4") 1700000000000
                 (fun _ => UploadDone) (fun p => Some ("https://cdn.example/" +:+ p))
                 (Some "GG-A1B2-C3D4") (Some "GG-1700000000000")
                 (JStr "data:image/png;base64,iVBORw0KGgo="))) = 200
  /\ ban_evidence_url
       <$> bans (snd (server_ban_evidence (H := sample_runtime)
                        (sample_db None true "GG-A1B2-C3D4") 1700000000000
                        (fun _ => UploadDone)
                        (fun p => Some ("https://cdn.example/" +:+ p))
                        (Some "GG-A1B2-C3D4") (Some "GG-1700000000000")
                        (JStr "data:image/png;base64,iVBORw0KGgo=")))
     = [JStr "https://cdn.example/GG-A1B2-C3D4/GG-1700000000000-1700000000000.png"].
Proof.
  split; [reflexivity|].
  destruct (proj2 (proj2 (proj2 (evidence_update_is_scoped (H := sample_runtime)
              (sample_db None true "GG-A1B2-C3D4") 1700000000000
              (fun _ => UploadDone) (fun p => Some ("https://cdn.example/" +:+ p))
              (Some "GG-A1B2-C3D4") (Some "GG-1700000000000")
              (JStr "data:image/png;base64,iVBORw0KGgo=")))) eq_refl)
    as (k & b & mime & base64 & url & [= <-] & [= <-] & [= <- <-] & _ & [= <-] & _
        & _ & Hbans & _).
  apply Forall2_cons_inv_l in Hbans as (r' & rest & Hr & Hrest & ->).
  apply Forall2_nil_inv_l in Hrest as ->. simpl in Hr. by rewrite Hr.
Defined.

(** ** Keys and tokens *)

Module TokenFacts.

Lemma hex_cons (b : byte) (bs : list byte) :
  hex_of_bytes (b :: bs) = String (lower_hi b) (String (lower_lo b) (hex_of_bytes bs)).
Proof. reflexivity. Qed.

Lemma byte_of_lower_digits (b : byte) :
  Byte.of_N (16 * lower_hex_value (lower_hi b) + lower_hex_value (lower_lo b)) = Some b.
Proof. destruct b; vm_compute; reflexivity. Qed.

Lemma hex_round_trip (bs : list byte) :
  bytes_of_hex (list_ascii_of_string (hex_of_bytes bs)) = Some bs.
Proof.
  induction bs as [|b bs IH]; [done|].
  rewrite hex_cons. cbn [list_ascii_of_string bytes_of_hex].
  rewrite byte_of_lower_digits. simpl. by rewrite IH.
Qed.

Lemma hex_length (bs : list byte) :
  String.length (hex_of_bytes bs) = (2 * length bs)%nat.
Proof.
  induction bs as [|b bs IH]; [done|].
  rewrite hex_cons. cbn [String.length length]. rewrite IH. lia.
Qed.

Lemma key_chars (b1 b2 b3 b4 : byte) :
  generateLicenseKey b1 b2 b3 b4
  = String "G" (String "G" (String "-"
      (String (upper_hi b1) (String (upper_lo b1)
        (String (upper_hi b2) (String (upper_lo b2)
          (String "-"
            (String (upper_hi b3) (String (upper_lo b3)
              (String (upper_hi b4) (String (upper_lo b4) ""))))))))))).
Proof. reflexivity. Qed.

End TokenFacts.

(** X25. An invite token spells the random bytes it is made from: it has two
    lower-case hexadecimal digits per byte (48 characters for the 24 bytes of
    an invite), decoding it gives the bytes back, and so different draws
    give different tokens. *)
Theorem invite_token_spells_its_bytes (random : list byte) :
  String.length (randomToken random) = (2 * length random)%nat
  /\ bytes_of_hex (list_ascii_of_string (randomToken random)) = Some random
  /\ (forall random', randomToken random = randomToken random' -> random = random')
  /\ (length random = 24%nat -> String.length (randomToken random) = 48%nat).
Proof.
  unfold randomToken. split; [apply TokenFacts.hex_length|].
  split; [apply TokenFacts.hex_round_trip|]. split.
  - intros random' Heq.
    pose proof (TokenFacts.hex_round_trip random) as H1.
    rewrite Heq, TokenFacts.hex_round_trip in H1. by injection H1.
  - intros Hlen. rewrite TokenFacts.hex_length, Hlen. reflexivity.
Qed.

Lemma invite_token_spells_its_bytes_witness :
  length (replicate 24 x5a) = 24%nat
  /\ String.length (randomToken (replicate 24 x5a)) = 48%nat.
Proof.
  split; [reflexivity|].
  exact (proj2 (proj2 (proj2 (invite_token_spells_its_bytes (replicate 24 x5a))))
           eq_refl).
Defined.

(** X26. A license key is twelve characters long and spells the four random
    bytes it is made from: two draws give the same key only when they are
    the same four bytes. *)
Theorem license_key_spells_its_bytes (b1 b2 b3 b4 : byte) :
  String.length (generateLicenseKey b1 b2 b3 b4) = 12%nat
  /\ String.prefix "GG-" (generateLicenseKey b1 b2 b3 b4) = true
  /\ (forall c1 c2 c3 c4,
        generateLicenseKey b1 b2 b3 b4 = generateLicenseKey c1 c2 c3 c4 ->
        b1 = c1 /\ b2 = c2 /\ b3 = c3 /\ b4 = c4).
Proof.
  rewrite TokenFacts.key_chars. split; [reflexivity|]. split; [reflexivity|].
  intros c1 c2 c3 c4. rewrite TokenFacts.key_chars.
  intros [= H1 H2 H3 H4 H5 H6 H7 H8].
  pose proof (KeyFacts.byte_of_hex_digits b1) as E1.
  rewrite H1, H2, KeyFacts.byte_of_hex_digits in E1.
  pose proof (KeyFacts.byte_of_hex_digits b2) as E2.
  rewrite H3, H4, KeyFacts.byte_of_hex_digits in E2.
  pose proof (KeyFacts.byte_of_hex_digits b3) as E3.
  rewrite H5, H6, KeyFacts.byte_of_hex_digits in E3.
  pose proof (KeyFacts.byte_of_hex_digits b4) as E4.
  rewrite H7, H8, KeyFacts.byte_of_hex_digits in E4.
  repeat split; congruence.
Qed.

Lemma license_key_spells_its_bytes_witness :
  generateLicenseKey xa1 xb2 xc3 xd4 = "GG-A1B2-C3D4"
  /\ forall c1 c2 c3 c4,
       generateLicenseKey xa1 xb2 xc3 xd4 = generateLicenseKey c1 c2 c3 c4 ->
       xa1 = c1 /\ xb2 = c2 /\ xc3 = c3 /\ xd4 = c4.
Proof.
  split; [reflexivity|].
  exact (proj2 (proj2 (license_key_spells_its_bytes xa1 xb2 xc3 xd4))).
Defined.

(** X27. The ban check never contradicts itself and never sends raw
    identifiers to the store: a 200 reply follows an answer of the store to
    the cleaned identifier list and says [banned: true] with the first row
    of that answer, or [banned: false] with [ban: null] when there is none;
    identifiers whose text cannot be taken are answered 500 without asking
    the store, and with a store that answers every query whose identifiers
    are distinct and non-empty this is the only way to a 500; without a
    license key or with identifiers that are no array the reply is 400
    MISSING_FIELDS. *)
Theorem ban_check_reply_is_consistent `{Runtime}
  (rpc : string -> list string -> RpcOutcome)
  (license_key : option string) (identifiers : jsval) :
  let reply := server_ban_check rpc license_key identifiers in
  (status reply = 200 ->
   exists k ids data,
     str_truthy license_key = Some k
     /\ normalizeIdentifiers identifiers = Ok ids
     /\ rpc k ids = RpcData data
     /\ let ban := match data with
                   | JArr (first :: _) => first
                   | JArr [] => JUndefined
                   | _ => JNull
                   end in
        body reply = JObj [("success", JBool true); ("banned", JBool (truthy ban));
                           ("ban", if truthy ban then ban else JNull)])
  /\ (forall k, str_truthy license_key = Some k -> Array_isArray identifiers = true ->
        normalizeIdentifiers identifiers = Throw ->
        reply = json 500 [("success", JBool false)])
  /\ ((forall k ids, NoDup ids -> ("" ∉ ids) -> exists data, rpc k ids = RpcData data) ->
      status reply = 500 -> normalizeIdentifiers identifiers = Throw)
  /\ (str_truthy license_key = None \/ Array_isArray identifiers = false ->
      reply = json 400 [("success", JBool false); ("error", JStr "MISSING_FIELDS")]).
Proof.
  intros reply. unfold reply, server_ban_check.
  destruct (str_truthy license_key) as [k|].
  2: { split; [done|]. split; [done|]. split; [done|]. by intros _. }
  destruct (Array_isArray identifiers).
  2: { split; [done|]. split; [done|]. split; [done|]. by intros _. }
  destruct (normalizeIdentifiers identifiers) as [ids|] eqn:Hids.
  2: { split; [done|]. split; [done|]. split; [done|]. by intros [?|?]. }
  split; [|split; [done|split; [|by intros [?|?]]]].
  - destruct (rpc k ids) as [data| |] eqn:Hrpc; [|done|done]. intros _.
    by exists k, ids, data.
  - intros Hclean.
    destruct (Hclean k ids) as [data ->]; [| |done].
    + by apply (NormFacts.normalize_NoDup identifiers).
    + intros Hin. by apply (NormFacts.normalize_elem _ _ _ Hids) in Hin as [? _].
Qed.

Lemma ban_check_reply_is_consistent_witness :
  server_ban_check (H := sample_runtime)
    (fun _ ids => RpcData (JArr (map JStr ids))) (Some "GG-A1B2-C3D4")
    (JArr [JStr " steam:1 "; JStr "steam:1"])
  = json 200 [("success", JBool true); ("banned", JBool true); ("ban", JStr "steam:1")]
  /\ (status (server_ban_check (H := sample_runtime)
                (fun _ ids => RpcData (JArr (map JStr ids))) (Some "GG-A1B2-C3D4")
                (JArr [JStr " steam:1 "; JStr "steam:1"])) = 500 ->
      normalizeIdentifiers (H := sample_runtime)
        (JArr [JStr " steam:1 "; JStr "steam:1"]) = Throw).
Proof.
  split; [reflexivity|].
  apply (proj1 (proj2 (proj2 (ban_check_reply_is_consistent (H := sample_runtime)
                         (fun _ ids => RpcData (JArr (map JStr ids)))
                         (Some "GG-A1B2-C3D4")
                         (JArr [JStr " steam:1 "; JStr "steam:1"]))))).
  intros k ids _ _. by exists (JArr (map JStr ids)).
Defined.

(** ** The log buffer under ordinary keys *)

(** X28. Under a license key that is no inherited name, ingesting 310 log
    events leaves the buffer of that tenant with exactly 300 entries, newest
    first, the 10 oldest of the 310 being the absent ones, whatever the
    buffer held before, and leaves the other buffers alone; no buffer ever
    holds more than 300 entries (the bound holds initially and every push
    keeps it); a push onto a full buffer prepends the new entry and drops
    exactly the last (oldest) one; and the ingestion handler answers 200
    after pushing the item it built from the request. *)
Theorem log_buffer_310_keeps_newest_300
  (m : gmap string (list LogEvent)) (k : string) (items : list LogEvent) :
  inherited k = false -> length items = 310%nat ->
  (exists m',
     Logs.ingest_all m k items = Ok m'
     /\ Logs.buffer_of m' k = rev (drop 10 items)
     /\ length (Logs.buffer_of m' k) = 300%nat
     /\ (forall k', k <> k' -> Logs.buffer_of m' k' = Logs.buffer_of m k'))
  /\ logs_bounded ∅
  /\ (forall m0 k0 e m1,
        logs_bounded m0 -> Logs.pushServerLog m0 k0 e = Ok m1 -> logs_bounded m1)
  /\ (forall m0 e,
        length (Logs.buffer_of m0 k) = 300%nat ->
        exists m1,
          Logs.pushServerLog m0 k e = Ok m1
          /\ Logs.buffer_of m1 k = e :: removelast (Logs.buffer_of m0 k))
  /\ (forall m0 t_id t_time rnd level type title message meta persist,
        k <> "" -> truthy message = true ->
        let item :=
          mkLogEvent (JStr ("LOG-" +:+ pretty t_id +:+ "-" +:+ pretty rnd))
            (JNum t_time) (if truthy level then level else JStr "info")
            (if truthy type then type else JStr "log")
            (if truthy title then title else JStr "Server") message
            (if truthy meta then meta else JNull) in
        server_log m0 t_id t_time rnd (Some k) level type title message meta persist
        = (json 200 [("success", JBool true)],
           <[k := take 300 (item :: Logs.buffer_of m0 k)]> m0)).
Proof.
  intros Hk Hlen. split.
  { destruct (LogsFacts.ingest_all_buffer m k items Hk) as (m' & Hrun & Hbuf & Hother).
    assert (H1 : Logs.buffer_of m' k = rev (drop 10 items)).
    { rewrite Hbuf. destruct items as [|x xs]; [done|].
      rewrite take_app_le by (rewrite length_rev; lia).
      rewrite firstn_rev. by rewrite Hlen. }
    exists m'. split; [exact Hrun|]. split; [exact H1|]. split; [|exact Hother].
    rewrite H1, length_rev, length_drop. lia. }
  split; [intros k'; unfold Logs.buffer_of; rewrite lookup_empty; simpl; lia|].
  split.
  { intros m0 k0 e m1 Hm Hpush k''. unfold Logs.pushServerLog in Hpush.
    destruct (inherited k0); [done|]. injection Hpush as <-.
    destruct (decide (k0 = k'')) as [->|Hne].
    - rewrite LogsFacts.buffer_of_insert. apply LogsFacts.truncate_length.
    - rewrite LogsFacts.buffer_of_insert_ne by done. apply Hm. }
  split.
  { intros m0 e Hfull. eexists. split; [by apply LogsFacts.push_ok|].
    rewrite LogsFacts.buffer_of_insert, LogsFacts.truncate_take.
    change (take 300 (e :: Logs.buffer_of m0 k))
      with (e :: take 299 (Logs.buffer_of m0 k)).
    f_equal. rewrite removelast_firstn_len. by rewrite Hfull. }
  intros m0 t_id t_time rnd level type title message meta persist Hne Hmsg item.
  unfold server_log. simpl str_truthy.
  destruct (String.eqb_spec k ""); [done|]. rewrite Hmsg.
  rewrite LogsFacts.push_ok by done. rewrite LogsFacts.truncate_take.
  by destruct persist.
Qed.

Lemma log_buffer_310_keeps_newest_300_witness :
  inherited "GG-A1B2-C3D4" = false
  /\ length (map sample_log (seq 1 310)) = 310%nat
  /\ exists m',
       Logs.ingest_all {["GG-A1B2-C3D4" := [sample_log 0]]} "GG-A1B2-C3D4"
         (map sample_log (seq 1 310)) = Ok m'
       /\ Logs.buffer_of m' "GG-A1B2-C3D4" = rev (drop 10 (map sample_log (seq 1 310))).
Proof.
  split; [reflexivity|]. split; [reflexivity|].
  destruct (proj1 (log_buffer_310_keeps_newest_300 {["GG-A1B2-C3D4" := [sample_log 0]]}
                     "GG-A1B2-C3D4" (map sample_log (seq 1 310)) eq_refl eq_refl))
    as (m' & Hrun & Hbuf & _).
  exists m'. by split.
Defined.
